(** * Adaptive chatter detection: a shallow embedding of the detection core

    This development embeds the statistics, spectral-feature, learning-memory
    and state-machine code of [adaptive_chatter.h] and [advanced_dsp.h], and
    the part of the sketch [main.cpp] that drives it, and proves properties
    of it.

    Numbers.  The C++ code computes on [float].  Every definition below is
    written once, over an interface [FloatOps] of the operations the code
    uses, and reads like the source.  Two implementations of the interface
    are given:

    - [binary32]: IEEE 754 single precision, through the parameterised
      specification of the standard library ([SpecFloat], precision 24,
      maximal exponent 128), with round-to-nearest-even, and with the order
      of the numbers, so that a [float] and a [double] compare as in C;
    - [xq]: the IEEE special values (NaN, +Inf, -Inf) around exact rational
      arithmetic, that is, [float] with rounding abstracted away.

    Properties that do not depend on arithmetic laws are proved for every
    implementation, those of the state machine for every implementation
    whose order is a strict order ([FloatOrder], which both are); properties
    that are statements of real arithmetic (averages, variances) are proved
    for [xq].  The C library functions [exp], [sqrt], [log10] and [pow] are
    taken as an interface of their own, [Libm].  The spectrum (an array of
    [double]) and the decimal literals are numbers of the same type as the
    [float]s, and arithmetic on them is the arithmetic of [float].  Two
    conversions between [float] and [double] are part of the interface
    because they decide a branch on ordinary inputs: [narrow], the rounding
    of a [double] that is stored in a [float] variable (the running maxima
    of [HarmonicDetector::analyze]), and [dlit], a [double] literal that a
    [float] is compared with (the cut-off 0.1 of [predictFeedReduction], the
    thresholds of [getOscillationScore]).

    Integers.  [uint32_t]/[unsigned long] values are [Z] with the wrap
    modulo 2^32 written out, [uint16_t] wraps modulo 2^16.  [int] indices and
    counters are [Z]; they stay far inside the 32-bit range, except for the
    event count read from the flash, whose decrement is [int_pred].

    Time and output.  [millis()] is an input: each function that reads the
    clock takes the value read.  [Serial] output is left out. *)

From Stdlib Require Import ZArith QArith Qcanon Qround Lia Lqa Bool SpecFloat Ascii.
From stdpp Require Import base numbers list strings gmap pretty.

Local Open Scope Z_scope.

(** ** The arithmetic interface *)

Class FloatOps (F : Type) : Type := {
  of_Z : Z -> F;              (* integer literal / int-to-float conversion *)
  fadd : F -> F -> F;
  fsub : F -> F -> F;
  fmul : F -> F -> F;
  fdiv : F -> F -> F;
  fneg : F -> F;
  fabs : F -> F;
  fltb : F -> F -> bool;      (* x < y, false when either side is NaN *)
  fleb : F -> F -> bool;      (* x <= y, false when either side is NaN *)
  is_finite : F -> bool;      (* isfinite(x) *)
  infinity : F;               (* INFINITY *)
  to_int : F -> Z;            (* (int)x: truncation toward zero *)
  narrow : F -> F;            (* (float)x of a double x *)
  dlit : Z -> Z -> F          (* the double literal n/d, such as 0.1 *)
}.

(** The functions of the C library the code calls: [exp], [sqrt], [log10]
    and [pow]. *)
Class Libm (F : Type) : Type := {
  fexp : F -> F;
  fsqrt : F -> F;
  flog10 : F -> F;
  fpow : F -> F -> F
}.

Declare Scope flt_scope.
Delimit Scope flt_scope with flt.
Infix "+." := fadd (at level 50, left associativity) : flt_scope.
Infix "-." := fsub (at level 50, left associativity) : flt_scope.
Infix "*." := fmul (at level 40, left associativity) : flt_scope.
Infix "/." := fdiv (at level 40, left associativity) : flt_scope.
Notation "x <. y" := (fltb x y) (at level 70, no associativity) : flt_scope.
Notation "x >. y" := (fltb y x) (at level 70, no associativity) : flt_scope.
Notation "x <=. y" := (fleb x y) (at level 70, no associativity) : flt_scope.
Notation "x >=. y" := (fleb y x) (at level 70, no associativity) : flt_scope.
Local Open Scope flt_scope.

(** What the state machine needs of the order: [<] is a strict order and
    the thresholds it compares are ordered as the integers are. *)
Class FloatOrder (F : Type) `{FloatOps F} : Prop := {
  flt_trans : forall x y z : F, (x <. y) = true -> (y <. z) = true -> (x <. z) = true;
  flt_irrefl : forall x : F, (x <. x) = false;
  flt_25_60 : (of_Z 25 <. of_Z 60) = true;
  flt_40_70 : (of_Z 40 <. of_Z 70) = true
}.

(** A decimal literal [n/d], such as [0.1] = [lit 1 10], in arithmetic; a
    literal that a [float] is compared with is [dlit]. *)
Definition lit {F} `{FloatOps F} (n d : Z) : F := of_Z n /. of_Z d.

(** [min] and [max] on [float]: the Arduino core for the ESP32 binds them to
    [std::min] and [std::max], that is, [(b < a) ? b : a] and
    [(a < b) ? b : a]. *)
Definition fmin {F} `{FloatOps F} (a b : F) : F := if b <. a then b else a.
Definition fmax {F} `{FloatOps F} (a b : F) : F := if a <. b then b else a.

(** Arrays.  A C array is a list; [a[i]] is [a @@ i].  A read outside the
    array is undefined behaviour in C and reads 0 here; a write outside the
    array changes nothing. *)
Definition aget {F} `{FloatOps F} (a : list F) (i : Z) : F :=
  if i <? 0 then of_Z 0 else default (of_Z 0) (a !! Z.to_nat i).
Definition aset {A} (a : list A) (i : Z) (v : A) : list A :=
  if i <? 0 then a else <[Z.to_nat i := v]> a.
Notation "a @@ i" := (aget a i) (at level 20, no associativity) : flt_scope.

(** [for (int i = lo; i < hi; i++)] runs its body on [range lo hi]. *)
Definition range (lo hi : Z) : list Z := seqZ lo (hi - lo).

(** [z - 1] on [int]: the subtraction overflows for [INT_MIN] only, where
    the two's-complement arithmetic of the target wraps to [INT_MAX]. *)
Definition int_pred (z : Z) : Z := if z =? - 2 ^ 31 then 2 ^ 31 - 1 else z - 1.

(** ** IEEE 754 values and their order

    [spec_float] holds the values of every precision.  A comparison in C is
    a comparison of the numbers, also between a [float] and a [double]: the
    order below is on the number a value stands for.  (The comparison of
    the standard library, [SFltb], is for two values of one precision in
    their canonical form, where it gives the same answers.) *)

Module Ieee.

Definition value (x : spec_float) : Q :=
  match x with
  | S754_finite s m e =>
      let v := if s then Zneg m else Zpos m in
      match e with
      | Zneg p => Qmake v (2 ^ p)
      | _ => inject_Z (v * 2 ^ e)
      end
  | _ => 0%Q
  end.

Definition ltb (x y : spec_float) : bool :=
  match x, y with
  | S754_nan, _ | _, S754_nan => false
  | S754_infinity s, S754_infinity t => s && negb t
  | S754_infinity s, _ => s
  | _, S754_infinity t => negb t
  | _, _ => if Qlt_le_dec (value x) (value y) then true else false
  end.

Definition leb (x y : spec_float) : bool :=
  match x, y with
  | S754_nan, _ | _, S754_nan => false
  | S754_infinity s, S754_infinity t => s || negb t
  | S754_infinity s, _ => s
  | _, S754_infinity t => negb t
  | _, _ => if Qlt_le_dec (value y) (value x) then false else true
  end.

End Ieee.

(** ** IEEE 754 double precision: the literals *)

Module Binary64.

Definition prec : Z := 53.
Definition emax : Z := 1024.

Definition b64_of_Z (z : Z) : spec_float := binary_normalize prec emax z 0 false.

(** The [double] nearest to [n/d]: the value of a decimal literal such as
    [0.1] (with [n] and [d] below 2^53). *)
Definition b64_lit (n d : Z) : spec_float := SFdiv prec emax (b64_of_Z n) (b64_of_Z d).

End Binary64.

(** ** IEEE 754 single precision *)

Module Binary32.

Definition prec : Z := 24.
Definition emax : Z := 128.

Definition b32_of_Z (z : Z) : spec_float := binary_normalize prec emax z 0 false.

Definition b32_is_finite (x : spec_float) : bool :=
  match x with
  | S754_zero _ | S754_finite _ _ _ => true
  | S754_infinity _ | S754_nan => false
  end.

(** Truncation toward zero of a finite value; the conversion of a
    non-finite value is undefined in C and is given the value 0 here. *)
Definition b32_to_int (x : spec_float) : Z :=
  match x with
  | S754_finite s m e =>
      let v := match e with
               | Zneg p => Z.shiftr (Zpos m) (Zpos p)
               | _ => Z.shiftl (Zpos m) e
               end in
      if s then - v else v
  | _ => 0
  end.

(** A [double] stored in a [float]: rounded to the nearest [float], ties to
    even (infinity on overflow). *)
Definition b32_of_double (x : spec_float) : spec_float :=
  match x with
  | S754_finite s m e => binary_round prec emax s m e
  | _ => x
  end.

#[global] Instance binary32 : FloatOps spec_float := {|
  of_Z := b32_of_Z;
  fadd := SFadd prec emax;
  fsub := SFsub prec emax;
  fmul := SFmul prec emax;
  fdiv := SFdiv prec emax;
  fneg := SFopp;
  fabs := SFabs;
  fltb := Ieee.ltb;
  fleb := Ieee.leb;
  is_finite := b32_is_finite;
  infinity := S754_infinity false;
  to_int := b32_to_int;
  narrow := b32_of_double;
  dlit := Binary64.b64_lit
|}.

End Binary32.

(** ** Exact arithmetic with the IEEE special values *)

Module XQ.

Inductive xq : Type :=
| XNaN
| XInf (neg : bool)
| XFin (q : Qc).

Definition qneg (q : Qc) : bool := if Qclt_le_dec q 0%Qc then true else false.
Definition qzero (q : Qc) : bool := if Qc_eq_dec q 0%Qc then true else false.

Definition xq_of_Z (z : Z) : xq := XFin (Qc_of_Z z).

Definition xq_neg (x : xq) : xq :=
  match x with
  | XNaN => XNaN
  | XInf s => XInf (negb s)
  | XFin q => XFin (- q)%Qc
  end.

Definition xq_abs (x : xq) : xq :=
  match x with
  | XNaN => XNaN
  | XInf _ => XInf false
  | XFin q => XFin (if qneg q then - q else q)%Qc
  end.

Definition xq_add (x y : xq) : xq :=
  match x, y with
  | XNaN, _ | _, XNaN => XNaN
  | XInf s, XInf t => if Bool.eqb s t then XInf s else XNaN
  | XInf s, XFin _ | XFin _, XInf s => XInf s
  | XFin a, XFin b => XFin (a + b)%Qc
  end.

Definition xq_sub (x y : xq) : xq := xq_add x (xq_neg y).

Definition xq_mul (x y : xq) : xq :=
  match x, y with
  | XNaN, _ | _, XNaN => XNaN
  | XInf s, XInf t => XInf (xorb s t)
  | XInf s, XFin q | XFin q, XInf s =>
      if qzero q then XNaN else XInf (xorb s (qneg q))
  | XFin a, XFin b => XFin (a * b)%Qc
  end.

Definition xq_div (x y : xq) : xq :=
  match x, y with
  | XNaN, _ | _, XNaN => XNaN
  | XInf _, XInf _ => XNaN
  | XInf s, XFin q => XInf (xorb s (qneg q))
  | XFin _, XInf _ => XFin 0%Qc
  | XFin a, XFin b =>
      if qzero b then (if qzero a then XNaN else XInf (qneg a))
      else XFin (a / b)%Qc
  end.

Definition xq_ltb (x y : xq) : bool :=
  match x, y with
  | XNaN, _ | _, XNaN => false
  | XInf s, XInf t => s && negb t
  | XInf s, XFin _ => s
  | XFin _, XInf t => negb t
  | XFin a, XFin b => if Qclt_le_dec a b then true else false
  end.

Definition xq_leb (x y : xq) : bool :=
  match x, y with
  | XNaN, _ | _, XNaN => false
  | XInf s, XInf t => s || negb t
  | XInf s, XFin _ => s
  | XFin _, XInf t => negb t
  | XFin a, XFin b => if Qclt_le_dec b a then false else true
  end.

Definition xq_is_finite (x : xq) : bool :=
  match x with XFin _ => true | _ => false end.

(** Truncation toward zero; 0 for the non-finite values (undefined in C). *)
Definition xq_to_int (x : xq) : Z :=
  match x with
  | XFin q => Z.quot (Qnum q) (Zpos (Qden q))
  | _ => 0
  end.

(** The exact value of a [double]. *)
Definition xq_of_double (x : spec_float) : xq :=
  match x with
  | S754_nan => XNaN
  | S754_infinity s => XInf s
  | S754_zero _ => XFin 0%Qc
  | S754_finite _ _ _ => XFin (Q2Qc (Ieee.value x))
  end.

(** Rounding is abstracted away, so [narrow] changes nothing; a [double]
    literal is the number the compiler makes of it. *)
#[global] Instance exact : FloatOps xq := {|
  of_Z := xq_of_Z;
  fadd := xq_add;
  fsub := xq_sub;
  fmul := xq_mul;
  fdiv := xq_div;
  fneg := xq_neg;
  fabs := xq_abs;
  fltb := xq_ltb;
  fleb := xq_leb;
  is_finite := xq_is_finite;
  infinity := XInf false;
  to_int := xq_to_int;
  narrow := fun x => x;
  dlit := fun n d => xq_of_double (Binary64.b64_lit n d)
|}.

End XQ.

(** ** RunningStats (Welford's algorithm), adaptive_chatter.h *)

Module RunningStats.
Section Defs.
Context {F : Type} {ops : FloatOps F}.

Record t : Type := Build {
  n : Z;          (* uint32_t *)
  mean : F;
  M2 : F;
  minVal : F;
  maxVal : F
}.

Definition clear : t :=
  {| n := 0; mean := of_Z 0; M2 := of_Z 0;
     minVal := infinity; maxVal := fneg infinity |}.

Definition push (s : t) (x : F) : t :=
  if negb (is_finite x) then s
  else
    let n1 := (n s + 1) mod 2 ^ 32 in
    let delta := x -. mean s in
    let mean1 := mean s +. delta /. of_Z n1 in
    let delta2 := x -. mean1 in
    let M21 := M2 s +. delta *. delta2 in
    let min1 := if x <. minVal s then x else minVal s in
    let max1 := if x >. maxVal s then x else maxVal s in
    {| n := n1; mean := mean1; M2 := M21; minVal := min1; maxVal := max1 |}.

Definition getMean (s : t) : F := if 0 <? n s then mean s else of_Z 0.

Definition getVariance (s : t) : F :=
  if 1 <? n s then M2 s /. of_Z ((n s - 1) mod 2 ^ 32) else of_Z 0.

Definition getStdDev `{Libm F} (s : t) : F :=
  let v := getVariance s in
  if is_finite v && (v >. of_Z 0) then fsqrt v else of_Z 0.

Definition getMin (s : t) : F := if 0 <? n s then minVal s else of_Z 0.
Definition getMax (s : t) : F := if 0 <? n s then maxVal s else of_Z 0.
Definition getCount (s : t) : Z := n s.

(** A sequence of [push] calls. *)
Definition push_all (s : t) (xs : list F) : t := fold_left push xs s.

End Defs.
Arguments t F : clear implicits.
End RunningStats.

(** * advanced_dsp.h *)

(** ** StabilityLobePredictor *)

Module StabilityLobePredictor.
Section Defs.
Context {F : Type} {ops : FloatOps F}.

Record t : Type := Build {
  teeth : Z;
  diameter : F;
  fn : F;
  spindleRPM : F;
  toothPassFreq : F
}.

Definition initial : t :=
  {| teeth := 2; diameter := of_Z 6; fn := of_Z 800;
     spindleRPM := of_Z 0; toothPassFreq := of_Z 0 |}.

Definition setToolParams (s : t) (numTeeth : Z) (toolDiameter naturalFreq : F) : t :=
  {| teeth := numTeeth; diameter := toolDiameter; fn := naturalFreq;
     spindleRPM := spindleRPM s; toothPassFreq := toothPassFreq s |}.

Definition setSpindleRPM (s : t) (rpm : F) : t :=
  {| teeth := teeth s; diameter := diameter s; fn := fn s;
     spindleRPM := rpm;
     toothPassFreq := (rpm *. of_Z (teeth s)) /. of_Z 60 |}.

Definition in_band (f : F) : bool := (f >. of_Z 200) && (f <. of_Z 10000).

(** The array [freqs] is returned as the list of its first [count]
    entries. *)
Definition getPredictedChatterFreqs (s : t) (maxCount : Z) : list F :=
  if spindleRPM s <. of_Z 100 then []
  else
    let lobes :=
      fold_left (fun freqs k =>
        if Z.of_nat (length freqs) <? maxCount then
          let f1 := of_Z k *. toothPassFreq s +. fn s in
          let f2 := fabs (of_Z k *. toothPassFreq s -. fn s) in
          let freqs1 := if in_band f1 then freqs ++ [f1] else freqs in
          if in_band f2 && (Z.of_nat (length freqs1) <? maxCount)
          then freqs1 ++ [f2] else freqs1
        else freqs) (range 1 6) [] in
    fold_left (fun freqs k =>
      if Z.of_nat (length freqs) <? maxCount then
        let f := of_Z k *. toothPassFreq s in
        if in_band f then freqs ++ [f] else freqs
      else freqs) (range 1 4) lobes.

Definition scoreFrequency (s : t) (detectedFreq : F) : F :=
  if spindleRPM s <. of_Z 100 then lit 5 10
  else
    let predictedFreqs := getPredictedChatterFreqs s 10 in
    let minDist :=
      fold_left (fun minDist p =>
        let dist := fabs (detectedFreq -. p) in
        if dist <. minDist then dist else minDist)
        predictedFreqs (of_Z 10000) in
    if minDist <. of_Z 50 then of_Z 1
    else if minDist <. of_Z 200 then lit 8 10
    else if minDist <. of_Z 500 then lit 5 10
    else lit 2 10.

Definition getToothPassFreq (s : t) : F := toothPassFreq s.

End Defs.
Arguments t F : clear implicits.
End StabilityLobePredictor.

(** ** HarmonicDetector *)

Module HarmonicDetector.
Section Defs.
Context {F : Type} {ops : FloatOps F}.

(** The pair [(maxMag, maxBin)] after the first loop.  [maxMag] is a
    [float] and the magnitudes are [double]s: the comparison is on the
    [double], the assignment rounds it. *)
Definition findPeak (magnitudes : list F) (minBin maxSearchBin : Z) : F * Z :=
  fold_left (fun '(maxMag, maxBin) i =>
    if magnitudes @@ i >. maxMag then (narrow (magnitudes @@ i), i) else (maxMag, maxBin))
    (range minBin maxSearchBin) (of_Z 0, 0).

(** The loop over the harmonics [h = 2, 3, 4]; [break] leaves the loop. *)
Fixpoint harmonicLoop (magnitudes : list F) (size : Z) (maxMag : F) (maxBin : Z)
    (hs : list Z) (harmonicScore : F) : F :=
  match hs with
  | [] => harmonicScore
  | h :: hs' =>
      let harmonicBin := maxBin * h in
      if harmonicBin >=? Z.quot size 2 then harmonicScore
      else
        let localMax :=
          fold_left (fun localMax j =>
            if magnitudes @@ j >. localMax then narrow (magnitudes @@ j) else localMax)
            (range (Z.max 0 (harmonicBin - 3))
                   (Z.min (Z.quot size 2 - 1) (harmonicBin + 3) + 1))
            (of_Z 0) in
        let harmonicScore1 :=
          if localMax >. maxMag *. lit 2 10
          then harmonicScore +. localMax /. maxMag
          else harmonicScore in
        harmonicLoop magnitudes size maxMag maxBin hs' harmonicScore1
  end.

(** Returns the harmonic strength and the value left in [fundamental]. *)
Definition analyze (magnitudes : list F) (size : Z) (binWidth : F) : F * F :=
  let minBin := to_int (of_Z 500 /. binWidth) in
  let maxSearchBin := Z.min (Z.quot size 2) (to_int (of_Z 8000 /. binWidth)) in
  let '(maxMag, maxBin) := findPeak magnitudes minBin maxSearchBin in
  if maxMag <. of_Z 100 then (of_Z 0, of_Z 0)
  else
    let fundamental := of_Z maxBin *. binWidth in
    let harmonicScore :=
      harmonicLoop magnitudes size maxMag maxBin [2; 3; 4] (of_Z 0) in
    (fmin (of_Z 1) (harmonicScore /. of_Z 2), fundamental).

End Defs.
End HarmonicDetector.

(** ** CrestFactorAnalyzer *)

Module CrestFactorAnalyzer.
Section Defs.
Context {F : Type} {ops : FloatOps F} {lm : Libm F}.

Definition BUFFER_SIZE : Z := 256.

Record t : Type := Build {
  buffer : list F;
  bufIdx : Z;
  count : Z
}.

Definition initial : t :=
  {| buffer := replicate (Z.to_nat BUFFER_SIZE) (of_Z 0); bufIdx := 0; count := 0 |}.

Definition push (s : t) (sample : F) : t :=
  {| buffer := aset (buffer s) (bufIdx s) sample;
     bufIdx := Z.rem (bufIdx s + 1) BUFFER_SIZE;
     count := if count s <? BUFFER_SIZE then count s + 1 else count s |}.

Definition getCrestFactor (s : t) : F :=
  if count s <? 10 then of_Z 0
  else
    let '(sum, sumSq, peak) :=
      fold_left (fun '(sum, sumSq, peak) i =>
        let v := fabs (buffer s @@ i) in
        (sum +. buffer s @@ i,
         sumSq +. buffer s @@ i *. buffer s @@ i,
         if v >. peak then v else peak))
        (range 0 (count s)) (of_Z 0, of_Z 0, of_Z 0) in
    let rms := fsqrt (sumSq /. of_Z (count s)) in
    if rms <. lit 1 1000 then of_Z 0 else peak /. rms.

Definition getChatterScore (s : t) : F :=
  let cf := getCrestFactor s in
  if (cf >=. of_Z 3) && (cf <=. of_Z 6) then of_Z 1
  else if (cf >=. lit 25 10) && (cf <=. of_Z 7) then lit 7 10
  else if (cf >=. of_Z 2) && (cf <=. of_Z 8) then lit 4 10
  else lit 1 10.

End Defs.
Arguments t F : clear implicits.
End CrestFactorAnalyzer.

(** ** CrossCorrelator *)

Module CrossCorrelator.
Section Defs.
Context {F : Type} {ops : FloatOps F} {lm : Libm F}.

Definition BUF_SIZE : Z := 64.

Record t : Type := Build {
  micBuf : list F;
  imuBuf : list F;
  micIdx : Z;
  imuIdx : Z
}.

Definition initial : t :=
  {| micBuf := replicate (Z.to_nat BUF_SIZE) (of_Z 0);
     imuBuf := replicate (Z.to_nat BUF_SIZE) (of_Z 0);
     micIdx := 0; imuIdx := 0 |}.

Definition pushMic (s : t) (v : F) : t :=
  {| micBuf := aset (micBuf s) (micIdx s) v; imuBuf := imuBuf s;
     micIdx := Z.rem (micIdx s + 1) BUF_SIZE; imuIdx := imuIdx s |}.

Definition pushIMU (s : t) (v : F) : t :=
  {| micBuf := micBuf s; imuBuf := aset (imuBuf s) (imuIdx s) v;
     micIdx := micIdx s; imuIdx := Z.rem (imuIdx s + 1) BUF_SIZE |}.

Definition getCorrelation (s : t) : F :=
  let '(sumMic, sumIMU) :=
    fold_left (fun '(sumMic, sumIMU) i =>
      (sumMic +. micBuf s @@ i, sumIMU +. imuBuf s @@ i))
      (range 0 BUF_SIZE) (of_Z 0, of_Z 0) in
  let meanMic := sumMic /. of_Z BUF_SIZE in
  let meanIMU := sumIMU /. of_Z BUF_SIZE in
  let '(num, denMic, denIMU) :=
    fold_left (fun '(num, denMic, denIMU) i =>
      let dm := micBuf s @@ i -. meanMic in
      let di := imuBuf s @@ i -. meanIMU in
      (num +. dm *. di, denMic +. dm *. dm, denIMU +. di *. di))
      (range 0 BUF_SIZE) (of_Z 0, of_Z 0, of_Z 0) in
  let den := fsqrt (denMic *. denIMU) in
  if den <. lit 1 10000 then of_Z 0 else num /. den.

Definition getConfidenceMultiplier (s : t) : F :=
  let corr := getCorrelation s in
  if corr >. lit 7 10 then lit 13 10
  else if corr >. lit 5 10 then lit 115 100
  else if corr >. lit 3 10 then of_Z 1
  else if corr >. of_Z 0 then lit 9 10
  else lit 7 10.

End Defs.
Arguments t F : clear implicits.
End CrossCorrelator.

(** ** OnsetDetector *)

Module OnsetDetector.
Section Defs.
Context {F : Type} {ops : FloatOps F}.

Definition MAX_BINS : Z := 256.

Record t : Type := Build {
  prevMag : list F;
  nBins : Z;
  avgFlux : F;
  engaged : bool;
  engageTime : Z       (* unsigned long *)
}.

Definition initial : t :=
  {| prevMag := replicate (Z.to_nat MAX_BINS) (of_Z 0); nBins := 128;
     avgFlux := of_Z 0; engaged := false; engageTime := 0 |}.

Definition init (s : t) (numBins : Z) : t :=
  let nBins1 := Z.min numBins MAX_BINS in
  {| prevMag := fold_left (fun pm i => aset pm i (of_Z 0)) (range 0 nBins1) (prevMag s);
     nBins := nBins1; avgFlux := avgFlux s; engaged := false; engageTime := 0 |}.

(** [millis] is the value [millis()] returns if it is called.  Returns the
    new state and the flux. *)
Definition update (s : t) (magnitudes : list F) (millis : Z) : t * F :=
  let '(flux, prevMag1) :=
    fold_left (fun '(flux, pm) i =>
      let diff := magnitudes @@ i -. pm @@ i in
      (if diff >. of_Z 0 then flux +. diff else flux, aset pm i (magnitudes @@ i)))
      (range 1 (nBins s)) (of_Z 0, prevMag s) in
  let threshold := avgFlux s *. of_Z 3 +. of_Z 100 in
  let '(engaged1, engageTime1) :=
    if (flux >. threshold) && negb (engaged s) then (true, millis)
    else if (flux <. avgFlux s *. lit 5 10) && engaged s then (false, engageTime s)
    else (engaged s, engageTime s) in
  ({| prevMag := prevMag1; nBins := nBins s;
      avgFlux := avgFlux s *. lit 95 100 +. flux *. lit 5 100;
      engaged := engaged1; engageTime := engageTime1 |}, flux).

Definition isEngaged (s : t) : bool := engaged s.
Definition getEngageTime (s : t) : Z := engageTime s.

Definition inChatterWindow (s : t) (millis : Z) : bool :=
  if negb (engaged s) then false
  else
    let dt := (millis - engageTime s) mod 2 ^ 32 in
    (100 <? dt) && (dt <? 5000).

End Defs.
Arguments t F : clear implicits.
End OnsetDetector.

(** ** SpectralShape *)

Module SpectralShape.
Section Defs.
Context {F : Type} {ops : FloatOps F} {lm : Libm F}.

Record t : Type := Build {
  centroid : F;
  spread : F
}.

Definition initial : t := {| centroid := of_Z 0; spread := of_Z 10000 |}.

Definition analyze (s : t) (magnitudes : list F) (size : Z) (binWidth : F) : t :=
  let '(totalEnergy, weightedSum) :=
    fold_left (fun '(totalEnergy, weightedSum) i =>
      let freq := of_Z i *. binWidth in
      let energy := magnitudes @@ i *. magnitudes @@ i in
      (totalEnergy +. energy, weightedSum +. freq *. energy))
      (range 1 (Z.quot size 2)) (of_Z 0, of_Z 0) in
  if totalEnergy <. of_Z 1 then {| centroid := of_Z 0; spread := of_Z 10000 |}
  else
    let centroid1 := weightedSum /. totalEnergy in
    let varSum :=
      fold_left (fun varSum i =>
        let freq := of_Z i *. binWidth in
        let energy := magnitudes @@ i *. magnitudes @@ i in
        let diff := freq -. centroid1 in
        varSum +. diff *. diff *. energy)
        (range 1 (Z.quot size 2)) (of_Z 0) in
    {| centroid := centroid1; spread := fsqrt (varSum /. totalEnergy) |}.

Definition getCentroid (s : t) : F := centroid s.
Definition getSpread (s : t) : F := spread s.

Definition getNarrowScore (s : t) : F :=
  if spread s <. of_Z 200 then of_Z 1
  else if spread s <. of_Z 500 then lit 8 10
  else if spread s <. of_Z 1000 then lit 5 10
  else lit 2 10.

End Defs.
Arguments t F : clear implicits.
End SpectralShape.

(** ** FrequencyTracker *)

Module FrequencyTracker.
Section Defs.
Context {F : Type} {ops : FloatOps F} {lm : Libm F}.

Definition HISTORY_SIZE : Z := 50.

Record t : Type := Build {
  freqHistory : list F;
  ampHistory : list F;
  histIdx : Z;
  count : Z
}.

Definition initial : t :=
  {| freqHistory := replicate (Z.to_nat HISTORY_SIZE) (of_Z 0);
     ampHistory := replicate (Z.to_nat HISTORY_SIZE) (of_Z 0);
     histIdx := 0; count := 0 |}.

Definition push (s : t) (frequency amplitude : F) : t :=
  {| freqHistory := aset (freqHistory s) (histIdx s) frequency;
     ampHistory := aset (ampHistory s) (histIdx s) amplitude;
     histIdx := Z.rem (histIdx s + 1) HISTORY_SIZE;
     count := if count s <? HISTORY_SIZE then count s + 1 else count s |}.

Definition getFrequencyStability (s : t) : F :=
  if count s <? 10 then of_Z 0
  else
    let '(sum, sumSq) :=
      fold_left (fun '(sum, sumSq) i =>
        (sum +. freqHistory s @@ i,
         sumSq +. freqHistory s @@ i *. freqHistory s @@ i))
        (range 0 (count s)) (of_Z 0, of_Z 0) in
    let mean := sum /. of_Z (count s) in
    let variance := (sumSq /. of_Z (count s)) -. (mean *. mean) in
    let stdDev := fsqrt (fmax (of_Z 0) variance) in
    let cv := if mean >. of_Z 100 then stdDev /. mean else of_Z 1 in
    if cv <. lit 5 100 then of_Z 1
    else if cv <. lit 10 100 then lit 8 10
    else if cv <. lit 20 100 then lit 5 10
    else lit 2 10.

Definition isAmplitudeGrowing (s : t) : bool :=
  if count s <? 20 then false
  else
    let halfCount := Z.quot (count s) 2 in
    let '(oldAvg, newAvg) :=
      fold_left (fun '(oldAvg, newAvg) i =>
        let oldIdx := Z.rem (histIdx s - count s + i + HISTORY_SIZE) HISTORY_SIZE in
        let newIdx := Z.rem (histIdx s - halfCount + i + HISTORY_SIZE) HISTORY_SIZE in
        (oldAvg +. ampHistory s @@ oldIdx, newAvg +. ampHistory s @@ newIdx))
        (range 0 halfCount) (of_Z 0, of_Z 0) in
    let oldAvg1 := oldAvg /. of_Z halfCount in
    let newAvg1 := newAvg /. of_Z halfCount in
    newAvg1 >. oldAvg1 *. lit 13 10.

End Defs.
Arguments t F : clear implicits.
End FrequencyTracker.

(** ** StallGuardAnalyzer *)

Module StallGuardAnalyzer.
Section Defs.
Context {F : Type} {ops : FloatOps F}.

Definition SG_BUFFER_SIZE : Z := 32.

(** The three per-axis arrays are lists of length 3; the readings are
    [uint16_t]. *)
Record t : Type := Build {
  sgBuffer : list (list Z);
  sgIdx : list Z;
  sgCount : list Z
}.

Definition initial : t :=
  {| sgBuffer := replicate 3 (replicate (Z.to_nat SG_BUFFER_SIZE) 0);
     sgIdx := replicate 3 0; sgCount := replicate 3 0 |}.

Definition zget (a : list Z) (i : Z) : Z :=
  if i <? 0 then 0 else default 0 (a !! Z.to_nat i).
Definition row (a : list (list Z)) (i : Z) : list Z :=
  if i <? 0 then [] else default [] (a !! Z.to_nat i).

Definition pushSG (s : t) (axis : Z) (sgValue : Z) : t :=
  if (0 <=? axis) && (axis <? 3) then
    let i := zget (sgIdx s) axis in
    let c := zget (sgCount s) axis in
    {| sgBuffer := aset (sgBuffer s) axis (aset (row (sgBuffer s) axis) i sgValue);
       sgIdx := aset (sgIdx s) axis (Z.rem (i + 1) SG_BUFFER_SIZE);
       sgCount := aset (sgCount s) axis (if c <? SG_BUFFER_SIZE then c + 1 else c) |}
  else s.

Definition getOscillationScore (s : t) (axis : Z) : F :=
  if (axis <? 0) || (axis >=? 3) || (zget (sgCount s) axis <? 10) then of_Z 0
  else
    let cnt := zget (sgCount s) axis in
    let '(crossings, lastSign) :=
      fold_left (fun '(crossings, lastSign) i =>
        let idx := Z.rem (zget (sgIdx s) axis - cnt + i + SG_BUFFER_SIZE) SG_BUFFER_SIZE in
        let prevIdx := Z.rem (idx - 1 + SG_BUFFER_SIZE) SG_BUFFER_SIZE in
        let diff := zget (row (sgBuffer s) axis) idx - zget (row (sgBuffer s) axis) prevIdx in
        let sign := if 5 <? diff then 1 else if diff <? -5 then -1 else 0 in
        (if negb (sign =? 0) && negb (sign =? lastSign) && negb (lastSign =? 0)
         then crossings + 1 else crossings,
         if negb (sign =? 0) then sign else lastSign))
        (range 1 cnt) (0, 0) in
    let rate := of_Z crossings /. of_Z cnt in
    if rate >. dlit 3 10 then of_Z 1
    else if rate >. dlit 2 10 then lit 7 10
    else if rate >. dlit 1 10 then lit 4 10
    else lit 1 10.

Definition getCombinedScore (s : t) : F :=
  fold_left (fun maxScore i =>
    let sc := getOscillationScore s i in
    if sc >. maxScore then sc else maxScore) (range 0 3) (of_Z 0).

Definition hasData (s : t) : bool :=
  (10 <? zget (sgCount s) 0) || (10 <? zget (sgCount s) 1) || (10 <? zget (sgCount s) 2).

End Defs.
End StallGuardAnalyzer.

(** ** AdvancedDSP: the fusion engine *)

Module AdvancedDSP.
Section Defs.
Context {F : Type} {ops : FloatOps F} {lm : Libm F}.

Record AdvancedResult : Type := BuildResult {
  chatterScore : F;
  confidence : F;
  dominantFreq : F;
  harmonicStrength : F;
  stabilityLobeMatch : F;
  spectralNarrowness : F;
  freqStability : F;
  sensorAgreement : F;
  isEngaged : bool;
  isGrowing : bool;
  stallGuardScore : F
}.

(** [AdvancedResult r = {0}] *)
Definition zeroResult : AdvancedResult :=
  {| chatterScore := of_Z 0; confidence := of_Z 0; dominantFreq := of_Z 0;
     harmonicStrength := of_Z 0; stabilityLobeMatch := of_Z 0;
     spectralNarrowness := of_Z 0; freqStability := of_Z 0;
     sensorAgreement := of_Z 0; isEngaged := false; isGrowing := false;
     stallGuardScore := of_Z 0 |}.

Record t : Type := Build {
  stabilityLobe : StabilityLobePredictor.t F;
  crestAnalyzer : CrestFactorAnalyzer.t F;
  crossCorr : CrossCorrelator.t F;
  onsetDetector : OnsetDetector.t F;
  spectralShape : SpectralShape.t F;
  freqTracker : FrequencyTracker.t F;
  stallGuard : StallGuardAnalyzer.t;
  binWidth : F
}.

Definition initial : t :=
  {| stabilityLobe := StabilityLobePredictor.initial;
     crestAnalyzer := CrestFactorAnalyzer.initial;
     crossCorr := CrossCorrelator.initial;
     onsetDetector := OnsetDetector.initial;
     spectralShape := SpectralShape.initial;
     freqTracker := FrequencyTracker.initial;
     stallGuard := StallGuardAnalyzer.initial;
     binWidth := lit 15625 1000 |}.

Definition init (s : t) (sampleRate : F) (fftSize : Z) : t :=
  {| stabilityLobe := stabilityLobe s;
     crestAnalyzer := crestAnalyzer s;
     crossCorr := crossCorr s;
     onsetDetector := OnsetDetector.init (onsetDetector s) (Z.quot fftSize 4);
     spectralShape := spectralShape s;
     freqTracker := freqTracker s;
     stallGuard := stallGuard s;
     binWidth := sampleRate /. of_Z fftSize |}.

(** The weighted fusion (the block "WEIGHTED FUSION" of [analyze]): the
    value stored in [r.chatterScore]. *)
Definition fuse (harmonicStrength spectralNarrowness freqStability
                 stabilityLobeMatch stallGuardScore crestScore toothPassFreq : F)
                (hasData : bool) : F :=
  let score := of_Z 0 in
  let weights := of_Z 0 in
  let score := score +. harmonicStrength *. of_Z 30 in
  let weights := weights +. of_Z 30 in
  let score := score +. spectralNarrowness *. of_Z 20 in
  let weights := weights +. of_Z 20 in
  let score := score +. freqStability *. of_Z 15 in
  let weights := weights +. of_Z 15 in
  let '(score, weights) :=
    if toothPassFreq >. of_Z 10
    then (score +. stabilityLobeMatch *. of_Z 20, weights +. of_Z 20)
    else (score, weights) in
  let '(score, weights) :=
    if hasData
    then (score +. stallGuardScore *. of_Z 25, weights +. of_Z 25)
    else (score, weights) in
  let score := score +. crestScore *. of_Z 10 in
  let weights := weights +. of_Z 10 in
  if weights >. of_Z 0 then (score /. weights) *. of_Z 100 else of_Z 0.

(** [millis] is the value a call of [millis()] returns during this call. *)
Definition analyze (s : t) (fftMagnitudes : list F) (fftSize : Z)
    (vibMagnitude micRMS : F) (millis : Z) : t * AdvancedResult :=
  let crossCorr1 := CrossCorrelator.pushIMU (CrossCorrelator.pushMic (crossCorr s) micRMS) vibMagnitude in
  let crestAnalyzer1 := CrestFactorAnalyzer.push (crestAnalyzer s) micRMS in
  let spectralShape1 := SpectralShape.analyze (spectralShape s) fftMagnitudes fftSize (binWidth s) in
  let onsetDetector1 := fst (OnsetDetector.update (onsetDetector s) fftMagnitudes millis) in
  let '(r_harmonicStrength, fundamental) :=
    HarmonicDetector.analyze fftMagnitudes fftSize (binWidth s) in
  let r_dominantFreq := fundamental in
  let peakMag :=
    fold_left (fun peakMag i =>
      if fftMagnitudes @@ i >. peakMag then fftMagnitudes @@ i else peakMag)
      (range 1 (Z.quot fftSize 2)) (of_Z 0) in
  let freqTracker1 := FrequencyTracker.push (freqTracker s) fundamental peakMag in
  let r_stabilityLobeMatch := StabilityLobePredictor.scoreFrequency (stabilityLobe s) fundamental in
  let r_spectralNarrowness := SpectralShape.getNarrowScore spectralShape1 in
  let r_freqStability := FrequencyTracker.getFrequencyStability freqTracker1 in
  let r_sensorAgreement := CrossCorrelator.getCorrelation crossCorr1 in
  let r_isEngaged := OnsetDetector.isEngaged onsetDetector1 in
  let r_isGrowing := FrequencyTracker.isAmplitudeGrowing freqTracker1 in
  let r_stallGuardScore := StallGuardAnalyzer.getCombinedScore (stallGuard s) in
  let r_chatterScore :=
    fuse r_harmonicStrength r_spectralNarrowness r_freqStability
         r_stabilityLobeMatch r_stallGuardScore
         (CrestFactorAnalyzer.getChatterScore crestAnalyzer1)
         (StabilityLobePredictor.getToothPassFreq (stabilityLobe s))
         (StallGuardAnalyzer.hasData (stallGuard s)) in
  let c := of_Z 50 in
  let c := c +. CrossCorrelator.getConfidenceMultiplier crossCorr1 *. of_Z 10 in
  let c := if r_harmonicStrength >. lit 5 10 then c +. of_Z 15 else c in
  let c := if r_freqStability >. lit 7 10 then c +. of_Z 10 else c in
  let c := if r_isGrowing && (r_chatterScore >. of_Z 50) then c +. of_Z 10 else c in
  let c := if StallGuardAnalyzer.hasData (stallGuard s) then c +. of_Z 10 else c in
  ({| stabilityLobe := stabilityLobe s;
      crestAnalyzer := crestAnalyzer1;
      crossCorr := crossCorr1;
      onsetDetector := onsetDetector1;
      spectralShape := spectralShape1;
      freqTracker := freqTracker1;
      stallGuard := stallGuard s;
      binWidth := binWidth s |},
   {| chatterScore := r_chatterScore;
      confidence := fmin (of_Z 100) c;
      dominantFreq := r_dominantFreq;
      harmonicStrength := r_harmonicStrength;
      stabilityLobeMatch := r_stabilityLobeMatch;
      spectralNarrowness := r_spectralNarrowness;
      freqStability := r_freqStability;
      sensorAgreement := r_sensorAgreement;
      isEngaged := r_isEngaged;
      isGrowing := r_isGrowing;
      stallGuardScore := r_stallGuardScore |}).

Definition setToolParams (s : t) (teeth : Z) (diameter : F) : t :=
  {| stabilityLobe := StabilityLobePredictor.setToolParams (stabilityLobe s) teeth diameter (of_Z 800);
     crestAnalyzer := crestAnalyzer s; crossCorr := crossCorr s;
     onsetDetector := onsetDetector s; spectralShape := spectralShape s;
     freqTracker := freqTracker s; stallGuard := stallGuard s;
     binWidth := binWidth s |}.

Definition setSpindleRPM (s : t) (rpm : F) : t :=
  {| stabilityLobe := StabilityLobePredictor.setSpindleRPM (stabilityLobe s) rpm;
     crestAnalyzer := crestAnalyzer s; crossCorr := crossCorr s;
     onsetDetector := onsetDetector s; spectralShape := spectralShape s;
     freqTracker := freqTracker s; stallGuard := stallGuard s;
     binWidth := binWidth s |}.

Definition pushStallGuard (s : t) (axis sg : Z) : t :=
  {| stabilityLobe := stabilityLobe s;
     crestAnalyzer := crestAnalyzer s; crossCorr := crossCorr s;
     onsetDetector := onsetDetector s; spectralShape := spectralShape s;
     freqTracker := freqTracker s;
     stallGuard := StallGuardAnalyzer.pushSG (stallGuard s) axis sg;
     binWidth := binWidth s |}.

End Defs.
Arguments t F : clear implicits.
Arguments AdvancedResult F : clear implicits.
End AdvancedDSP.

(** * adaptive_chatter.h *)

(** ** FrequencyBandAnalyzer *)

Module FrequencyBandAnalyzer.
Section Defs.
Context {F : Type} {ops : FloatOps F} {lm : Libm F}.

Definition NUM_BANDS : Z := 16.
Definition MIN_CALIBRATION_SAMPLES : Z := 100.
Definition ANOMALY_THRESHOLD : F := of_Z 3.

Record Band : Type := BuildBand {
  centerFreq : F;
  energy : F;
  baseline : RunningStats.t F;
  zScore : F;
  isAnomaly : bool
}.

Record t : Type := Build {
  bands : list Band;
  binWidth : F;
  calibrated : bool;
  calibrationSamples : Z
}.

Definition init (sampleRate : F) (fftSize : Z) : t :=
  let minFreq := of_Z 100 in
  let maxFreq := of_Z 8000 in
  let logMin := flog10 minFreq in
  let logMax := flog10 maxFreq in
  let logStep := (logMax -. logMin) /. of_Z NUM_BANDS in
  {| bands :=
       map (fun i =>
         {| centerFreq := fpow (of_Z 10) (logMin +. (of_Z i +. lit 5 10) *. logStep);
            energy := of_Z 0;
            baseline := RunningStats.clear;
            zScore := of_Z 0;
            isAnomaly := false |}) (range 0 NUM_BANDS);
     binWidth := sampleRate /. of_Z fftSize;
     calibrated := false;
     calibrationSamples := 0 |}.

Definition analyzeBand (s : t) (magnitudes : list F) (size : Z) (b : Band) : Band :=
  let lowFreq := centerFreq b /. fsqrt (of_Z 2) in
  let highFreq := centerFreq b *. fsqrt (of_Z 2) in
  let lowBin := Z.max 1 (to_int (lowFreq /. binWidth s)) in
  let highBin := Z.min (Z.quot size 2 - 1) (to_int (highFreq /. binWidth s)) in
  let energy0 :=
    fold_left (fun energy i => energy +. magnitudes @@ i *. magnitudes @@ i)
      (range lowBin (highBin + 1)) (of_Z 0) in
  let energy1 := fsqrt energy0 in
  if calibrated s && (RunningStats.getStdDev (baseline b) >. of_Z 0) then
    let z := (energy1 -. RunningStats.getMean (baseline b))
             /. RunningStats.getStdDev (baseline b) in
    {| centerFreq := centerFreq b; energy := energy1; baseline := baseline b;
       zScore := z; isAnomaly := z >. ANOMALY_THRESHOLD |}
  else
    {| centerFreq := centerFreq b; energy := energy1; baseline := baseline b;
       zScore := zScore b; isAnomaly := isAnomaly b |}.

Definition analyze (s : t) (magnitudes : list F) (size : Z) : t :=
  {| bands := map (analyzeBand s magnitudes size) (bands s);
     binWidth := binWidth s; calibrated := calibrated s;
     calibrationSamples := calibrationSamples s |}.

Definition updateBaseline (s : t) : t :=
  let samples1 := calibrationSamples s + 1 in
  {| bands :=
       map (fun b =>
         {| centerFreq := centerFreq b; energy := energy b;
            baseline := RunningStats.push (baseline b) (energy b);
            zScore := zScore b; isAnomaly := isAnomaly b |}) (bands s);
     binWidth := binWidth s;
     calibrated := if samples1 >=? MIN_CALIBRATION_SAMPLES then true else calibrated s;
     calibrationSamples := samples1 |}.

Definition getAnomalyScore (s : t) : F :=
  if negb (calibrated s) then of_Z 0
  else
    let '(maxZ, anomalyCount) :=
      fold_left (fun '(maxZ, anomalyCount) b =>
        (if zScore b >. maxZ then zScore b else maxZ,
         if isAnomaly b then anomalyCount + 1 else anomalyCount))
        (bands s) (of_Z 0, 0) in
    fmin (of_Z 100) (maxZ *. of_Z 10 +. of_Z anomalyCount *. of_Z 5).

Definition getDominantAnomalyFreq (s : t) : F :=
  snd (fold_left (fun '(maxZ, freq) b =>
         if zScore b >. maxZ then (zScore b, centerFreq b) else (maxZ, freq))
         (bands s) (of_Z 0, of_Z 0)).

Definition isCalibrated (s : t) : bool := calibrated s.

Definition getCalibrationProgress (s : t) : Z :=
  Z.min 100 (Z.quot (calibrationSamples s * 100) MIN_CALIBRATION_SAMPLES).

End Defs.
Arguments t F : clear implicits.
Arguments Band F : clear implicits.
End FrequencyBandAnalyzer.

(** ** ChatterEvent and the flash store *)

Module ChatterEvent.
Section Defs.
Context {F : Type}.

Record t : Type := Build {
  frequency : F;
  spindleRPM : F;
  feedRate : F;
  severity : F;
  feedReduction : F;
  resolved : bool;
  timestamp : Z         (* uint32_t *)
}.

End Defs.
Arguments t F : clear implicits.
End ChatterEvent.

Section Flash.
Context {F : Type}.

(** [sizeof(ChatterEvent)] and [sizeof(chatterFreqHistogram)] on the
    target: five [float]s, a [bool] padded to four bytes, a [uint32_t];
    one hundred [uint16_t]. *)
Definition sizeof_ChatterEvent : Z := 28.
Definition sizeof_histogram : Z := 200.

(** [Preferences] (the NVS key/value store).  [putBytes] copies the bytes
    of an object into the store and [getBytes] copies them back; the bytes
    are kept as the image of the object they were copied from, with its
    size. *)
Inductive blob : Type :=
| HistogramImage (h : list Z)
| EventImage (e : ChatterEvent.t F).

Definition blob_size (b : blob) : Z :=
  match b with
  | HistogramImage _ => sizeof_histogram
  | EventImage _ => sizeof_ChatterEvent
  end.

Inductive nvs_entry : Type :=
| NvsInt (v : Z)
| NvsBlob (b : blob).

Definition putBytes (key : string) (b : blob) (p : gmap string nvs_entry) :
    gmap string nvs_entry := <[key := NvsBlob b]> p.

Definition putInt (key : string) (v : Z) (p : gmap string nvs_entry) :
    gmap string nvs_entry := <[key := NvsInt v]> p.

Definition getInt (key : string) (defaultValue : Z) (p : gmap string nvs_entry) : Z :=
  match p !! key with
  | Some (NvsInt v) => v
  | _ => defaultValue
  end.

(** [getBytes(key, buf, maxLen)]: the stored image when there is one and
    it fits in [maxLen] bytes (the call then returns its size); [None]
    when the call returns 0 and leaves [buf] alone. *)
Definition getBytes (key : string) (maxLen : Z) (p : gmap string nvs_entry) : option blob :=
  match p !! key with
  | Some (NvsBlob b) => if blob_size b <=? maxLen then Some b else None
  | _ => None
  end.

(** ["evt" + String(i)] *)
Definition evt_key (i : Z) : string := "evt" +:+ pretty i.

End Flash.
Arguments blob F : clear implicits.
Arguments nvs_entry F : clear implicits.

(** ** ChatterMemory *)

Module ChatterMemory.
Import ChatterEvent.
Section Defs.
Context {F : Type} {ops : FloatOps F} {lm : Libm F}.

Definition MAX_EVENTS : Z := 50.

Record t : Type := Build {
  prefs : gmap string (nvs_entry F);
  events : list (ChatterEvent.t F);
  chatterFreqHistogram : list Z      (* uint16_t [100] *)
}.

(** A [ChatterMemory] object before [init]: no events, a zeroed histogram,
    over the flash contents [p]. *)
Definition initial (p : gmap string (nvs_entry F)) : t :=
  {| prefs := p; events := []; chatterFreqHistogram := replicate 100 0 |}.

Definition size (m : t) : Z := Z.of_nat (length (events m)).

Definition saveToFlash (m : t) : t :=
  let p1 := putBytes "histogram" (HistogramImage (chatterFreqHistogram m)) (prefs m) in
  let p2 := putInt "eventCount" (size m) p1 in
  let p3 :=
    fold_left (fun p i =>
      match events m !! Z.to_nat (size m - 1 - i) with
      | Some e => putBytes (evt_key i) (EventImage e) p
      | None => p
      end) (range 0 (Z.min 10 (size m))) p2 in
  {| prefs := p3; events := events m; chatterFreqHistogram := chatterFreqHistogram m |}.

(** [count - 1] is an [int]: see [int_pred]. *)
Definition loadFromFlash (m : t) : t :=
  let histogram1 :=
    match getBytes "histogram" sizeof_histogram (prefs m) with
    | Some (HistogramImage h) => h
    | _ => chatterFreqHistogram m
    end in
  let count := getInt "eventCount" 0 (prefs m) in
  let events1 :=
    fold_left (fun evs i =>
      match getBytes (evt_key i) sizeof_ChatterEvent (prefs m) with
      | Some (EventImage e) => evs ++ [e]
      | _ => evs
      end) (reverse (range 0 (Z.min 9 (int_pred count) + 1))) [] in
  {| prefs := prefs m; events := events1; chatterFreqHistogram := histogram1 |}.

Definition init (m : t) : t := loadFromFlash m.

(** [histogram[bin] += k] on [uint16_t]. *)
Definition bump (h : list Z) (bin k : Z) : list Z :=
  alter (fun c => (c + k) mod 2 ^ 16) (Z.to_nat bin) h.

Definition recordEvent (m : t) (event : ChatterEvent.t F) : t :=
  let events1 := events m ++ [event] in
  let events2 :=
    if MAX_EVENTS <? Z.of_nat (length events1) then tail events1 else events1 in
  let freqBin := to_int (frequency event /. of_Z 100) in
  let histogram1 :=
    if (0 <=? freqBin) && (freqBin <? 100)
    then bump (chatterFreqHistogram m) freqBin 1
    else chatterFreqHistogram m in
  saveToFlash {| prefs := prefs m; events := events2; chatterFreqHistogram := histogram1 |}.

(** A sequence of [recordEvent] calls. *)
Definition recordEvents (m : t) (es : list (ChatterEvent.t F)) : t :=
  fold_left recordEvent es m.

Definition learnSuccess (h : list Z) (e : ChatterEvent.t F) : list Z :=
  let bin := to_int (frequency e /. of_Z 100) in
  if (0 <=? bin) && (bin <? 100) then bump h bin 2 else h.

Definition markResolved (m : t) (reduction : F) : t :=
  match last (events m) with
  | None => m
  | Some back =>
      let back1 :=
        {| frequency := frequency back; spindleRPM := spindleRPM back;
           feedRate := feedRate back; severity := severity back;
           feedReduction := reduction; resolved := true;
           timestamp := timestamp back |} in
      saveToFlash
        {| prefs := prefs m;
           events := removelast (events m) ++ [back1];
           chatterFreqHistogram := learnSuccess (chatterFreqHistogram m) back1 |}
  end.

(** The total weight is a [float] and the cut-off [0.1] a [double]
    literal. *)
Definition predictFeedReduction (m : t) (frequency0 spindleRPM0 : F) : F :=
  let '(totalWeight, weightedReduction) :=
    fold_left (fun '(totalWeight, weightedReduction) e =>
      if negb (resolved e) then (totalWeight, weightedReduction)
      else
        let freqDiff := fabs (frequency e -. frequency0) /. of_Z 500 in
        let rpmDiff := fabs (spindleRPM e -. spindleRPM0) /. of_Z 3000 in
        let weight := fexp (fneg (freqDiff +. rpmDiff)) in
        (totalWeight +. weight, weightedReduction +. weight *. feedReduction e))
      (events m) (of_Z 0, of_Z 0) in
  if totalWeight >. dlit 1 10 then weightedReduction /. totalWeight
  else of_Z 20.

(** Returns [(lowHz, highHz)]. *)
Definition getPredictedChatterRange (m : t) (spindleRPM0 : F) : F * F :=
  let '(maxCount, peakBin) :=
    fold_left (fun '(maxCount, peakBin) i =>
      let c := default 0 (chatterFreqHistogram m !! Z.to_nat i) in
      if of_Z c >. maxCount then (of_Z c, i) else (maxCount, peakBin))
      (range 5 80) (of_Z 0, 20) in
  (fmax (of_Z 500) (of_Z (peakBin - 5) *. of_Z 100),
   fmin (of_Z 8000) (of_Z (peakBin + 5) *. of_Z 100)).

Definition getEventCount (m : t) : Z := size m.
Definition getResolvedCount (m : t) : Z :=
  Z.of_nat (length (filter (fun e => resolved e = true) (events m))).

End Defs.
Arguments t F : clear implicits.
End ChatterMemory.

(** ** VibrationTracker *)

Module VibrationTracker.
Section Defs.
Context {F : Type} {ops : FloatOps F} {lm : Libm F}.

Record t : Type := Build {
  baseline : RunningStats.t F;
  recent : RunningStats.t F
}.

Definition init : t :=
  {| baseline := RunningStats.clear; recent := RunningStats.clear |}.

Definition push (s : t) (vibMagnitude : F) (isCalibrating : bool) : t :=
  {| baseline := if isCalibrating then RunningStats.push (baseline s) vibMagnitude
                 else baseline s;
     recent := RunningStats.push (recent s) vibMagnitude |}.

Definition getZScore (s : t) : F :=
  if RunningStats.getStdDev (baseline s) <. lit 1 1000 then of_Z 0
  else (RunningStats.getMean (recent s) -. RunningStats.getMean (baseline s))
       /. RunningStats.getStdDev (baseline s).

Definition getAnomalyScore (s : t) : F :=
  let z := getZScore s in
  fmin (of_Z 100) (fmax (of_Z 0) ((z -. of_Z 1) *. of_Z 25)).

Definition isCalibrated (s : t) : bool := RunningStats.getCount (baseline s) >=? 50.

End Defs.
Arguments t F : clear implicits.
End VibrationTracker.

(** ** AdaptiveChatterDetector *)

Module AdaptiveChatterDetector.

Inductive State : Type := CALIBRATING | MONITORING | WARNING | CHATTER | RECOVERING.

#[global] Instance State_eq_dec : EqDecision State.
Proof. solve_decision. Defined.

Section Defs.
Context {F : Type} {ops : FloatOps F} {lm : Libm F}.

Record Status : Type := BuildStatus {
  st_state : State;
  st_score : F;
  st_confidence : F;
  st_dominantFreq : F;
  st_vibrationG : F;
  st_suggestedFeedPct : F;
  st_learned : bool;
  st_calibrationPct : Z;
  st_learnedEvents : Z;
  st_harmonicStrength : F;
  st_stabilityMatch : F;
  st_sensorAgreement : F;
  st_stallGuardScore : F;
  st_isEngaged : bool;
  st_isGrowing : bool
}.

Record t : Type := Build {
  freqAnalyzer : FrequencyBandAnalyzer.t F;
  vibTracker : VibrationTracker.t F;
  memory : ChatterMemory.t F;
  advancedDSP : AdvancedDSP.t F;
  lastAdvResult : AdvancedDSP.AdvancedResult F;
  sampleRate : F;
  fftSize : Z;
  currentState : State;
  smoothedScore : F;
  spindleRPM : F;
  feedRate : F;
  suggestedFeed : F;
  interventionFeed : F;
  usingLearnedData : bool;
  lastChatterTime : Z      (* unsigned long *)
}.

(** Field updates, as the assignments of the source. *)
Definition set_state (d : t) (s : State) : t :=
  {| freqAnalyzer := freqAnalyzer d; vibTracker := vibTracker d; memory := memory d;
     advancedDSP := advancedDSP d; lastAdvResult := lastAdvResult d;
     sampleRate := sampleRate d; fftSize := fftSize d; currentState := s;
     smoothedScore := smoothedScore d; spindleRPM := spindleRPM d;
     feedRate := feedRate d; suggestedFeed := suggestedFeed d;
     interventionFeed := interventionFeed d; usingLearnedData := usingLearnedData d;
     lastChatterTime := lastChatterTime d |}.

Definition set_lastChatterTime (d : t) (now : Z) : t :=
  {| freqAnalyzer := freqAnalyzer d; vibTracker := vibTracker d; memory := memory d;
     advancedDSP := advancedDSP d; lastAdvResult := lastAdvResult d;
     sampleRate := sampleRate d; fftSize := fftSize d; currentState := currentState d;
     smoothedScore := smoothedScore d; spindleRPM := spindleRPM d;
     feedRate := feedRate d; suggestedFeed := suggestedFeed d;
     interventionFeed := interventionFeed d; usingLearnedData := usingLearnedData d;
     lastChatterTime := now |}.

Definition set_memory (d : t) (m : ChatterMemory.t F) : t :=
  {| freqAnalyzer := freqAnalyzer d; vibTracker := vibTracker d; memory := m;
     advancedDSP := advancedDSP d; lastAdvResult := lastAdvResult d;
     sampleRate := sampleRate d; fftSize := fftSize d; currentState := currentState d;
     smoothedScore := smoothedScore d; spindleRPM := spindleRPM d;
     feedRate := feedRate d; suggestedFeed := suggestedFeed d;
     interventionFeed := interventionFeed d; usingLearnedData := usingLearnedData d;
     lastChatterTime := lastChatterTime d |}.

Definition set_suggestedFeed (d : t) (f : F) : t :=
  {| freqAnalyzer := freqAnalyzer d; vibTracker := vibTracker d; memory := memory d;
     advancedDSP := advancedDSP d; lastAdvResult := lastAdvResult d;
     sampleRate := sampleRate d; fftSize := fftSize d; currentState := currentState d;
     smoothedScore := smoothedScore d; spindleRPM := spindleRPM d;
     feedRate := feedRate d; suggestedFeed := f;
     interventionFeed := interventionFeed d; usingLearnedData := usingLearnedData d;
     lastChatterTime := lastChatterTime d |}.

Definition set_interventionFeed (d : t) (f : F) : t :=
  {| freqAnalyzer := freqAnalyzer d; vibTracker := vibTracker d; memory := memory d;
     advancedDSP := advancedDSP d; lastAdvResult := lastAdvResult d;
     sampleRate := sampleRate d; fftSize := fftSize d; currentState := currentState d;
     smoothedScore := smoothedScore d; spindleRPM := spindleRPM d;
     feedRate := feedRate d; suggestedFeed := suggestedFeed d;
     interventionFeed := f; usingLearnedData := usingLearnedData d;
     lastChatterTime := lastChatterTime d |}.

(** The detector object before [init], over the flash contents [p].  It is
    a global object: zero-initialised, then given the default member
    initialisers of its classes. *)
Definition initial (p : gmap string (nvs_entry F)) : t :=
  {| freqAnalyzer :=
       {| FrequencyBandAnalyzer.bands :=
            replicate (Z.to_nat FrequencyBandAnalyzer.NUM_BANDS)
              {| FrequencyBandAnalyzer.centerFreq := of_Z 0;
                 FrequencyBandAnalyzer.energy := of_Z 0;
                 FrequencyBandAnalyzer.baseline := RunningStats.clear;
                 FrequencyBandAnalyzer.zScore := of_Z 0;
                 FrequencyBandAnalyzer.isAnomaly := false |};
          FrequencyBandAnalyzer.binWidth := lit 15625 1000;
          FrequencyBandAnalyzer.calibrated := false;
          FrequencyBandAnalyzer.calibrationSamples := 0 |};
     vibTracker := VibrationTracker.init;
     memory := ChatterMemory.initial p;
     advancedDSP := AdvancedDSP.initial;
     lastAdvResult := AdvancedDSP.zeroResult;
     sampleRate := of_Z 16000; fftSize := 1024; currentState := CALIBRATING;
     smoothedScore := of_Z 0; spindleRPM := of_Z 0; feedRate := of_Z 100;
     suggestedFeed := of_Z 100; interventionFeed := of_Z 100;
     usingLearnedData := false; lastChatterTime := 0 |}.

Definition init (d : t) (sampleRate0 : F) (fftSize0 : Z) : t :=
  {| freqAnalyzer := FrequencyBandAnalyzer.init sampleRate0 fftSize0;
     vibTracker := VibrationTracker.init;
     memory := ChatterMemory.init (memory d);
     advancedDSP := AdvancedDSP.init (advancedDSP d) sampleRate0 fftSize0;
     lastAdvResult := lastAdvResult d;
     sampleRate := sampleRate0; fftSize := fftSize0; currentState := CALIBRATING;
     smoothedScore := smoothedScore d; spindleRPM := of_Z 0; feedRate := of_Z 100;
     suggestedFeed := suggestedFeed d; interventionFeed := of_Z 100;
     usingLearnedData := usingLearnedData d; lastChatterTime := 0 |}.

Definition setFeedRate (d : t) (feed : F) : t :=
  {| freqAnalyzer := freqAnalyzer d; vibTracker := vibTracker d; memory := memory d;
     advancedDSP := advancedDSP d; lastAdvResult := lastAdvResult d;
     sampleRate := sampleRate d; fftSize := fftSize d; currentState := currentState d;
     smoothedScore := smoothedScore d; spindleRPM := spindleRPM d;
     feedRate := feed; suggestedFeed := suggestedFeed d;
     interventionFeed := interventionFeed d; usingLearnedData := usingLearnedData d;
     lastChatterTime := lastChatterTime d |}.

Definition setSpindleRPM (d : t) (rpm : F) : t :=
  {| freqAnalyzer := freqAnalyzer d; vibTracker := vibTracker d; memory := memory d;
     advancedDSP := AdvancedDSP.setSpindleRPM (advancedDSP d) rpm;
     lastAdvResult := lastAdvResult d;
     sampleRate := sampleRate d; fftSize := fftSize d; currentState := currentState d;
     smoothedScore := smoothedScore d; spindleRPM := rpm;
     feedRate := feedRate d; suggestedFeed := suggestedFeed d;
     interventionFeed := interventionFeed d; usingLearnedData := usingLearnedData d;
     lastChatterTime := lastChatterTime d |}.

(** [stamp] is the value of [millis()] at the time of the call. *)
Definition recordChatterEvent (d : t) (freq severity0 : F) (stamp : Z) : t :=
  let e :=
    {| ChatterEvent.frequency := freq;
       ChatterEvent.spindleRPM := spindleRPM d;
       ChatterEvent.feedRate := feedRate d;
       ChatterEvent.severity := severity0;
       ChatterEvent.feedReduction := of_Z 0;
       ChatterEvent.resolved := false;
       ChatterEvent.timestamp := stamp |} in
  set_memory d (ChatterMemory.recordEvent (memory d) e).

(** The event [e] that [recordChatterEvent] builds. *)
Definition chatterEventOf (d : t) (freq severity0 : F) (stamp : Z) : ChatterEvent.t F :=
  {| ChatterEvent.frequency := freq;
     ChatterEvent.spindleRPM := spindleRPM d;
     ChatterEvent.feedRate := feedRate d;
     ChatterEvent.severity := severity0;
     ChatterEvent.feedReduction := of_Z 0;
     ChatterEvent.resolved := false;
     ChatterEvent.timestamp := stamp |}.

Definition confirmChatterResolved (d : t) : t :=
  let reduction := of_Z 100 -. interventionFeed d in
  set_memory d (ChatterMemory.markResolved (memory d) reduction).

(** The state machine.  [now] is the value [millis()] returns at the top
    of the function, [stamp] the value it returns inside
    [recordChatterEvent] when that is called. *)
Definition updateState (d : t) (score dominantFreq : F) (now stamp : Z) : t :=
  match currentState d with
  | MONITORING =>
      if score >. of_Z 70 then
        let d := set_state d CHATTER in
        let d := set_lastChatterTime d now in
        let d := recordChatterEvent d dominantFreq score stamp in
        set_suggestedFeed d
          (ChatterMemory.predictFeedReduction (memory d) dominantFreq (spindleRPM d))
      else if score >. of_Z 40 then set_state d WARNING
      else d
  | WARNING =>
      if score >. of_Z 70 then
        let d := set_state d CHATTER in
        let d := set_lastChatterTime d now in
        let d := recordChatterEvent d dominantFreq score stamp in
        set_suggestedFeed d
          (ChatterMemory.predictFeedReduction (memory d) dominantFreq (spindleRPM d))
      else if score <. of_Z 30 then set_state d MONITORING
      else d
  | CHATTER =>
      let d := set_interventionFeed d (feedRate d) in
      if score <. of_Z 40 then
        let d := set_state d RECOVERING in
        if feedRate d <. of_Z 95 then confirmChatterResolved d else d
      else d
  | RECOVERING =>
      if score >. of_Z 60 then
        let d := set_state d CHATTER in
        set_lastChatterTime d now
      else if (score <. of_Z 25) && (5000 <? (now - lastChatterTime d) mod 2 ^ 32) then
        let d := set_state d MONITORING in
        set_suggestedFeed d (of_Z 100)
      else d
  | CALIBRATING => d
  end.

Definition startCalibration (d : t) : t :=
  {| freqAnalyzer := FrequencyBandAnalyzer.init (of_Z 16000) 1024;
     vibTracker := VibrationTracker.init;
     memory := memory d;
     advancedDSP := advancedDSP d; lastAdvResult := lastAdvResult d;
     sampleRate := sampleRate d; fftSize := fftSize d; currentState := CALIBRATING;
     smoothedScore := smoothedScore d; spindleRPM := spindleRPM d;
     feedRate := feedRate d; suggestedFeed := suggestedFeed d;
     interventionFeed := interventionFeed d; usingLearnedData := usingLearnedData d;
     lastChatterTime := lastChatterTime d |}.

(** The three readings of the clock one [update] call can make: by the
    onset detector, at the top of [updateState], and in
    [recordChatterEvent]. *)
Record Clock : Type := BuildClock { at_onset : Z; at_state : Z; at_event : Z }.

Definition update (d : t) (fftMagnitudes : list F) (fftSize0 : Z)
    (vibMagnitude micRMS : F) (clk : Clock) : t :=
  let freqAnalyzer1 := FrequencyBandAnalyzer.analyze (freqAnalyzer d) fftMagnitudes fftSize0 in
  let isCalibrating := bool_decide (currentState d = CALIBRATING) in
  let vibTracker1 := VibrationTracker.push (vibTracker d) vibMagnitude isCalibrating in
  if isCalibrating then
    let freqAnalyzer2 := FrequencyBandAnalyzer.updateBaseline freqAnalyzer1 in
    {| freqAnalyzer := freqAnalyzer2; vibTracker := vibTracker1; memory := memory d;
       advancedDSP := advancedDSP d; lastAdvResult := lastAdvResult d;
       sampleRate := sampleRate d; fftSize := fftSize d;
       currentState :=
         if FrequencyBandAnalyzer.isCalibrated freqAnalyzer2
            && VibrationTracker.isCalibrated vibTracker1
         then MONITORING else currentState d;
       smoothedScore := smoothedScore d; spindleRPM := spindleRPM d;
       feedRate := feedRate d; suggestedFeed := suggestedFeed d;
       interventionFeed := interventionFeed d; usingLearnedData := usingLearnedData d;
       lastChatterTime := lastChatterTime d |}
  else
    let freqScore := FrequencyBandAnalyzer.getAnomalyScore freqAnalyzer1 in
    let vibScore := VibrationTracker.getAnomalyScore vibTracker1 in
    let baselineScore := freqScore *. lit 5 10 +. vibScore *. lit 3 10 in
    let '(advancedDSP1, adv) :=
      AdvancedDSP.analyze (advancedDSP d) fftMagnitudes fftSize0 vibMagnitude micRMS
        (at_onset clk) in
    let dspScore := AdvancedDSP.chatterScore adv in
    let rawScore := (baselineScore *. lit 4 10) +. (dspScore *. lit 6 10) in
    let dominantFreq :=
      if AdvancedDSP.dominantFreq adv <. of_Z 100
      then FrequencyBandAnalyzer.getDominantAnomalyFreq freqAnalyzer1
      else AdvancedDSP.dominantFreq adv in
    let '(lowHz, highHz) := ChatterMemory.getPredictedChatterRange (memory d) (spindleRPM d) in
    let '(rawScore, usingLearnedData1) :=
      if (dominantFreq >=. lowHz) && (dominantFreq <=. highHz)
      then (rawScore *. lit 125 100, true)
      else (rawScore, 0 <? ChatterMemory.getResolvedCount (memory d)) in
    let rawScore :=
      if AdvancedDSP.harmonicStrength adv >. lit 6 10 then rawScore *. lit 115 100 else rawScore in
    let rawScore :=
      if AdvancedDSP.isGrowing adv && AdvancedDSP.isEngaged adv
      then rawScore *. lit 11 10 else rawScore in
    let rawScore :=
      if AdvancedDSP.stallGuardScore adv >. lit 5 10 then rawScore *. lit 12 10 else rawScore in
    let rawScore := fmin (of_Z 100) rawScore in
    let smoothedScore1 := smoothedScore d *. lit 7 10 +. rawScore *. lit 3 10 in
    updateState
      {| freqAnalyzer := freqAnalyzer1; vibTracker := vibTracker1; memory := memory d;
         advancedDSP := advancedDSP1; lastAdvResult := adv;
         sampleRate := sampleRate d; fftSize := fftSize d;
         currentState := currentState d;
         smoothedScore := smoothedScore1; spindleRPM := spindleRPM d;
         feedRate := feedRate d; suggestedFeed := suggestedFeed d;
         interventionFeed := interventionFeed d; usingLearnedData := usingLearnedData1;
         lastChatterTime := lastChatterTime d |}
      smoothedScore1 dominantFreq (at_state clk) (at_event clk).

(** One call of [updateState]: its arguments and the two readings of the
    clock; a sequence of calls, and the states it goes through. *)
Record Step : Type := BuildStep {
  s_score : F;
  s_dominantFreq : F;
  s_now : Z;
  s_stamp : Z
}.

Definition step (d : t) (x : Step) : t :=
  updateState d (s_score x) (s_dominantFreq x) (s_now x) (s_stamp x).

Definition run (d : t) (xs : list Step) : t := fold_left step xs d.

Fixpoint trace (d : t) (xs : list Step) : list State :=
  match xs with
  | [] => []
  | x :: xs' => currentState (step d x) :: trace (step d x) xs'
  end.

Definition setToolParams (d : t) (teeth : Z) (diameter : F) : t :=
  {| freqAnalyzer := freqAnalyzer d; vibTracker := vibTracker d; memory := memory d;
     advancedDSP := AdvancedDSP.setToolParams (advancedDSP d) teeth diameter;
     lastAdvResult := lastAdvResult d;
     sampleRate := sampleRate d; fftSize := fftSize d; currentState := currentState d;
     smoothedScore := smoothedScore d; spindleRPM := spindleRPM d;
     feedRate := feedRate d; suggestedFeed := suggestedFeed d;
     interventionFeed := interventionFeed d; usingLearnedData := usingLearnedData d;
     lastChatterTime := lastChatterTime d |}.

Definition pushStallGuard (d : t) (axis sg : Z) : t :=
  {| freqAnalyzer := freqAnalyzer d; vibTracker := vibTracker d; memory := memory d;
     advancedDSP := AdvancedDSP.pushStallGuard (advancedDSP d) axis sg;
     lastAdvResult := lastAdvResult d;
     sampleRate := sampleRate d; fftSize := fftSize d; currentState := currentState d;
     smoothedScore := smoothedScore d; spindleRPM := spindleRPM d;
     feedRate := feedRate d; suggestedFeed := suggestedFeed d;
     interventionFeed := interventionFeed d; usingLearnedData := usingLearnedData d;
     lastChatterTime := lastChatterTime d |}.

Definition calculateConfidence (d : t) : F :=
  let adv := lastAdvResult d in
  let conf := of_Z 40 in
  let conf := conf +. fmin (of_Z 15)
                (of_Z (FrequencyBandAnalyzer.getCalibrationProgress (freqAnalyzer d))
                 *. lit 15 100) in
  let conf := conf +. fmin (of_Z 15)
                (of_Z (ChatterMemory.getResolvedCount (memory d)) *. lit 15 10) in
  let conf := if usingLearnedData d then conf +. of_Z 8 else conf in
  let conf :=
    if AdvancedDSP.harmonicStrength adv >. lit 6 10 then conf +. of_Z 12
    else if AdvancedDSP.harmonicStrength adv >. lit 3 10 then conf +. of_Z 6
    else conf in
  let conf :=
    if AdvancedDSP.sensorAgreement adv >. lit 7 10 then conf +. of_Z 10
    else if AdvancedDSP.sensorAgreement adv >. lit 4 10 then conf +. of_Z 5
    else conf in
  let conf := if AdvancedDSP.freqStability adv >. lit 7 10 then conf +. of_Z 8 else conf in
  let conf :=
    if AdvancedDSP.stabilityLobeMatch adv >. lit 8 10 then conf +. of_Z 10 else conf in
  let conf :=
    if AdvancedDSP.stallGuardScore adv >. lit 5 10 then conf +. of_Z 12
    else if AdvancedDSP.stallGuardScore adv >. lit 2 10 then conf +. of_Z 5
    else conf in
  fmin (of_Z 100) conf.

Definition getStatus (d : t) : Status :=
  {| st_state := currentState d;
     st_score := smoothedScore d;
     st_confidence := calculateConfidence d;
     st_dominantFreq :=
       if AdvancedDSP.dominantFreq (lastAdvResult d) >. of_Z 100
       then AdvancedDSP.dominantFreq (lastAdvResult d)
       else FrequencyBandAnalyzer.getDominantAnomalyFreq (freqAnalyzer d);
     st_vibrationG := VibrationTracker.getZScore (vibTracker d) *. lit 1 10;
     st_suggestedFeedPct := suggestedFeed d;
     st_learned := usingLearnedData d;
     st_calibrationPct := FrequencyBandAnalyzer.getCalibrationProgress (freqAnalyzer d);
     st_learnedEvents := ChatterMemory.getResolvedCount (memory d);
     st_harmonicStrength := AdvancedDSP.harmonicStrength (lastAdvResult d);
     st_stabilityMatch := AdvancedDSP.stabilityLobeMatch (lastAdvResult d);
     st_sensorAgreement := AdvancedDSP.sensorAgreement (lastAdvResult d);
     st_stallGuardScore := AdvancedDSP.stallGuardScore (lastAdvResult d);
     st_isEngaged := AdvancedDSP.isEngaged (lastAdvResult d);
     st_isGrowing := AdvancedDSP.isGrowing (lastAdvResult d) |}.

Definition getStateString (d : t) : string :=
  match currentState d with
  | CALIBRATING => "calibrating"
  | MONITORING => "ok"
  | WARNING => "warning"
  | CHATTER => "chatter"
  | RECOVERING => "recovering"
  end.

End Defs.
Arguments t F : clear implicits.
Arguments Step F : clear implicits.
End AdaptiveChatterDetector.

(** * Reference definitions

    The definitions of this part are not taken from the code: they say what
    the code is compared with. *)

(** The two-pass computation of mean and variance over exact rationals:
    first the arithmetic mean, then the sum of the squared deviations from
    it, divided by [n - 1]. *)
Module TwoPass.
Local Open Scope Qc_scope.

Definition sumQ (xs : list Qc) : Qc := foldr Qcplus 0 xs.

Definition count (xs : list Qc) : Qc := Qc_of_Z (Z.of_nat (length xs)).

Definition mean (xs : list Qc) : Qc :=
  match xs with
  | [] => 0
  | _ => sumQ xs / count xs
  end.

Definition sq_dev (c : Qc) (xs : list Qc) : Qc :=
  sumQ (map (fun x => (x - c) * (x - c)) xs).

Definition variance (xs : list Qc) : Qc :=
  if (1 <? Z.of_nat (length xs))%Z
  then sq_dev (mean xs) xs / (count xs - 1)
  else 0.

End TwoPass.

(** The samples of a sequence that [push] does not ignore. *)
Definition finite_values (xs : list XQ.xq) : list Qc :=
  omap (fun x => match x with XQ.XFin q => Some q | _ => None end) xs.

(** The loop of [saveToFlash] that writes the keys [evt0], [evt1], ...,
    run for [n] rounds, and what [loadFromFlash] reads back at key
    [evt i]. *)
Definition saveLoop {F : Type} (evs : list (ChatterEvent.t F)) (n : nat)
    (p : gmap string (nvs_entry F)) : gmap string (nvs_entry F) :=
  fold_left (fun p i =>
    match evs !! Z.to_nat (Z.of_nat (length evs) - 1 - i) with
    | Some e => putBytes (evt_key i) (EventImage e) p
    | None => p
    end) (range 0 (Z.of_nat n)) p.

Definition readEvent {F : Type} (p : gmap string (nvs_entry F)) (i : Z) :
    option (ChatterEvent.t F) :=
  match getBytes (evt_key i) sizeof_ChatterEvent p with
  | Some (EventImage e) => Some e
  | _ => None
  end.

(** The fused score as the design states it: every feature has a weight;
    the features whose precondition holds are the applied ones; the score is
    the weighted sum of the applied features over the sum of their weights,
    times 100. *)
Module Fusion.
Section Defs.
Context {F : Type} {ops : FloatOps F}.

Definition applied (r : AdvancedDSP.AdvancedResult F)
    (crestScore toothPassFreq : F) (stallData : bool) : list (F * Z) :=
  [(AdvancedDSP.harmonicStrength r, 30);
   (AdvancedDSP.spectralNarrowness r, 20);
   (AdvancedDSP.freqStability r, 15)]
  ++ (if toothPassFreq >. of_Z 10 then [(AdvancedDSP.stabilityLobeMatch r, 20)] else [])
  ++ (if stallData then [(AdvancedDSP.stallGuardScore r, 25)] else [])
  ++ [(crestScore, 10)].

Definition weighted_sum (fw : list (F * Z)) : F :=
  fold_left (fun acc '(f, w) => acc +. f *. of_Z w) fw (of_Z 0).

Definition weight_total (fw : list (F * Z)) : Z :=
  foldr Z.add 0 (snd <$> fw).

Definition fused (fw : list (F * Z)) : F :=
  weighted_sum fw /. of_Z (weight_total fw) *. of_Z 100.

End Defs.
End Fusion.

(** The prediction as the design states it: each resolved event has the
    weight [exp(-(|df|/500 + |drpm|/3000))]; the prediction is the average
    of the feed reductions of the resolved events with these weights. *)
Module Prediction.
Section Defs.
Context {F : Type} {ops : FloatOps F} {lm : Libm F}.

Definition weight (frequency0 spindleRPM0 : F) (e : ChatterEvent.t F) : F :=
  fexp (fneg (fabs (ChatterEvent.frequency e -. frequency0) /. of_Z 500
              +. fabs (ChatterEvent.spindleRPM e -. spindleRPM0) /. of_Z 3000)).

Definition resolved_events (m : ChatterMemory.t F) : list (ChatterEvent.t F) :=
  filter (fun e => ChatterEvent.resolved e = true) (ChatterMemory.events m).

Definition total_weight (m : ChatterMemory.t F) (frequency0 spindleRPM0 : F) : F :=
  fold_left (fun acc e => acc +. weight frequency0 spindleRPM0 e)
    (resolved_events m) (of_Z 0).

Definition weighted_reduction (m : ChatterMemory.t F) (frequency0 spindleRPM0 : F) : F :=
  fold_left (fun acc e =>
    acc +. weight frequency0 spindleRPM0 e *. ChatterEvent.feedReduction e)
    (resolved_events m) (of_Z 0).

Definition weighted_average (m : ChatterMemory.t F) (frequency0 spindleRPM0 : F) : F :=
  weighted_reduction m frequency0 spindleRPM0 /. total_weight m frequency0 spindleRPM0.

End Defs.
End Prediction.

(** Concrete inputs for the examples: the [i]-th event of a run, at
    [1000 + 10 i] Hz, and a flash store that has never been written. *)
Module Sample.
Definition event (i : Z) : ChatterEvent.t XQ.xq :=
  {| ChatterEvent.frequency := of_Z (1000 + 10 * i);
     ChatterEvent.spindleRPM := of_Z 12000;
     ChatterEvent.feedRate := of_Z 100;
     ChatterEvent.severity := of_Z 80;
     ChatterEvent.feedReduction := of_Z 0;
     ChatterEvent.resolved := false;
     ChatterEvent.timestamp := 1000 * i |}.

Definition events_from (i n : Z) : list (ChatterEvent.t XQ.xq) := event <$> seqZ i n.
Definition events (n : Z) : list (ChatterEvent.t XQ.xq) := events_from 0 n.

Definition blank_flash : gmap string (nvs_entry XQ.xq) := ∅.

(** A stand-in for the C library in the examples: [exp] by its (2,2)
    Pade approximant [(12 + 6x + x^2) / (12 - 6x + x^2)], which is exact
    at 0; the other functions are not called by the examples and return
    NaN. *)
Definition exp_pade (x : XQ.xq) : XQ.xq :=
  match x with
  | XQ.XNaN => XQ.XNaN
  | XQ.XInf neg => if neg then of_Z 0 else XQ.XInf false
  | XQ.XFin q =>
      (of_Z 12 +. of_Z 6 *. x +. x *. x) /. (of_Z 12 -. of_Z 6 *. x +. x *. x)
  end.

Definition libm : Libm XQ.xq :=
  {| fexp := exp_pade;
     fsqrt := fun _ => XQ.XNaN;
     flog10 := fun _ => XQ.XNaN;
     fpow := fun _ _ => XQ.XNaN |}.

(** The same for single precision, with the correctly rounded square
    root. *)
Definition libm32 : Libm spec_float :=
  {| fexp := fun _ => S754_nan;
     fsqrt := SFsqrt Binary32.prec Binary32.emax;
     flog10 := fun _ => S754_nan;
     fpow := fun _ _ => S754_nan |}.

(** A detector after calibration, and the same detector after a chatter
    episode: score 80 at 1000 ms (MONITORING to CHATTER), then score 30 at
    2000 ms (CHATTER to RECOVERING). *)
Definition at_score (score now : Z) : AdaptiveChatterDetector.Step XQ.xq :=
  {| AdaptiveChatterDetector.s_score := of_Z score;
     AdaptiveChatterDetector.s_dominantFreq := of_Z 1500;
     AdaptiveChatterDetector.s_now := now;
     AdaptiveChatterDetector.s_stamp := now |}.

Definition monitoring : AdaptiveChatterDetector.t XQ.xq :=
  AdaptiveChatterDetector.set_state
    (AdaptiveChatterDetector.initial blank_flash)
    AdaptiveChatterDetector.MONITORING.

Definition recovering : AdaptiveChatterDetector.t XQ.xq :=
  AdaptiveChatterDetector.run (lm := libm) monitoring
    [at_score 80 1000; at_score 30 2000].

(** A spectrum of 1024 bins at the default bin width of 15.625 Hz: a
    fundamental at 1500 Hz (bin 96) and its harmonics at 3000, 4500 and
    6000 Hz, all of magnitude 90, over a floor of magnitude 1. *)
Definition quiet_harmonics : list spec_float :=
  (fun i => if (0 <? i) && (Z.rem i 96 =? 0) && (i <=? 384) then of_Z 90 else of_Z 1)
    <$> seqZ 0 1024.

(** The same pattern at magnitude 1000, above the floor. *)
Definition loud_harmonics : list spec_float :=
  (fun i => if (0 <? i) && (Z.rem i 96 =? 0) && (i <=? 384) then of_Z 1000 else of_Z 1)
    <$> seqZ 0 1024.

(** A spectrum whose only bin above 0 is bin 96 (1500 Hz), at the [double]
    99.999999: below 100, and 100 when it is rounded to [float]. *)
Definition near_floor : list spec_float :=
  (fun i => if i =? 96 then dlit 99999999 1000000 else of_Z 0) <$> seqZ 0 1024.

(** A spectrum with two peaks that differ below the precision of [float]:
    bin 100 holds the [double] 100.0000002 and bin 200 the [double]
    100.0000001; the other bins hold 0. *)
Definition rounded_peaks : list spec_float :=
  (fun i => if i =? 100 then dlit 1000000002 10000000
            else if i =? 200 then dlit 1000000001 10000000
            else of_Z 0) <$> seqZ 0 1024.

End Sample.

(** The states from which the detector can enter CHATTER by a first
    detection. *)
Definition calm (s : AdaptiveChatterDetector.State) : Prop :=
  s = AdaptiveChatterDetector.MONITORING \/ s = AdaptiveChatterDetector.WARNING.

(** * main.cpp: the sketch around the detector *)

Module Sketch.

Definition SAMPLES : Z := 1024.
Definition SAMPLING_FREQ : Z := 16000.
Definition UPDATE_INTERVAL : Z := 50.

Inductive ChatterState : Type := STATE_OK | STATE_WARNING | STATE_CHATTER.

Section Defs.
Context {F : Type} {ops : FloatOps F} {lm : Libm F}.

(** A line of the serial port as [handleSerialCommands] has parsed it: one
    constructor for each branch that calls the detector, with the values
    that [toFloat] and [toInt] returned; [CmdOther] is every other line
    (INFO, TEMP, a TOOL: or SG: line without a comma, anything else). *)
Inductive Command : Type :=
| CmdCalibrate
| CmdResolved
| CmdRPM (rpm : F)
| CmdFeed (feed : F)
| CmdTool (teeth : Z) (diameter : F)
| CmdSG (axis : Z) (sg : Z)
| CmdOther.

(** The globals of the sketch that the detection writes. *)
Record t : Type := Build {
  chatterDetector : AdaptiveChatterDetector.t F;
  fusedChatterScore : F;
  micChatterScore : F;
  imuChatterScore : F;
  dominantFrequency : F;
  currentState : ChatterState;
  lastUpdate : Z        (* unsigned long *)
}.

Definition set_chatterDetector (g : t) (d : AdaptiveChatterDetector.t F) : t :=
  {| chatterDetector := d; fusedChatterScore := fusedChatterScore g;
     micChatterScore := micChatterScore g; imuChatterScore := imuChatterScore g;
     dominantFrequency := dominantFrequency g; currentState := currentState g;
     lastUpdate := lastUpdate g |}.

Definition set_lastUpdate (g : t) (now : Z) : t :=
  {| chatterDetector := chatterDetector g; fusedChatterScore := fusedChatterScore g;
     micChatterScore := micChatterScore g; imuChatterScore := imuChatterScore g;
     dominantFrequency := dominantFrequency g; currentState := currentState g;
     lastUpdate := now |}.

(** The globals at start-up, over the flash contents [p], and [setup],
    which initialises the detector. *)
Definition initial (p : gmap string (nvs_entry F)) : t :=
  {| chatterDetector := AdaptiveChatterDetector.initial p;
     fusedChatterScore := of_Z 0; micChatterScore := of_Z 0;
     imuChatterScore := of_Z 0; dominantFrequency := of_Z 0;
     currentState := STATE_OK; lastUpdate := 0 |}.

Definition setup (g : t) : t :=
  set_chatterDetector g
    (AdaptiveChatterDetector.init (chatterDetector g) (of_Z SAMPLING_FREQ) SAMPLES).

(** [update] is called without [micRMS], which defaults to 0. *)
Definition fuseSensors (g : t) (vReal : list F) (vibrationMagnitude : F)
    (clk : AdaptiveChatterDetector.Clock) : t :=
  let d := AdaptiveChatterDetector.update (chatterDetector g) vReal SAMPLES
             vibrationMagnitude (of_Z 0) clk in
  let status := AdaptiveChatterDetector.getStatus d in
  {| chatterDetector := d;
     fusedChatterScore := AdaptiveChatterDetector.st_score status;
     micChatterScore := AdaptiveChatterDetector.st_score status;
     imuChatterScore := AdaptiveChatterDetector.st_vibrationG status *. of_Z 20;
     dominantFrequency := AdaptiveChatterDetector.st_dominantFreq status;
     currentState :=
       if bool_decide (AdaptiveChatterDetector.st_state status
                       = AdaptiveChatterDetector.CHATTER) then STATE_CHATTER
       else if bool_decide (AdaptiveChatterDetector.st_state status
                            = AdaptiveChatterDetector.WARNING) then STATE_WARNING
       else if bool_decide (AdaptiveChatterDetector.st_state status
                            = AdaptiveChatterDetector.CALIBRATING) then STATE_OK
       else STATE_OK;
     lastUpdate := lastUpdate g |}.

(** The state name that [updateDisplay] and [sendChatterStatus] print. *)
Definition stateStr (status : AdaptiveChatterDetector.Status (F := F)) : string :=
  if bool_decide (AdaptiveChatterDetector.st_state status
                  = AdaptiveChatterDetector.CALIBRATING) then "calibrating"
  else if bool_decide (AdaptiveChatterDetector.st_state status
                       = AdaptiveChatterDetector.CHATTER) then "chatter"
  else if bool_decide (AdaptiveChatterDetector.st_state status
                       = AdaptiveChatterDetector.WARNING) then "warning"
  else if bool_decide (AdaptiveChatterDetector.st_state status
                       = AdaptiveChatterDetector.RECOVERING) then "recovering"
  else "ok".

(** The field [calibrated] of the answer to INFO. *)
Definition infoCalibrated (status : AdaptiveChatterDetector.Status (F := F)) : bool :=
  AdaptiveChatterDetector.st_calibrationPct status >=? 100.

Definition handleSerialCommands (g : t) (cmd : Command) : t :=
  match cmd with
  | CmdCalibrate =>
      set_chatterDetector g (AdaptiveChatterDetector.startCalibration (chatterDetector g))
  | CmdResolved =>
      set_chatterDetector g (AdaptiveChatterDetector.confirmChatterResolved (chatterDetector g))
  | CmdRPM rpm =>
      set_chatterDetector g (AdaptiveChatterDetector.setSpindleRPM (chatterDetector g) rpm)
  | CmdFeed feed =>
      set_chatterDetector g (AdaptiveChatterDetector.setFeedRate (chatterDetector g) feed)
  | CmdTool teeth diameter =>
      set_chatterDetector g
        (AdaptiveChatterDetector.setToolParams (chatterDetector g) teeth diameter)
  | CmdSG axis sg =>
      set_chatterDetector g
        (AdaptiveChatterDetector.pushStallGuard (chatterDetector g) axis (sg mod 2 ^ 16))
  | CmdOther => g
  end.

(** One pass of [loop]: the clock reading [now], the serial line if one is
    available, and what the sensors and the FFT deliver if the pass is a
    sensor update: the magnitudes left in [vReal] and the vibration
    magnitude. *)
Record Pass : Type := BuildPass {
  p_now : Z;
  p_line : option Command;
  p_vReal : list F;
  p_vibrationMagnitude : F;
  p_clk : AdaptiveChatterDetector.Clock
}.

Definition loop (g : t) (x : Pass) : t :=
  let g := match p_line x with
           | Some cmd => handleSerialCommands g cmd
           | None => g
           end in
  if UPDATE_INTERVAL <=? (p_now x - lastUpdate g) mod 2 ^ 32 then
    fuseSensors (set_lastUpdate g (p_now x)) (p_vReal x) (p_vibrationMagnitude x) (p_clk x)
  else g.

(** The sketch after [setup] and a sequence of passes of [loop]. *)
Definition run (p : gmap string (nvs_entry F)) (xs : list Pass) : t :=
  fold_left loop xs (setup (initial p)).

End Defs.
Arguments t F : clear implicits.
Arguments Command F : clear implicits.
Arguments Pass F : clear implicits.
End Sketch.

(** * Reference definitions for sequences of calls *)

(** The transitions of the detector's state that one [update] can make. *)
Definition may_follow (s s' : AdaptiveChatterDetector.State) : bool :=
  match s, s' with
  | AdaptiveChatterDetector.CALIBRATING, AdaptiveChatterDetector.CALIBRATING
  | AdaptiveChatterDetector.CALIBRATING, AdaptiveChatterDetector.MONITORING
  | AdaptiveChatterDetector.MONITORING, AdaptiveChatterDetector.MONITORING
  | AdaptiveChatterDetector.MONITORING, AdaptiveChatterDetector.WARNING
  | AdaptiveChatterDetector.MONITORING, AdaptiveChatterDetector.CHATTER
  | AdaptiveChatterDetector.WARNING, AdaptiveChatterDetector.WARNING
  | AdaptiveChatterDetector.WARNING, AdaptiveChatterDetector.MONITORING
  | AdaptiveChatterDetector.WARNING, AdaptiveChatterDetector.CHATTER
  | AdaptiveChatterDetector.CHATTER, AdaptiveChatterDetector.CHATTER
  | AdaptiveChatterDetector.CHATTER, AdaptiveChatterDetector.RECOVERING
  | AdaptiveChatterDetector.RECOVERING, AdaptiveChatterDetector.RECOVERING
  | AdaptiveChatterDetector.RECOVERING, AdaptiveChatterDetector.CHATTER
  | AdaptiveChatterDetector.RECOVERING, AdaptiveChatterDetector.MONITORING => true
  | _, _ => false
  end.

(** One [update] call with its arguments, and a sequence of them. *)
Record Frame (F : Type) : Type := BuildFrame {
  f_magnitudes : list F;
  f_fftSize : Z;
  f_vibMagnitude : F;
  f_micRMS : F;
  f_clk : AdaptiveChatterDetector.Clock
}.
Arguments f_magnitudes {F} _.
Arguments f_fftSize {F} _.
Arguments f_vibMagnitude {F} _.
Arguments f_micRMS {F} _.
Arguments f_clk {F} _.

Definition feed {F : Type} {ops : FloatOps F} {lm : Libm F}
    (d : AdaptiveChatterDetector.t F) (x : Frame F) : AdaptiveChatterDetector.t F :=
  AdaptiveChatterDetector.update d (f_magnitudes x) (f_fftSize x)
    (f_vibMagnitude x) (f_micRMS x) (f_clk x).

Definition feed_all {F : Type} {ops : FloatOps F} {lm : Libm F}
    (d : AdaptiveChatterDetector.t F) (xs : list (Frame F)) : AdaptiveChatterDetector.t F :=
  fold_left feed xs d.

(** The number of finite values of a list. *)
Definition count_finite {F : Type} {ops : FloatOps F} (xs : list F) : Z :=
  Z.of_nat (length (filter (fun x => is_finite x = true) xs)).

(** The event [e] once [markResolved] has marked it. *)
Definition resolved_with {F : Type} (e : ChatterEvent.t F) (reduction : F) :
    ChatterEvent.t F :=
  {| ChatterEvent.frequency := ChatterEvent.frequency e;
     ChatterEvent.spindleRPM := ChatterEvent.spindleRPM e;
     ChatterEvent.feedRate := ChatterEvent.feedRate e;
     ChatterEvent.severity := ChatterEvent.severity e;
     ChatterEvent.feedReduction := reduction;
     ChatterEvent.resolved := true;
     ChatterEvent.timestamp := ChatterEvent.timestamp e |}.

(** The detector is at the start of a calibration, as [init] and
    [startCalibration] leave it; and the calibration is not over after the
    updates [xs]: fewer than 100 updates, or fewer than 50 finite vibration
    magnitudes. *)
Definition calibration_start {F : Type} {ops : FloatOps F}
    (d : AdaptiveChatterDetector.t F) : Prop :=
  AdaptiveChatterDetector.currentState d = AdaptiveChatterDetector.CALIBRATING
  /\ FrequencyBandAnalyzer.calibrationSamples (AdaptiveChatterDetector.freqAnalyzer d) = 0
  /\ FrequencyBandAnalyzer.calibrated (AdaptiveChatterDetector.freqAnalyzer d) = false
  /\ RunningStats.n (VibrationTracker.baseline (AdaptiveChatterDetector.vibTracker d)) = 0.

Definition still_calibrating {F : Type} {ops : FloatOps F} (xs : list (Frame F)) : Prop :=
  Z.of_nat (length xs) < 100 \/ count_finite (f_vibMagnitude <$> xs) < 50.

(** A value of the exact arithmetic that is not below zero: NaN, +Inf, or
    a finite number that is not negative. *)
Definition nn (x : XQ.xq) : Prop := (x <. of_Z 0) = false.

(** A finite value of the exact arithmetic between two integers. *)
Definition within (lo hi : Z) (x : XQ.xq) : Prop :=
  exists q : Qc, x = XQ.XFin q /\ (Qc_of_Z lo <= q <= Qc_of_Z hi)%Qc.

(** What the detector keeps true: at most 50 events in the memory; the
    band analyzer is calibrated exactly when it has counted 100 samples;
    and outside CALIBRATING both calibrations are complete. *)
Definition detector_invariant {F : Type} {ops : FloatOps F}
    (d : AdaptiveChatterDetector.t F) : Prop :=
  (length (ChatterMemory.events (AdaptiveChatterDetector.memory d)) <= 50)%nat
  /\ 0 <= FrequencyBandAnalyzer.calibrationSamples (AdaptiveChatterDetector.freqAnalyzer d)
  /\ FrequencyBandAnalyzer.calibrated (AdaptiveChatterDetector.freqAnalyzer d)
     = (100 <=? FrequencyBandAnalyzer.calibrationSamples
                  (AdaptiveChatterDetector.freqAnalyzer d))
  /\ (AdaptiveChatterDetector.currentState d <> AdaptiveChatterDetector.CALIBRATING ->
      FrequencyBandAnalyzer.calibrated (AdaptiveChatterDetector.freqAnalyzer d) = true
      /\ 50 <= RunningStats.n
                 (VibrationTracker.baseline (AdaptiveChatterDetector.vibTracker d))).

(** The smoothed score and the scores of the last DSP result are in their
    ranges. *)
Definition status_in_range (d : AdaptiveChatterDetector.t XQ.xq) : Prop :=
  within 0 100 (AdaptiveChatterDetector.smoothedScore d)
  /\ within 0 100 (AdvancedDSP.chatterScore (AdaptiveChatterDetector.lastAdvResult d))
  /\ within 0 1 (AdvancedDSP.harmonicStrength (AdaptiveChatterDetector.lastAdvResult d))
  /\ within 0 1 (AdvancedDSP.stabilityLobeMatch (AdaptiveChatterDetector.lastAdvResult d))
  /\ within 0 1 (AdvancedDSP.stallGuardScore (AdaptiveChatterDetector.lastAdvResult d)).

(** Zero or NaN: what a sum of products with zero can be. *)
Definition zero_or_nan (x : XQ.xq) : Prop := x = of_Z 0 \/ x = XQ.XNaN.

(** The microphone buffers of the DSP engine hold zeros only, and the
    last sensor agreement is zero or NaN. *)
Definition microphone_silent (d : AdaptiveChatterDetector.t XQ.xq) : Prop :=
  (forall i, CrossCorrelator.micBuf
               (AdvancedDSP.crossCorr (AdaptiveChatterDetector.advancedDSP d)) @@ i
             = of_Z 0)
  /\ (forall i, CrestFactorAnalyzer.buffer
                  (AdvancedDSP.crestAnalyzer (AdaptiveChatterDetector.advancedDSP d)) @@ i
                = of_Z 0)
  /\ zero_or_nan (AdvancedDSP.sensorAgreement (AdaptiveChatterDetector.lastAdvResult d)).

(** What both loops of [getPredictedChatterFreqs] keep: at most [maxCount]
    entries, at most [cap] of them, all of them inside the band. *)
Definition lobe_invariant {F : Type} {ops : FloatOps F}
    (maxCount : Z) (cap : nat) (freqs : list F) : Prop :=
  Z.of_nat (length freqs) <= Z.max 0 maxCount
  /\ (length freqs <= cap)%nat
  /\ Forall (fun f => StabilityLobePredictor.in_band f = true) freqs.

(** The state of a [FrequencyTracker] after a sequence of [push] calls with
    the given (frequency, amplitude) pairs, the last [n] elements of a
    list, and a sum accumulated from the left as the loops of the code do. *)
Definition tracker_after {F : Type} {ops : FloatOps F} (xs : list (F * F)) :
    FrequencyTracker.t F :=
  fold_left (fun s x => FrequencyTracker.push s (fst x) (snd x)) xs FrequencyTracker.initial.

Definition last_n {A : Type} (n : nat) (l : list A) : list A := drop (length l - n) l.

Definition fsum {F : Type} {ops : FloatOps F} (l : list F) : F :=
  fold_left (fun acc x => acc +. x) l (of_Z 0).

(** The state of a [StallGuardAnalyzer] after a sequence of [pushSG] calls
    with the given (axis, reading) pairs; the readings of one axis among
    them; the differences of consecutive readings; and the number of turns
    (changes of sign of a difference beyond the dead band of 5) that the
    loop of [getOscillationScore] counts. *)
Definition sg_after (ps : list (Z * Z)) : StallGuardAnalyzer.t :=
  fold_left (fun s p => StallGuardAnalyzer.pushSG s (fst p) (snd p)) ps
    StallGuardAnalyzer.initial.

Definition axis_readings (ps : list (Z * Z)) (axis : Z) : list Z :=
  snd <$> filter (fun p => fst p = axis) ps.

Definition sg_diffs (l : list Z) : list Z := zip_with Z.sub (drop 1 l) l.

Definition sg_turns (diffs : list Z) : Z :=
  fst (fold_left (fun '(crossings, lastSign) diff =>
         let sign := if 5 <? diff then 1 else if diff <? -5 then -1 else 0 in
         (if negb (sign =? 0) && negb (sign =? lastSign) && negb (lastSign =? 0)
          then crossings + 1 else crossings,
          if negb (sign =? 0) then sign else lastSign))
       diffs (0, 0)).

(** * Properties *)

(** ** Facts about the two arithmetic implementations *)

Section XQFacts.
Import XQ.
Local Open Scope Qc_scope.

Lemma xq_ltb_fin (a b : Qc) : (XFin a <. XFin b) = true <-> a < b.
Proof.
  cbn. destruct (Qclt_le_dec a b) as [Hlt|Hle]; split; intros H; try done.
  exfalso. by apply (Qcle_not_lt _ _ Hle).
Qed.

Lemma xq_ltb_fin_false (a b : Qc) : (XFin a <. XFin b) = false <-> b <= a.
Proof.
  cbn. destruct (Qclt_le_dec a b) as [Hlt|Hle]; split; intros H; try done.
  exfalso. by apply (Qcle_not_lt _ _ H).
Qed.

Lemma xq_div_fin (a b : Qc) : b <> 0 -> XFin a /. XFin b = XFin (a / b).
Proof.
  intros Hb. cbn. unfold qzero. by destruct (Qc_eq_dec b 0).
Qed.

Lemma Qc_of_Z_nonzero (z : Z) : z <> 0%Z -> Qc_of_Z z <> 0.
Proof. rewrite <- Z2Qc_inj_0. intros Hz H. by apply Z2Qc_inj in H. Qed.

End XQFacts.

Section Binary32Facts.
Import Binary32.

(** The non-finite values of single precision are NaN and the two
    infinities. *)
Lemma binary32_nonfinite (x : spec_float) :
  is_finite x = false <->
  x = S754_nan \/ x = S754_infinity false \/ x = S754_infinity true.
Proof.
  destruct x as [s|s| |s m e]; cbn; split; intros H; try done; auto.
  - destruct H as [H|[H|H]]; discriminate.
  - destruct s; auto.
  - destruct H as [H|[H|H]]; discriminate.
Qed.

End Binary32Facts.

(** ** The order laws hold in both implementations *)

Lemma ieee_ltb_trans (x y z : spec_float) :
  Ieee.ltb x y = true -> Ieee.ltb y z = true -> Ieee.ltb x z = true.
Proof.
  unfold Ieee.ltb.
  destruct x as [sx|sx| |sx mx ex], y as [sy|sy| |sy my ey], z as [sz|sz| |sz mz ez];
    try discriminate;
    repeat match goal with s : bool |- _ => destruct s end;
    try discriminate; try reflexivity.
  all: repeat match goal with
         | |- context [ Qlt_le_dec ?u ?v ] => destruct (Qlt_le_dec u v)
         end; try discriminate; try reflexivity.
  all: intros _ _; exfalso;
    match goal with
    | Hab : (?a < ?b)%Q, Hbc : (?b < ?c)%Q, Hca : (?c <= ?a)%Q |- _ =>
        apply (Qlt_not_le _ _ (Qlt_trans _ _ _ Hab Hbc) Hca)
    end.
Qed.

Lemma ieee_ltb_irrefl (x : spec_float) : Ieee.ltb x x = false.
Proof.
  unfold Ieee.ltb.
  destruct x as [s|s| |s m e]; try reflexivity; try (by destruct s).
  all: match goal with
       | |- context [ Qlt_le_dec ?u ?v ] => destruct (Qlt_le_dec u v) as [H|]
       end; [|reflexivity]; exfalso; by apply (Qlt_irrefl _ H).
Qed.

#[global] Instance binary32_order : FloatOrder spec_float.
Proof.
  split.
  - exact ieee_ltb_trans.
  - exact ieee_ltb_irrefl.
  - reflexivity.
  - reflexivity.
Qed.

Lemma xq_ltb_trans (x y z : XQ.xq) :
  (x <. y) = true -> (y <. z) = true -> (x <. z) = true.
Proof.
  destruct x as [|sx|a], y as [|sy|b], z as [|sz|c]; cbn; try done;
    repeat match goal with s : bool |- _ => destruct s end; cbn; try done.
  all: repeat match goal with
         | |- context [ Qclt_le_dec ?u ?v ] => destruct (Qclt_le_dec u v)
         end; try done.
  intros _ _. exfalso.
  match goal with
  | Hab : (a < b)%Qc, Hbc : (b < c)%Qc, Hca : (c <= a)%Qc |- _ =>
      apply (Qclt_not_le _ _ (Qclt_trans _ _ _ Hab Hbc) Hca)
  end.
Qed.

Lemma xq_ltb_irrefl (x : XQ.xq) : (x <. x) = false.
Proof.
  destruct x as [|s|a]; cbn; try done.
  - by destruct s.
  - destruct (Qclt_le_dec a a) as [H|]; [|done].
    exfalso. by apply (Qclt_not_eq _ _ H).
Qed.

#[global] Instance exact_order : FloatOrder XQ.xq.
Proof.
  split.
  - exact xq_ltb_trans.
  - exact xq_ltb_irrefl.
  - reflexivity.
  - reflexivity.
Qed.

(** ** Exact arithmetic: identities used below *)

Lemma xq_fin_eq (a b : Qc) : (this a == this b)%Q -> XQ.XFin a = XQ.XFin b.
Proof. intros H. f_equal. by apply Qc_is_canon. Qed.

Lemma xq_ltb_asym (x y : XQ.xq) : (x <. y) = true -> (y <. x) = false.
Proof.
  destruct x as [|s|a], y as [|t|b]; cbn; try done.
  - by destruct s, t.
  - by destruct s.
  - by destruct t.
  - destruct (Qclt_le_dec a b) as [H|H]; [|done]. intros _.
    destruct (Qclt_le_dec b a) as [H'|H']; [|done].
    exfalso. apply (Qclt_not_le _ _ H). by apply Qclt_le_weak.
Qed.

Lemma xq_mul_one_l (x : XQ.xq) : of_Z 1 *. x = x.
Proof.
  destruct x as [|s|a]; cbn; try done.
  - by destruct s.
  - apply xq_fin_eq. cbn. rewrite Qred_correct. ring.
Qed.

Lemma xq_add_zero_l (x : XQ.xq) : of_Z 0 +. x = x.
Proof.
  destruct x as [|s|a]; cbn; try done.
  apply xq_fin_eq. cbn. rewrite Qred_correct. ring.
Qed.

Lemma xq_div_one_r (x : XQ.xq) : x /. of_Z 1 = x.
Proof.
  destruct x as [|s|a]; cbn; try done.
  - by destruct s.
  - apply xq_fin_eq. cbn. rewrite !Qred_correct. field.
Qed.

Lemma xq_self_distance (q : Qc) (d : Z) :
  d <> 0 -> fabs (XQ.XFin q -. XQ.XFin q) /. of_Z d = of_Z 0.
Proof.
  intros Hd. cbn [fsub XQ.exact XQ.xq_sub XQ.xq_neg XQ.xq_add].
  assert (q + - q = Qc_of_Z 0)%Qc as -> by (rewrite Z2Qc_inj_0; ring).
  change (of_Z d : XQ.xq) with (XQ.XFin (Qc_of_Z d)).
  cbn [fabs XQ.exact XQ.xq_abs]. 
  assert (XQ.XFin (if XQ.qneg (Qc_of_Z 0) then (- Qc_of_Z 0)%Qc else Qc_of_Z 0) = XQ.XFin (Qc_of_Z 0)) as -> by done.
  rewrite xq_div_fin by (by apply Qc_of_Z_nonzero).
  apply xq_fin_eq. cbn. rewrite !Qred_correct. reflexivity.
Qed.


(** ** RunningStats *)

Lemma push_ignores_nonfinite {F : Type} {ops : FloatOps F}
    (s : RunningStats.t F) (x : F) :
  is_finite x = false -> RunningStats.push s x = s.
Proof.
  intros Hx. unfold RunningStats.push. by rewrite Hx.
Qed.

(** C9.  For every state of a [RunningStats] and every non-finite input
    [x] (NaN, +Inf, -Inf), [push(x)] leaves the whole state unchanged: the
    count, the mean, M2, the minimum and the maximum are what they were (and
    with them the variance and the standard deviation).  This holds for
    every implementation of the arithmetic. *)
Theorem push_nonfinite_unchanged {F : Type} {ops : FloatOps F}
    (s : RunningStats.t F) (x : F) :
  is_finite x = false -> RunningStats.push s x = s.
Proof. apply push_ignores_nonfinite. Qed.

Lemma push_nonfinite_unchanged_witness :
  let s := RunningStats.push_all RunningStats.clear
             [of_Z 1; of_Z 2; of_Z 4 : spec_float] in
  RunningStats.push s S754_nan = s
  /\ RunningStats.push s (S754_infinity false) = s
  /\ RunningStats.push s (S754_infinity true) = s.
Proof.
  intros s. split; [|split].
  - apply (push_nonfinite_unchanged s S754_nan). reflexivity.
  - apply (push_nonfinite_unchanged s (S754_infinity false)). reflexivity.
  - apply (push_nonfinite_unchanged s (S754_infinity true)). reflexivity.
Defined.

Section Welford.
Import XQ.
Local Open Scope Qc_scope.

Lemma sumQ_snoc (xs : list Qc) (x : Qc) :
  TwoPass.sumQ (xs ++ [x]) = TwoPass.sumQ xs + x.
Proof.
  unfold TwoPass.sumQ. induction xs as [|y xs IH]; simpl.
  - ring.
  - rewrite IH. ring.
Qed.

Lemma count_snoc (xs : list Qc) (x : Qc) :
  TwoPass.count (xs ++ [x]) = TwoPass.count xs + 1.
Proof.
  unfold TwoPass.count. rewrite length_app. simpl.
  rewrite Nat2Z.inj_add, Z2Qc_inj_add. by f_equal.
Qed.

Lemma count_pos (xs : list Qc) : xs <> [] -> TwoPass.count xs <> 0.
Proof.
  intros Hne. apply Qc_of_Z_nonzero. destruct xs; [done|]. simpl. lia.
Qed.

Lemma count_succ_nonzero (xs : list Qc) : TwoPass.count xs + 1 <> 0.
Proof.
  rewrite <- (count_snoc xs 0). apply count_pos. by destruct xs.
Qed.

(** The sum is the count times the mean (also for the empty list). *)
Lemma sumQ_mean (xs : list Qc) :
  TwoPass.sumQ xs = TwoPass.count xs * TwoPass.mean xs.
Proof.
  destruct xs as [|y xs].
  - unfold TwoPass.sumQ, TwoPass.mean. simpl. ring.
  - unfold TwoPass.mean. field. by apply count_pos.
Qed.

(** Expansion of the sum of squared deviations around any centre. *)
Lemma sq_dev_expand (c : Qc) (xs : list Qc) :
  TwoPass.sq_dev c xs =
  TwoPass.sumQ (map (fun x => x * x) xs) - (1 + 1) * c * TwoPass.sumQ xs
  + TwoPass.count xs * c * c.
Proof.
  unfold TwoPass.sq_dev, TwoPass.sumQ, TwoPass.count.
  induction xs as [|y xs IH].
  - cbn [map foldr length]. change (Z.of_nat 0) with 0%Z.
    rewrite Z2Qc_inj_0. ring.
  - cbn [map foldr length]. rewrite IH.
    rewrite Nat2Z.inj_succ, <- Z.add_1_r, Z2Qc_inj_add, Z2Qc_inj_1. ring.
Qed.

Lemma mean_snoc (xs : list Qc) (x : Qc) :
  TwoPass.mean (xs ++ [x]) =
  TwoPass.mean xs + (x - TwoPass.mean xs) / (TwoPass.count xs + 1).
Proof.
  assert (TwoPass.mean (xs ++ [x])
          = (TwoPass.sumQ xs + x) / (TwoPass.count xs + 1)) as ->.
  { unfold TwoPass.mean at 1. rewrite sumQ_snoc, count_snoc.
    by destruct xs. }
  rewrite (sumQ_mean xs). field. apply count_succ_nonzero.
Qed.

(** The update of [M2] in Welford's algorithm. *)
Lemma sq_dev_snoc (xs : list Qc) (x : Qc) :
  TwoPass.sq_dev (TwoPass.mean (xs ++ [x])) (xs ++ [x]) =
  TwoPass.sq_dev (TwoPass.mean xs) xs
  + (x - TwoPass.mean xs) * (x - TwoPass.mean (xs ++ [x])).
Proof.
  rewrite !sq_dev_expand, map_app, !sumQ_snoc, count_snoc. simpl.
  rewrite sumQ_snoc, mean_snoc, (sumQ_mean xs).
  field. apply count_succ_nonzero.
Qed.

Lemma push_all_snoc {F} {ops : FloatOps F} (s : RunningStats.t F) (xs : list F) (x : F) :
  RunningStats.push_all s (xs ++ [x]) =
  RunningStats.push (RunningStats.push_all s xs) x.
Proof. unfold RunningStats.push_all. by rewrite fold_left_app. Qed.

(** Non-finite samples can be dropped from a sequence of pushes. *)
Lemma push_all_finite_values (s : RunningStats.t xq) (xs : list xq) :
  RunningStats.push_all s xs =
  RunningStats.push_all s (XFin <$> finite_values xs).
Proof.
  revert s. induction xs as [|x xs IH]; intros s; [done|].
  destruct x as [|neg|q]; cbn [finite_values omap fmap list_fmap];
    unfold RunningStats.push_all in *; cbn [fold_left].
  - rewrite (push_ignores_nonfinite s XNaN) by done. apply IH.
  - rewrite (push_ignores_nonfinite s (XInf neg)) by done. apply IH.
  - apply IH.
Qed.

(** The invariant of Welford's algorithm: after the samples [qs] the
    accumulator holds their count, their mean and the sum of their squared
    deviations from that mean. *)
Lemma welford_invariant (qs : list Qc) :
  (Z.of_nat (length qs) < 2 ^ 32)%Z ->
  let s := RunningStats.push_all RunningStats.clear (XFin <$> qs) in
  RunningStats.n s = Z.of_nat (length qs)
  /\ RunningStats.mean s = XFin (TwoPass.mean qs)
  /\ RunningStats.M2 s = XFin (TwoPass.sq_dev (TwoPass.mean qs) qs).
Proof.
  induction qs as [|x qs IH] using rev_ind.
  - intros _. cbn. split; [done|]. unfold xq_of_Z.
    split; f_equal; by apply Qc_is_canon.
  - rewrite length_app. cbn [length]. intros Hlen.
    destruct IH as (Hn & Hmean & HM2); [lia|].
    cbv zeta. rewrite fmap_app. cbn [fmap list_fmap]. rewrite push_all_snoc.
    set (s := RunningStats.push_all RunningStats.clear (XFin <$> qs)) in * .
    unfold RunningStats.push. cbn [is_finite exact xq_is_finite negb].
    cbn [RunningStats.n RunningStats.mean RunningStats.M2].
    rewrite Hn, Hmean, HM2.
    rewrite Z.mod_small by lia.
    assert (of_Z (Z.of_nat (length qs) + 1) = XFin (TwoPass.count qs + 1)) as ->.
    { cbn. unfold xq_of_Z, TwoPass.count. rewrite Z2Qc_inj_add. by f_equal. }
    change (XFin x -. XFin (TwoPass.mean qs)) with (XFin (x + - TwoPass.mean qs)).
    rewrite xq_div_fin by apply count_succ_nonzero.
    cbn [fadd fsub fmul exact xq_add xq_sub xq_mul xq_neg].
    split; [lia|]. split; f_equal.
    + by rewrite mean_snoc.
    + by rewrite sq_dev_snoc, mean_snoc.
Qed.

End Welford.

(** C6.  For every finite sequence of pushed samples, the single-pass
    accumulator agrees with the two-pass computation over exact numbers:
    [getMean] is the arithmetic mean of the samples and [getVariance] is the
    sum of the squared deviations from the mean divided by [n - 1] when
    [n > 1], and 0 when [n <= 1].  The samples that count are the finite
    ones ([push] ignores the others), and the 32-bit counter must not wrap:
    there are fewer than 2^32 of them. *)
Theorem welford_matches_two_pass (xs : list XQ.xq) :
  Z.of_nat (length (finite_values xs)) < 2 ^ 32 ->
  let s := RunningStats.push_all RunningStats.clear xs in
  RunningStats.getMean s = XQ.XFin (TwoPass.mean (finite_values xs))
  /\ RunningStats.getVariance s = XQ.XFin (TwoPass.variance (finite_values xs)).
Proof.
  intros Hlen s. subst s. rewrite push_all_finite_values.
  destruct (welford_invariant _ Hlen) as (Hn & Hmean & HM2).
  set (qs := finite_values xs) in * .
  set (s := RunningStats.push_all RunningStats.clear (XQ.XFin <$> qs)) in * .
  clearbody s qs.
  unfold RunningStats.getMean, RunningStats.getVariance, TwoPass.variance.
  rewrite Hn, Hmean, HM2. split.
  - destruct (0 <? Z.of_nat (length qs)) eqn:Hpos; [done|].
    apply Z.ltb_ge in Hpos.
    destruct qs; [|simpl in Hpos; lia].
    cbn. unfold XQ.xq_of_Z. f_equal. by apply Qc_is_canon.
  - destruct (1 <? Z.of_nat (length qs)) eqn:Hpos.
    + apply Z.ltb_lt in Hpos. rewrite Z.mod_small by lia.
      assert (of_Z (Z.of_nat (length qs) - 1)
              = XQ.XFin (TwoPass.count qs - 1)%Qc) as ->.
      { cbn. unfold XQ.xq_of_Z, TwoPass.count. rewrite Z2Qc_inj_sub. by f_equal. }
      apply xq_div_fin.
      unfold TwoPass.count. rewrite <- Z2Qc_inj_1, <- Z2Qc_inj_sub.
      apply Qc_of_Z_nonzero. lia.
    + cbn. unfold XQ.xq_of_Z. f_equal. by apply Qc_is_canon.
Qed.

Lemma welford_matches_two_pass_witness :
  let xs := [of_Z 1; XQ.XNaN; of_Z 2; XQ.XInf false; of_Z 4] in
  let s := RunningStats.push_all RunningStats.clear xs in
  RunningStats.getMean s = XQ.XFin (TwoPass.mean (finite_values xs))
  /\ RunningStats.getVariance s = XQ.XFin (TwoPass.variance (finite_values xs)).
Proof.
  intros xs. apply (welford_matches_two_pass xs). vm_compute. reflexivity.
Defined.

(** ** ChatterMemory: recording events *)

Section MemoryFacts.
Context {F : Type} {ops : FloatOps F} {lm : Libm F}.
Import ChatterMemory.

Lemma saveToFlash_events (m : ChatterMemory.t F) : events (saveToFlash m) = events m.
Proof. done. Qed.

Lemma saveToFlash_histogram (m : ChatterMemory.t F) :
  chatterFreqHistogram (saveToFlash m) = chatterFreqHistogram m.
Proof. done. Qed.

Lemma recordEvent_events (m : ChatterMemory.t F) (e : ChatterEvent.t F) :
  events (recordEvent m e) =
  if MAX_EVENTS <? Z.of_nat (length (events m ++ [e]))
  then tail (events m ++ [e]) else events m ++ [e].
Proof. done. Qed.

Lemma recordEvent_histogram (m : ChatterMemory.t F) (e : ChatterEvent.t F) :
  chatterFreqHistogram (recordEvent m e) =
  let freqBin := to_int (ChatterEvent.frequency e /. of_Z 100) in
  if (0 <=? freqBin) && (freqBin <? 100)
  then bump (chatterFreqHistogram m) freqBin 1
  else chatterFreqHistogram m.
Proof. done. Qed.

(** [recordEvent] keeps the most recent 50 events. *)
Lemma recordEvent_events_drop (m : ChatterMemory.t F) (e : ChatterEvent.t F) :
  (length (events m) <= 50)%nat ->
  events (recordEvent m e) =
  drop (length (events m ++ [e]) - 50) (events m ++ [e]).
Proof.
  intros Hlen. rewrite recordEvent_events. unfold MAX_EVENTS.
  rewrite length_app. cbn [length].
  destruct (50 <? Z.of_nat (length (events m) + 1)) eqn:Hc.
  - apply Z.ltb_lt in Hc.
    replace (length (events m) + 1 - 50)%nat with 1%nat by lia.
    by destruct (events m ++ [e]).
  - apply Z.ltb_ge in Hc.
    by replace (length (events m) + 1 - 50)%nat with 0%nat by lia.
Qed.

Lemma recordEvents_events_drop (es : list (ChatterEvent.t F)) (m : ChatterMemory.t F) :
  (length (events m) <= 50)%nat ->
  events (recordEvents m es) =
  drop (length (events m ++ es) - 50) (events m ++ es).
Proof.
  revert m. induction es as [|e es IH]; intros m Hlen.
  - cbn. rewrite app_nil_r.
    by replace (length (events m) - 50)%nat with 0%nat by lia.
  - change (recordEvents m (e :: es)) with (recordEvents (recordEvent m e) es).
    assert (Hev := recordEvent_events_drop m e Hlen).
    assert (length (events (recordEvent m e)) <= 50)%nat as Hlen1.
    { rewrite Hev, length_drop, length_app. cbn [length]. lia. }
    rewrite (IH _ Hlen1), Hev.
    set (l := events m ++ [e]).
    assert (length l <= 51)%nat as Hl by (subst l; rewrite length_app; cbn [length]; lia).
    replace (events m ++ e :: es) with (l ++ es) by (subst l; by rewrite <- app_assoc).
    rewrite <- (drop_app_le l es) by lia.
    rewrite drop_drop. f_equal.
    rewrite length_drop, !length_app. lia.
Qed.

End MemoryFacts.

Section FloorFacts.
Import XQ ChatterMemory.
Local Open Scope Qc_scope.

Lemma xq_to_int_floor (q : Qc) :
  0 <= q -> to_int (XFin q /. of_Z 100) = Qfloor (q / inject_Z 100)%Q.
Proof.
  intros Hq.
  change (of_Z 100 : xq) with (XFin (Qc_of_Z 100)).
  rewrite xq_div_fin by (by apply Qc_of_Z_nonzero).
  cbn [to_int exact xq_to_int].
  set (r := q / Qc_of_Z 100).
  assert (0 <= r) as Hr.
  { subst r. unfold Qcdiv. apply Qcmult_nonneg_nonneg; [done|].
    apply Qclt_le_weak, Qcinv_pos. rewrite <- Z2Qc_inj_0. by apply Z2Qc_inj_lt. }
  assert (Qfloor (q / inject_Z 100)%Q = Qfloor r) as ->.
  { apply Qfloor_comp. subst r. unfold Qcdiv, Qcmult, Qcinv, Q2Qc. cbn [this].
    rewrite !Qred_correct. reflexivity. }
  clearbody r. destruct r as [[n d] Hc].
  unfold Qcle, Qle in Hr. simpl in Hr. cbn [Qnum Qden this].
  apply Z.quot_div_nonneg; lia.
Qed.

Lemma floor_hundredth_nonneg (q : Qc) :
  0 <= q -> (0 <= Qfloor (q / inject_Z 100)%Q)%Z.
Proof.
  intros Hq. change 0%Z with (Qfloor 0). apply Qfloor_resp_le.
  apply Qmult_le_0_compat; [exact Hq|]. by vm_compute.
Qed.

End FloorFacts.


(** C8.  [recordEvent] appends the event, evicts the oldest event (the head
    of the list, which is in insertion order) whenever the count would
    exceed 50, and increments (on 16 bits) the histogram bin
    [floor(frequency/100)], for a frequency that is not negative and whose
    bin is below 100; so after 51 calls (on an empty memory, or on any
    memory of at most 50 events) exactly 50 events remain, those of the last
    50 calls: the first one inserted is gone; and the number of events never
    exceeds 50. *)
Theorem recordEvent_keeps_last_50 :
  (forall (m : ChatterMemory.t XQ.xq) (e : ChatterEvent.t XQ.xq) (q : Qc),
      ChatterEvent.frequency e = XQ.XFin q -> (0 <= q)%Qc ->
      Qfloor (q / inject_Z 100)%Q < 100 ->
      let bin := Z.to_nat (Qfloor (q / inject_Z 100)%Q) in
      let m' := ChatterMemory.recordEvent m e in
      ChatterMemory.events m'
      = (if 50 <? Z.of_nat (length (ChatterMemory.events m ++ [e]))
         then tail (ChatterMemory.events m ++ [e])
         else ChatterMemory.events m ++ [e])
      /\ ChatterMemory.chatterFreqHistogram m' !! bin
         = (fun c => (c + 1) mod 2 ^ 16) <$> ChatterMemory.chatterFreqHistogram m !! bin
      /\ (forall j, j <> bin ->
            ChatterMemory.chatterFreqHistogram m' !! j
            = ChatterMemory.chatterFreqHistogram m !! j))
  /\ (forall (m : ChatterMemory.t XQ.xq) (es : list (ChatterEvent.t XQ.xq)),
        (length (ChatterMemory.events m) <= 50)%nat ->
        length es = 51%nat ->
        let m' := ChatterMemory.recordEvents m es in
        ChatterMemory.events m' = tail es
        /\ length (ChatterMemory.events m') = 50%nat)
  /\ (forall (m : ChatterMemory.t XQ.xq) (es : list (ChatterEvent.t XQ.xq)),
        (length (ChatterMemory.events m) <= 50)%nat ->
        (length (ChatterMemory.events (ChatterMemory.recordEvents m es)) <= 50)%nat).
Proof.
  split; [|split].
  - intros m e q Hf Hq Hbin bin m'. subst m'.
    split; [apply recordEvent_events|].
    rewrite recordEvent_histogram. cbv zeta.
    rewrite Hf, (xq_to_int_floor q Hq).
    pose proof (floor_hundredth_nonneg q Hq) as H0.
    destruct (0 <=? _) eqn:E1; [|apply Z.leb_gt in E1; lia].
    destruct (_ <? 100) eqn:E2; [|apply Z.ltb_ge in E2; lia].
    cbn [andb]. unfold ChatterMemory.bump. split.
    + apply list_lookup_alter_eq.
    + intros j Hj. by apply list_lookup_alter_ne.
  - intros m es Hm Hlen m'. subst m'.
    rewrite recordEvents_events_drop by done.
    rewrite length_app, Hlen.
    replace (length (ChatterMemory.events m) + 51 - 50)%nat
      with (length (ChatterMemory.events m) + 1)%nat by lia.
    rewrite <- drop_drop, drop_app_length.
    split; [by destruct es|]. rewrite length_drop. lia.
  - intros m es Hlen. rewrite recordEvents_events_drop by done.
    rewrite length_drop. lia.
Qed.

Lemma recordEvent_keeps_last_50_witness :
  (let e := Sample.event 50 in
   let m := ChatterMemory.initial Sample.blank_flash in
   let m' := ChatterMemory.recordEvent m e in
   ChatterMemory.events m' = [e]
   /\ ChatterMemory.chatterFreqHistogram m' !! 15%nat = Some 1)
  /\ (let m' := ChatterMemory.recordEvents (ChatterMemory.initial Sample.blank_flash)
                  (Sample.events 51) in
      ChatterMemory.events m' = tail (Sample.events 51)
      /\ length (ChatterMemory.events m') = 50%nat)
  /\ (length (ChatterMemory.events
                (ChatterMemory.recordEvents (ChatterMemory.initial Sample.blank_flash)
                   (Sample.events 60))) <= 50)%nat.
Proof.
  destruct recordEvent_keeps_last_50 as (H1 & H2 & H3).
  split; [|split].
  - destruct (H1 (ChatterMemory.initial Sample.blank_flash) (Sample.event 50)
                (Qc_of_Z 1500) eq_refl) as (He & Hb & _).
    + by vm_compute.
    + by vm_compute.
    + split; [exact He|]. exact Hb.
  - apply H2; [cbn; lia|reflexivity].
  - apply H3. cbn. lia.
Defined.

(** ** ChatterMemory: the flash round trip *)

Section FlashFacts.
Context {F : Type}.
Import ChatterMemory.

Lemma evt_key_unfold (i : Z) :
  evt_key i = String "e"%char (String "v"%char (String "t"%char (pretty i))).
Proof. reflexivity. Qed.

Lemma evt_key_inj (i j : Z) : evt_key i = evt_key j -> i = j.
Proof.
  rewrite !evt_key_unfold. intros H. injection H as H. by apply (inj pretty) in H.
Qed.

Lemma evt_key_not_histogram (i : Z) : evt_key i <> "histogram".
Proof. rewrite evt_key_unfold. discriminate. Qed.

Lemma evt_key_not_eventCount (i : Z) : evt_key i <> "eventCount".
Proof. rewrite evt_key_unfold. discriminate. Qed.

Lemma saveLoop_S (evs : list (ChatterEvent.t F)) n p :
  saveLoop evs (S n) p =
  match evs !! Z.to_nat (Z.of_nat (length evs) - 1 - Z.of_nat n) with
  | Some e => putBytes (evt_key (Z.of_nat n)) (EventImage e) (saveLoop evs n p)
  | None => saveLoop evs n p
  end.
Proof.
  unfold saveLoop, range. rewrite !Z.sub_0_r, seqZ_S, fold_left_app. done.
Qed.

Lemma saveLoop_other (evs : list (ChatterEvent.t F)) n p key :
  (forall i, 0 <= i < Z.of_nat n -> key <> evt_key i) ->
  saveLoop evs n p !! key = p !! key.
Proof.
  induction n as [|n IH]; intros Hkey; [done|].
  rewrite saveLoop_S.
  destruct (evs !! _) as [e|].
  - unfold putBytes. rewrite lookup_insert_ne.
    + apply IH. intros i Hi. apply Hkey. lia.
    + intros Heq. apply (Hkey (Z.of_nat n)); [lia|done].
  - apply IH. intros i Hi. apply Hkey. lia.
Qed.

Lemma saveLoop_evt (evs : list (ChatterEvent.t F)) n p (i : nat) :
  (i < n)%nat -> (n <= length evs)%nat ->
  saveLoop evs n p !! evt_key (Z.of_nat i) =
  (fun e => NvsBlob (EventImage e)) <$> evs !! (length evs - 1 - i)%nat.
Proof.
  induction n as [|n IH]; intros Hi Hn; [lia|].
  rewrite saveLoop_S.
  replace (Z.to_nat (Z.of_nat (length evs) - 1 - Z.of_nat n))
    with (length evs - 1 - n)%nat by lia.
  destruct (evs !! (length evs - 1 - n)%nat) as [e|] eqn:He.
  - unfold putBytes. destruct (decide (i = n)) as [->|Hne].
    + by rewrite lookup_insert_eq, He.
    + rewrite lookup_insert_ne; [apply IH; lia|].
      intros Heq. apply evt_key_inj in Heq. lia.
  - apply lookup_ge_None in He. lia.
Qed.

Lemma omap_cons_list {A B} (f : A -> option B) (x : A) (l : list A) :
  omap f (x :: l) = option_list (f x) ++ omap f l.
Proof. cbn. by destruct (f x). Qed.

Lemma loadLoop_omap (p : gmap string (nvs_entry F)) (l : list Z) acc :
  fold_left (fun evs i =>
    match getBytes (evt_key i) sizeof_ChatterEvent p with
    | Some (EventImage e) => evs ++ [e]
    | _ => evs
    end) l acc = acc ++ omap (readEvent p) l.
Proof.
  revert acc. induction l as [|i l IH]; intros acc; cbn [fold_left].
  - by rewrite app_nil_r.
  - rewrite IH.
    rewrite omap_cons_list.
    rewrite app_assoc. f_equal. unfold readEvent.
    destruct (getBytes (evt_key i) sizeof_ChatterEvent p) as [[h|e]|];
      cbn; by rewrite ?app_nil_r.
Qed.

Lemma omap_reverse_range (g : Z -> option (ChatterEvent.t F))
    (evs : list (ChatterEvent.t F)) (n : nat) :
  (n <= length evs)%nat ->
  (forall i, (i < n)%nat -> g (Z.of_nat i) = evs !! (length evs - 1 - i)%nat) ->
  omap g (reverse (range 0 (Z.of_nat n))) = drop (length evs - n) evs.
Proof.
  induction n as [|n IH]; intros Hn Hg.
  - cbn. rewrite Nat.sub_0_r. by rewrite drop_all.
  - unfold range in * . rewrite !Z.sub_0_r in * . rewrite seqZ_S, reverse_snoc.
    rewrite omap_cons_list, Z.add_0_l, (Hg n) by lia.
    destruct (evs !! (length evs - 1 - n)%nat) as [e|] eqn:He.
    + cbn [option_list app]. rewrite IH; [|lia|intros i Hi; apply Hg; lia].
      replace (length evs - n)%nat with (S (length evs - S n)) by lia.
      symmetry. apply drop_S.
      by replace (length evs - S n)%nat with (length evs - 1 - n)%nat by lia.
    + apply lookup_ge_None in He. lia.
Qed.

Lemma save_then_load (m m0 : ChatterMemory.t F) :
  prefs m0 = prefs (saveToFlash m) ->
  chatterFreqHistogram (loadFromFlash m0) = chatterFreqHistogram m
  /\ events (loadFromFlash m0) = drop (length (events m) - 10) (events m).
Proof.
  intros Hp. unfold loadFromFlash. rewrite Hp. cbn [chatterFreqHistogram events].
  set (n := Z.to_nat (Z.min 10 (size m))).
  assert (Z.min 10 (size m) = Z.of_nat n) as Hn by (unfold size in * ; lia).
  assert (prefs (saveToFlash m) =
          saveLoop (events m) n
            (putInt "eventCount" (size m)
               (putBytes "histogram" (HistogramImage (chatterFreqHistogram m)) (prefs m))))
    as Hsave.
  { unfold saveToFlash, saveLoop. cbn [prefs]. rewrite Hn. reflexivity. }
  rewrite Hsave. split.
  - unfold getBytes. rewrite saveLoop_other.
    + unfold putInt, putBytes. rewrite lookup_insert_ne by done.
      by rewrite lookup_insert_eq.
    + intros i _ Heq. by apply (evt_key_not_histogram i).
  - assert (getInt "eventCount" 0 (saveLoop (events m) n
              (putInt "eventCount" (size m)
                 (putBytes "histogram" (HistogramImage (chatterFreqHistogram m)) (prefs m))))
            = size m) as ->.
    { unfold getInt. rewrite saveLoop_other.
      - unfold putInt. by rewrite lookup_insert_eq.
      - intros i _ Heq. by apply (evt_key_not_eventCount i). }
    replace (Z.min 9 (int_pred (size m)) + 1) with (Z.of_nat n).
    2:{ unfold int_pred. destruct (Z.eqb_spec (size m) (- 2 ^ 31)); unfold size in * ; lia. }
    rewrite loadLoop_omap. cbn [app].
    rewrite (omap_reverse_range _ (events m) n).
    + f_equal. unfold size in * . lia.
    + unfold size in * . lia.
    + intros i Hi. unfold readEvent, getBytes.
      rewrite saveLoop_evt by (unfold size in * ; lia).
      by destruct (events m !! _).
Qed.

End FlashFacts.

(** C7.  Saving and loading round-trips the learning state: when a memory
    is loaded from the flash contents that [saveToFlash] left, its histogram
    is the saved histogram, unchanged, and its event list is the 10 most
    recently recorded events (all of them when there are fewer than 10), in
    insertion order; older events are not restored.  This holds for every
    implementation of the arithmetic, whatever the flash held before and
    whatever the loading object held. *)
Theorem flash_round_trip {F : Type} (m m0 : ChatterMemory.t F) :
  ChatterMemory.prefs m0 = ChatterMemory.prefs (ChatterMemory.saveToFlash m) ->
  let m' := ChatterMemory.loadFromFlash m0 in
  ChatterMemory.chatterFreqHistogram m' = ChatterMemory.chatterFreqHistogram m
  /\ ChatterMemory.events m'
     = drop (length (ChatterMemory.events m) - 10) (ChatterMemory.events m).
Proof. apply save_then_load. Qed.

Lemma flash_round_trip_witness :
  let m := ChatterMemory.recordEvents (ChatterMemory.initial Sample.blank_flash)
             (Sample.events 12) in
  let m0 := ChatterMemory.initial (ChatterMemory.prefs (ChatterMemory.saveToFlash m)) in
  let m' := ChatterMemory.loadFromFlash m0 in
  ChatterMemory.chatterFreqHistogram m' = ChatterMemory.chatterFreqHistogram m
  /\ ChatterMemory.events m' = Sample.events_from 2 10.
Proof.
  intros m m0.
  destruct (flash_round_trip m m0 eq_refl) as [Hh He].
  split; [exact Hh|]. rewrite He. reflexivity.
Defined.

(** ** HarmonicDetector: the magnitude floor *)

Section HarmonicFacts.
Context {F : Type} {ops : FloatOps F}.

(** The peak search never returns more than the largest bin it has seen,
    as it stores it: a bound that holds for the start value and for every
    bin of the search band, rounded to [float], holds for the peak. *)
Lemma findPeak_below (magnitudes : list F) (bound : F) (l : list Z) (acc : F * Z) :
  (fst acc <. bound) = true ->
  (forall i, i ∈ l -> (narrow (magnitudes @@ i) <. bound) = true) ->
  (fst (fold_left (fun '(maxMag, maxBin) i =>
          if magnitudes @@ i >. maxMag
          then (narrow (magnitudes @@ i), i) else (maxMag, maxBin))
          l acc) <. bound) = true.
Proof.
  revert acc. induction l as [|i l IH]; intros [maxMag maxBin] Hacc Hl; [done|].
  cbn [fold_left]. apply IH.
  - destruct (magnitudes @@ i >. maxMag); cbn [fst]; [|done].
    apply Hl. by left.
  - intros j Hj. apply Hl. by right.
Qed.

Lemma analyze_below_floor (magnitudes : list F) (size : Z) (binWidth : F) :
  (of_Z 0 <. of_Z 100) = true ->
  (forall i,
      to_int (of_Z 500 /. binWidth) <= i
      < Z.min (Z.quot size 2) (to_int (of_Z 8000 /. binWidth)) ->
      (narrow (magnitudes @@ i) <. of_Z 100) = true) ->
  HarmonicDetector.analyze magnitudes size binWidth = (of_Z 0, of_Z 0).
Proof.
  intros H0 Hband. unfold HarmonicDetector.analyze, HarmonicDetector.findPeak.
  pose proof (findPeak_below magnitudes (of_Z 100)
    (range (to_int (of_Z 500 /. binWidth))
           (Z.min (Z.quot size 2) (to_int (of_Z 8000 /. binWidth))))
    (of_Z 0, 0) H0) as Hpeak.
  destruct (fold_left _ _ _) as [maxMag maxBin]. cbn [fst] in Hpeak.
  rewrite Hpeak; [done|].
  intros i Hi. apply Hband. unfold range in Hi.
  apply elem_of_seqZ in Hi. lia.
Qed.

Context {lm : Libm F}.

Lemma AdvancedDSP_analyze_harmonic (s : AdvancedDSP.t F) (mags : list F) (size : Z)
    (vib mic : F) (millis : Z) :
  let r := snd (AdvancedDSP.analyze s mags size vib mic millis) in
  let h := HarmonicDetector.analyze mags size (AdvancedDSP.binWidth s) in
  AdvancedDSP.harmonicStrength r = fst h /\ AdvancedDSP.dominantFreq r = snd h.
Proof.
  cbv zeta. unfold AdvancedDSP.analyze.
  by destruct (HarmonicDetector.analyze mags size (AdvancedDSP.binWidth s)).
Qed.
End HarmonicFacts.

Lemma forallb_range (P : Z -> bool) (lo hi : Z) :
  forallb P (range lo hi) = true -> forall i, lo <= i < hi -> P i = true.
Proof.
  intros H i Hi. rewrite forallb_forall in H. apply H.
  apply list_elem_of_In, elem_of_seqZ. lia.
Qed.

(** With the deployed sampling (16 kHz, 1024 samples) the bin width is
    15.625 Hz and the search band is the bins 32 to 511: 500 Hz to
    7984.375 Hz. *)
Lemma deployed_search_band :
  let binWidth : spec_float := of_Z 16000 /. of_Z 1024 in
  binWidth = lit 15625 1000
  /\ to_int (of_Z 500 /. binWidth) = 32
  /\ Z.min (Z.quot 1024 2) (to_int (of_Z 8000 /. binWidth)) = 512
  /\ of_Z 32 *. binWidth = of_Z 500
  /\ of_Z 511 *. binWidth = lit 7984375 1000.
Proof. by vm_compute. Qed.

(** The floor in terms of frequencies, at the deployed sampling: when every
    bin whose frequency lies between 500 Hz and 8000 Hz is, rounded to
    [float], below the magnitude 100, no fundamental is reported. *)
Lemma harmonic_floor_deployed (magnitudes : list spec_float) :
  let binWidth : spec_float := of_Z 16000 /. of_Z 1024 in
  (forall i,
      (of_Z 500 <=. of_Z i *. binWidth) = true ->
      (of_Z i *. binWidth <=. of_Z 8000) = true ->
      (narrow (magnitudes @@ i) <. of_Z 100) = true) ->
  HarmonicDetector.analyze magnitudes 1024 binWidth = (of_Z 0, of_Z 0).
Proof.
  intros binWidth Hband. apply analyze_below_floor; [reflexivity|].
  destruct deployed_search_band as (_ & Hlo & Hhi & _).
  fold binWidth in Hlo, Hhi. rewrite Hlo, Hhi. intros i Hi.
  assert (forallb
    (fun i => (of_Z 500 <=. of_Z i *. binWidth) && (of_Z i *. binWidth <=. of_Z 8000))
    (range 32 512) = true) as Hall by (by vm_compute).
  pose proof (forallb_range _ _ _ Hall i Hi) as Hin. cbv beta in Hin.
  apply andb_prop in Hin as [H1 H2]. by apply Hband.
Qed.

(** Above the floor the same harmonic pattern is detected: a fundamental at
    1500 Hz with all three harmonics present gives the strength 1. *)
Lemma analyze_loud_harmonics :
  HarmonicDetector.analyze Sample.loud_harmonics 1024 (of_Z 16000 /. of_Z 1024)
  = (of_Z 1, of_Z 1500).
Proof. by vm_compute. Qed.

(** C10 does not hold as stated: in the spectrum [Sample.near_floor], at
    the deployed sampling, every bin of the search band is below 100 (bin
    96 holds the [double] 99.999999, the others 0).  The running maximum is
    a [float]: it takes the value 100, the test [maxMag < 100] fails, and
    the fundamental 1500 Hz is reported as the dominant frequency. *)
Lemma floor_test_is_on_the_rounded_peak :
  let s := AdvancedDSP.initial (F := spec_float) in
  let r := snd (AdvancedDSP.analyze (lm := Sample.libm32) s Sample.near_floor 1024
                  (of_Z 0) (of_Z 0) 0) in
  (forall i,
      to_int (of_Z 500 /. AdvancedDSP.binWidth s) <= i
      < Z.min (Z.quot 1024 2) (to_int (of_Z 8000 /. AdvancedDSP.binWidth s)) ->
      (Sample.near_floor @@ i <. of_Z 100) = true)
  /\ narrow (Sample.near_floor @@ 96) = of_Z 100
  /\ HarmonicDetector.analyze Sample.near_floor 1024 (AdvancedDSP.binWidth s)
     = (of_Z 0, of_Z 1500)
  /\ AdvancedDSP.dominantFreq r = of_Z 1500
  /\ AdvancedDSP.dominantFreq r <> of_Z 0.
Proof.
  intros s r.
  assert (HarmonicDetector.analyze Sample.near_floor 1024 (AdvancedDSP.binWidth s)
          = (of_Z 0, of_Z 1500)) as Ha by (by vm_compute).
  assert (AdvancedDSP.dominantFreq r = of_Z 1500) as Hd.
  { subst r.
    destruct (AdvancedDSP_analyze_harmonic (lm := Sample.libm32) s Sample.near_floor 1024
                (of_Z 0) (of_Z 0) 0) as [_ Hf].
    cbv zeta in Hf. rewrite Hf, Ha. done. }
  split; [|split; [by vm_compute|split; [exact Ha|split; [exact Hd|by rewrite Hd]]]].
  apply (forallb_range (fun i => Sample.near_floor @@ i <. of_Z 100)). by vm_compute.
Qed.

(** C10, amended.  For every spectrum in which no bin of the search band
    (from 500 Hz up to 8000 Hz: the bins from [(int)(500 / binWidth)] up to,
    not including, [min(size/2, (int)(8000 / binWidth))]), rounded to
    [float] as the code stores it, reaches the magnitude 100,
    [HarmonicDetector.analyze] returns the harmonic strength 0 and sets the
    fundamental to 0, so [AdvancedResult.dominantFreq] is 0 for that cycle,
    whatever pattern the bins below the floor form.  This holds for every
    implementation of the arithmetic that puts 0 below 100. *)
Theorem harmonic_magnitude_floor {F : Type} {ops : FloatOps F} {lm : Libm F}
    (s : AdvancedDSP.t F) (fftMagnitudes : list F) (fftSize : Z)
    (vibMagnitude micRMS : F) (millis : Z) :
  (of_Z 0 <. of_Z 100) = true ->
  (forall i,
      to_int (of_Z 500 /. AdvancedDSP.binWidth s) <= i
      < Z.min (Z.quot fftSize 2) (to_int (of_Z 8000 /. AdvancedDSP.binWidth s)) ->
      (narrow (fftMagnitudes @@ i) <. of_Z 100) = true) ->
  let r := snd (AdvancedDSP.analyze s fftMagnitudes fftSize vibMagnitude micRMS millis) in
  HarmonicDetector.analyze fftMagnitudes fftSize (AdvancedDSP.binWidth s)
  = (of_Z 0, of_Z 0)
  /\ AdvancedDSP.harmonicStrength r = of_Z 0
  /\ AdvancedDSP.dominantFreq r = of_Z 0.
Proof.
  intros H0 Hband r. subst r.
  destruct (AdvancedDSP_analyze_harmonic s fftMagnitudes fftSize vibMagnitude micRMS millis)
    as [Hh Hf].
  rewrite Hh, Hf, (analyze_below_floor _ _ _ H0 Hband). done.
Qed.

Lemma harmonic_magnitude_floor_witness :
  let s := AdvancedDSP.initial (F := spec_float) in
  let r := snd (AdvancedDSP.analyze (lm := Sample.libm32) s Sample.quiet_harmonics 1024
                  (of_Z 0) (of_Z 0) 0) in
  (Sample.quiet_harmonics @@ 96 = of_Z 90
   /\ Sample.quiet_harmonics @@ 192 = of_Z 90
   /\ Sample.quiet_harmonics @@ 288 = of_Z 90
   /\ Sample.quiet_harmonics @@ 384 = of_Z 90)
  /\ HarmonicDetector.analyze Sample.quiet_harmonics 1024 (AdvancedDSP.binWidth s)
     = (of_Z 0, of_Z 0)
  /\ AdvancedDSP.harmonicStrength r = of_Z 0
  /\ AdvancedDSP.dominantFreq r = of_Z 0.
Proof.
  intros s r. split; [by vm_compute|].
  apply (harmonic_magnitude_floor (lm := Sample.libm32) s Sample.quiet_harmonics 1024).
  - reflexivity.
  - apply (forallb_range (fun i => narrow (Sample.quiet_harmonics @@ i) <. of_Z 100)).
    by vm_compute.
Defined.

(** ** AdvancedDSP: the fused score *)

(** C5.  On every [AdvancedDSP.analyze] call the fused [chatterScore] is the
    weighted sum of the applied features over the sum of the applied
    weights, times 100, where harmonic strength has weight 30, spectral
    narrowness 20, frequency stability 15 and the crest-factor score 10
    always, the stability-lobe match has weight 20 only when the tooth-pass
    frequency is above 10 Hz, and the stall oscillation has weight 25 only
    when an axis has stall data; a feature whose precondition fails is left
    out of both sums. *)
Theorem fused_score_formula (lm : Libm XQ.xq) (s : AdvancedDSP.t XQ.xq)
    (fftMagnitudes : list XQ.xq) (fftSize : Z) (vibMagnitude micRMS : XQ.xq) (millis : Z) :
  let s' := fst (AdvancedDSP.analyze s fftMagnitudes fftSize vibMagnitude micRMS millis) in
  let r := snd (AdvancedDSP.analyze s fftMagnitudes fftSize vibMagnitude micRMS millis) in
  AdvancedDSP.chatterScore r =
  Fusion.fused
    (Fusion.applied r
       (CrestFactorAnalyzer.getChatterScore (AdvancedDSP.crestAnalyzer s'))
       (StabilityLobePredictor.getToothPassFreq (AdvancedDSP.stabilityLobe s))
       (StallGuardAnalyzer.hasData (AdvancedDSP.stallGuard s))).
Proof.
  cbv zeta. unfold AdvancedDSP.analyze.
  destruct (HarmonicDetector.analyze fftMagnitudes fftSize (AdvancedDSP.binWidth s))
    as [h fundamental].
  cbn [fst snd AdvancedDSP.chatterScore AdvancedDSP.crestAnalyzer].
  unfold AdvancedDSP.fuse, Fusion.fused, Fusion.applied, Fusion.weighted_sum,
    Fusion.weight_total.
  cbn [AdvancedDSP.harmonicStrength AdvancedDSP.spectralNarrowness
       AdvancedDSP.freqStability AdvancedDSP.stabilityLobeMatch
       AdvancedDSP.stallGuardScore].
  destruct (StabilityLobePredictor.getToothPassFreq (AdvancedDSP.stabilityLobe s)
            >. of_Z 10);
    destruct (StallGuardAnalyzer.hasData (AdvancedDSP.stallGuard s));
    cbn [app fold_left fmap list_fmap foldr snd].
  all: match goal with
       | |- context [ ?w >. of_Z 0 ] =>
           match goal with
           | |- context [ of_Z ?z *. of_Z 100 ] => idtac
           | |- context [ _ /. of_Z ?z ] =>
               assert (w = of_Z z) as ->
                 by (cbn [fadd of_Z XQ.exact XQ.xq_add XQ.xq_of_Z]; apply xq_fin_eq;
                     vm_compute; reflexivity)
           end
       end.
  all: match goal with
       | |- context [ ?a >. of_Z 0 ] =>
           replace (a >. of_Z 0) with true by (by vm_compute)
       end.
  all: reflexivity.
Qed.

(** ** ChatterMemory: the predicted feed reduction *)

Section PredictionFacts.
Context {F : Type} {ops : FloatOps F} {lm : Libm F}.

Lemma predict_loop (f0 r0 : F) (es : list (ChatterEvent.t F)) (tw wr : F) :
  fold_left (fun '(totalWeight, weightedReduction) e =>
      if negb (ChatterEvent.resolved e) then (totalWeight, weightedReduction)
      else
        let freqDiff := fabs (ChatterEvent.frequency e -. f0) /. of_Z 500 in
        let rpmDiff := fabs (ChatterEvent.spindleRPM e -. r0) /. of_Z 3000 in
        let weight := fexp (fneg (freqDiff +. rpmDiff)) in
        (totalWeight +. weight,
         weightedReduction +. weight *. ChatterEvent.feedReduction e))
    es (tw, wr)
  = (fold_left (fun acc e => acc +. Prediction.weight f0 r0 e)
       (filter (fun e => ChatterEvent.resolved e = true) es) tw,
     fold_left (fun acc e =>
         acc +. Prediction.weight f0 r0 e *. ChatterEvent.feedReduction e)
       (filter (fun e => ChatterEvent.resolved e = true) es) wr).
Proof.
  revert tw wr. induction es as [|e es IH]; intros tw wr; [done|].
  cbn [fold_left]. rewrite filter_cons.
  destruct (ChatterEvent.resolved e) eqn:Hr; cbn [negb].
  - rewrite decide_True by done. cbn [fold_left]. apply IH.
  - rewrite decide_False by done. apply IH.
Qed.

Lemma predictFeedReduction_unfold (m : ChatterMemory.t F) (f0 r0 : F) :
  ChatterMemory.predictFeedReduction m f0 r0 =
  if Prediction.total_weight m f0 r0 >. dlit 1 10
  then Prediction.weighted_average m f0 r0
  else of_Z 20.
Proof.
  unfold ChatterMemory.predictFeedReduction. rewrite predict_loop. done.
Qed.
End PredictionFacts.



(** In single precision the sum 0.1 (the [float] nearest to 1/10) exceeds
    the cut-off, and the sum just below it does not. *)
Lemma binary32_cutoff :
  (lit 1 10 >. (dlit 1 10 : spec_float)) = true
  /\ (SFpred Binary32.prec Binary32.emax (lit 1 10) >. (dlit 1 10 : spec_float)) = false.
Proof. by vm_compute. Qed.




(** ** AdaptiveChatterDetector: the state machine *)

Section StateMachineFacts.
Context {F : Type} {ops : FloatOps F} {lm : Libm F}.
Import AdaptiveChatterDetector.

Lemma updateState_recovering (d : AdaptiveChatterDetector.t F) score freq now stamp :
  currentState d = RECOVERING ->
  updateState d score freq now stamp =
  if score >. of_Z 60 then set_lastChatterTime (set_state d CHATTER) now
  else if (score <. of_Z 25) && (5000 <? (now - lastChatterTime d) mod 2 ^ 32)
       then set_suggestedFeed (set_state d MONITORING) (of_Z 100)
       else d.
Proof. intros Hs. unfold updateState. by rewrite Hs. Qed.

Lemma updateState_enter_chatter (d : AdaptiveChatterDetector.t F) score freq now stamp :
  currentState d = MONITORING \/ currentState d = WARNING ->
  (score >. of_Z 70) = true ->
  let d' := updateState d score freq now stamp in
  currentState d' = CHATTER
  /\ lastChatterTime d' = now
  /\ memory d' = ChatterMemory.recordEvent (memory d) (chatterEventOf d freq score stamp)
  /\ suggestedFeed d' =
     ChatterMemory.predictFeedReduction (memory d') freq (spindleRPM d).
Proof.
  intros [Hs|Hs] Hsc; unfold updateState; rewrite Hs, Hsc; done.
Qed.

Context {ord : FloatOrder F}.

Lemma above_70_above_40 (x : F) : (x >. of_Z 70) = true -> (x >. of_Z 40) = true.
Proof. intros H. exact (flt_trans _ _ _ flt_40_70 H). Qed.

Lemma below_25_not_above_60 (x : F) : (x <. of_Z 25) = true -> (x >. of_Z 60) = false.
Proof.
  intros H. destruct (x >. of_Z 60) eqn:E; [|done].
  pose proof (flt_trans _ _ _ (flt_trans _ _ _ flt_25_60 E) H) as Hbad.
  by rewrite flt_irrefl in Hbad.
Qed.

Lemma updateState_monitoring_low (d : AdaptiveChatterDetector.t F) score freq now stamp :
  currentState d = MONITORING -> (score >. of_Z 40) = false ->
  updateState d score freq now stamp = d.
Proof.
  intros Hs H40. unfold updateState. rewrite Hs, H40.
  destruct (score >. of_Z 70) eqn:H70; [|done].
  apply above_70_above_40 in H70. congruence.
Qed.

Lemma updateState_monitoring_high (d : AdaptiveChatterDetector.t F) score freq now stamp :
  currentState d = MONITORING -> (score >. of_Z 40) = true ->
  currentState (updateState d score freq now stamp)
  = if score >. of_Z 70 then CHATTER else WARNING.
Proof.
  intros Hs H40. unfold updateState. rewrite Hs, H40.
  by destruct (score >. of_Z 70).
Qed.

Lemma run_monitoring_low (d : AdaptiveChatterDetector.t F) (pre : list (Step F)) :
  currentState d = MONITORING ->
  (forall y, y ∈ pre -> (s_score y >. of_Z 40) = false) ->
  run d pre = d /\ (forall st, st ∈ trace d pre -> st = MONITORING).
Proof.
  intros Hs. induction pre as [|y pre IH]; intros Hlow.
  - split; [done|]. intros st Hst. by apply elem_of_nil in Hst.
  - assert (step d y = d) as Hstep.
    { apply updateState_monitoring_low; [done|]. apply Hlow. by left. }
    destruct IH as [Hrun Htr]; [intros z Hz; apply Hlow; by right|].
    unfold run in * . cbn [fold_left trace]. rewrite Hstep. split; [done|].
    intros st Hst. apply elem_of_cons in Hst as [->|Hst]; [done|by apply Htr].
Qed.

Lemma step_calm (d : AdaptiveChatterDetector.t F) (y : Step F) :
  calm (currentState d) -> (s_score y >. of_Z 70) = false ->
  calm (currentState (step d y)).
Proof.
  intros [Hs|Hs] H70; unfold step, updateState; rewrite Hs, H70.
  - destruct (s_score y >. of_Z 40); [by right|by left].
  - destruct (s_score y <. of_Z 30); [by left|by right].
Qed.

Lemma run_calm (pre : list (Step F)) (d : AdaptiveChatterDetector.t F) :
  calm (currentState d) ->
  (forall y, y ∈ pre -> (s_score y >. of_Z 70) = false) ->
  calm (currentState (run d pre)) /\ (forall st, st ∈ trace d pre -> calm st).
Proof.
  revert d. induction pre as [|y pre IH]; intros d Hs Hlow.
  - split; [done|]. intros st Hst. by apply elem_of_nil in Hst.
  - assert (calm (currentState (step d y))) as Hc.
    { apply step_calm; [done|]. apply Hlow. by left. }
    destruct (IH (step d y) Hc) as [Hrun Htr]; [intros z Hz; apply Hlow; by right|].
    unfold run in * . cbn [fold_left trace]. split; [done|].
    intros st Hst. apply elem_of_cons in Hst as [->|Hst]; [done|by apply Htr].
Qed.

End StateMachineFacts.

Section UpdateFacts.
Context {F : Type} {ops : FloatOps F} {lm : Libm F}.
Import AdaptiveChatterDetector.

Lemma updateState_smoothedScore (d : AdaptiveChatterDetector.t F) score freq now stamp :
  smoothedScore (updateState d score freq now stamp) = smoothedScore d.
Proof.
  unfold updateState.
  destruct (currentState d);
    repeat match goal with
      | |- context [ if ?c then _ else _ ] => destruct c
      end; reflexivity.
Qed.

(** Outside calibration [update] computes the new smoothed score and ends
    with [updateState] on it; the scoring leaves what the state machine
    reads as it was. *)
Lemma update_ends_with_updateState (d : AdaptiveChatterDetector.t F)
    (fftMagnitudes : list F) (fftSize0 : Z) (vibMagnitude micRMS : F) (clk : Clock) :
  currentState d <> CALIBRATING ->
  exists (d1 : AdaptiveChatterDetector.t F) (dominantFreq : F),
    update d fftMagnitudes fftSize0 vibMagnitude micRMS clk
    = updateState d1 (smoothedScore d1) dominantFreq (at_state clk) (at_event clk)
    /\ currentState d1 = currentState d
    /\ memory d1 = memory d
    /\ lastChatterTime d1 = lastChatterTime d
    /\ suggestedFeed d1 = suggestedFeed d
    /\ feedRate d1 = feedRate d
    /\ spindleRPM d1 = spindleRPM d
    /\ exists rawScore : F,
         smoothedScore d1
         = smoothedScore d *. lit 7 10 +. fmin (of_Z 100) rawScore *. lit 3 10.
Proof.
  intros Hs. unfold update.
  rewrite bool_decide_eq_false_2 by done.
  destruct (AdvancedDSP.analyze _ _ _ _ _ _) as [dsp adv].
  destruct (ChatterMemory.getPredictedChatterRange _ _) as [lowHz highHz].
  match goal with
  | |- context [ let '(_, _) := ?p in _ ] => destruct p as [raw learned]
  end.
  lazymatch goal with
  | |- exists d1 f, updateState ?R _ ?Fq _ _ = _ /\ _ => exists R, Fq
  end.
  split; [reflexivity|]. cbn. repeat (split; [reflexivity|]). by eexists.
Qed.

Lemma update_recovering_retrigger (d : AdaptiveChatterDetector.t F)
    (fftMagnitudes : list F) (fftSize0 : Z) (vibMagnitude micRMS : F) (clk : Clock) :
  currentState d = RECOVERING ->
  let d' := update d fftMagnitudes fftSize0 vibMagnitude micRMS clk in
  (smoothedScore d' >. of_Z 60) = true ->
  currentState d' = CHATTER
  /\ lastChatterTime d' = at_state clk
  /\ memory d' = memory d
  /\ suggestedFeed d' = suggestedFeed d.
Proof.
  intros Hs d'. subst d'.
  destruct (update_ends_with_updateState d fftMagnitudes fftSize0 vibMagnitude micRMS clk)
    as (d1 & f & -> & Hs1 & Hm & Ht & Hf & _); [congruence|].
  rewrite updateState_smoothedScore. intros Hsc.
  rewrite updateState_recovering by congruence. rewrite Hsc. cbn.
  by rewrite Hm, Hf.
Qed.

Context {ord : FloatOrder F}.

Lemma updateState_recovering_monitoring (d : AdaptiveChatterDetector.t F)
    score freq now stamp :
  currentState d = RECOVERING ->
  let d' := updateState d score freq now stamp in
  (currentState d' = MONITORING <->
   (score <. of_Z 25) = true /\ 5000 < (now - lastChatterTime d) mod 2 ^ 32)
  /\ (currentState d' = MONITORING -> suggestedFeed d' = of_Z 100).
Proof.
  intros Hs. cbv zeta. rewrite updateState_recovering by done.
  destruct (score >. of_Z 60) eqn:H60.
  - split.
    + split; [cbn; discriminate|]. intros [H25 _].
      apply below_25_not_above_60 in H25. congruence.
    + cbn. discriminate.
  - destruct (score <. of_Z 25) eqn:H25; cbn [andb].
    + destruct (5000 <? (now - lastChatterTime d) mod 2 ^ 32) eqn:Ht.
      * apply Z.ltb_lt in Ht. split; [by split|done].
      * apply Z.ltb_ge in Ht. rewrite Hs. split; [|discriminate].
        split; [discriminate|]. intros [_ Hlt]. lia.
    + rewrite Hs. split; [|discriminate]. split; [discriminate|]. by intros [? _].
Qed.

Lemma update_recovering_monitoring (d : AdaptiveChatterDetector.t F)
    (fftMagnitudes : list F) (fftSize0 : Z) (vibMagnitude micRMS : F) (clk : Clock) :
  currentState d = RECOVERING ->
  let d' := update d fftMagnitudes fftSize0 vibMagnitude micRMS clk in
  (currentState d' = MONITORING <->
   (smoothedScore d' <. of_Z 25) = true
   /\ 5000 < (at_state clk - lastChatterTime d) mod 2 ^ 32)
  /\ (currentState d' = MONITORING -> suggestedFeed d' = of_Z 100).
Proof.
  intros Hs d'. subst d'.
  destruct (update_ends_with_updateState d fftMagnitudes fftSize0 vibMagnitude micRMS clk)
    as (d1 & f & -> & Hs1 & Hm & Ht & Hf & _); [congruence|].
  rewrite updateState_smoothedScore, <- Ht.
  apply updateState_recovering_monitoring. congruence.
Qed.
End UpdateFacts.


Section Smoothing.
Import AdaptiveChatterDetector.
Context {F : Type} {ops : FloatOps F} {lm : Libm F}.

Lemma startCalibration_keeps_smoothedScore (d : AdaptiveChatterDetector.t F) :
  smoothedScore (startCalibration d) = smoothedScore d.
Proof. reflexivity. Qed.

Lemma update_calibrating_keeps_smoothedScore (d : AdaptiveChatterDetector.t F)
    (fftMagnitudes : list F) (fftSize0 : Z) (vibMagnitude micRMS : F) (clk : Clock) :
  currentState d = CALIBRATING ->
  smoothedScore (update d fftMagnitudes fftSize0 vibMagnitude micRMS clk) = smoothedScore d.
Proof.
  intros Hs. unfold update. by rewrite bool_decide_eq_true_2.
Qed.
End Smoothing.

Lemma xq_lit (n d : Z) : d <> 0 -> (lit n d : XQ.xq) = XQ.XFin (Qc_of_Z n / Qc_of_Z d)%Qc.
Proof.
  intros Hd. unfold lit. change (of_Z n : XQ.xq) with (XQ.XFin (Qc_of_Z n)).
  change (of_Z d : XQ.xq) with (XQ.XFin (Qc_of_Z d)).
  apply xq_div_fin. by apply Qc_of_Z_nonzero.
Qed.

Lemma smoothing_cannot_jump (s : Qc) (raw : XQ.xq) :
  (s <= Qc_of_Z 40)%Qc ->
  (XQ.XFin s *. lit 7 10 +. fmin (of_Z 100) raw *. lit 3 10 >. of_Z 70) = false.
Proof.
  intros Hs. rewrite !xq_lit by done.
  assert (forall r : Qc, (r <= Qc_of_Z 100)%Qc ->
            (XQ.XFin s *. XQ.XFin (Qc_of_Z 7 / Qc_of_Z 10)%Qc
             +. XQ.XFin r *. XQ.XFin (Qc_of_Z 3 / Qc_of_Z 10)%Qc >. of_Z 70) = false) as Hfin.
  { intros r Hr. apply xq_ltb_fin_false.
    unfold Qcle in * . cbn in Hs, Hr |- * .
    rewrite !Qred_correct.
    revert Hs Hr. generalize (this s) (this r). intros a b Ha Hb.
    change (inject_Z 40) with 40%Q in Ha. change (inject_Z 100) with 100%Q in Hb.
    change (inject_Z 70) with 70%Q.
    assert (Qred (7 # 10) == 7 # 10)%Q as -> by apply Qred_correct.
    assert (Qred (3 # 10) == 3 # 10)%Q as -> by apply Qred_correct.
    lra. }
  unfold fmin. destruct raw as [|neg|r].
  - apply Hfin. by vm_compute.
  - destruct neg.
    + reflexivity.
    + apply Hfin. by vm_compute.
  - change (of_Z 100 : XQ.xq) with (XQ.XFin (Qc_of_Z 100)).
    destruct (XQ.XFin r <. XQ.XFin (Qc_of_Z 100)) eqn:E.
    + apply Hfin. apply xq_ltb_fin in E. by apply Qclt_le_weak.
    + apply Hfin. by vm_compute.
Qed.

(** A detector that is in MONITORING with a smoothed score of at most 40
    cannot reach CHATTER in one [update]: the new smoothed score is at most
    [0.7 * 40 + 0.3 * 100 = 58]. *)
Lemma update_monitoring_no_jump (lm : Libm XQ.xq) (d : AdaptiveChatterDetector.t XQ.xq)
    (fftMagnitudes : list XQ.xq) (fftSize : Z) (vibMagnitude micRMS : XQ.xq)
    (clk : AdaptiveChatterDetector.Clock) (s : Qc) :
  AdaptiveChatterDetector.currentState d = AdaptiveChatterDetector.MONITORING ->
  AdaptiveChatterDetector.smoothedScore d = XQ.XFin s -> (s <= Qc_of_Z 40)%Qc ->
  AdaptiveChatterDetector.currentState
    (AdaptiveChatterDetector.update d fftMagnitudes fftSize vibMagnitude micRMS clk)
  <> AdaptiveChatterDetector.CHATTER.
Proof.
  intros Hst Hsc Hs.
  destruct (update_ends_with_updateState d fftMagnitudes fftSize vibMagnitude micRMS clk)
    as (d1 & f & -> & Hs1 & _ & _ & _ & _ & _ & raw & Hraw); [congruence|].
  rewrite Hsc in Hraw.
  pose proof (smoothing_cannot_jump s raw Hs) as Hno. rewrite <- Hraw in Hno.
  unfold AdaptiveChatterDetector.updateState. rewrite Hs1, Hst, Hno.
  destruct (_ >. of_Z 40); cbn; rewrite ?Hs1, ?Hst; discriminate.
Qed.

(** C1 does not hold as stated: a detector that is recovering from a
    chatter episode and sees the score 65 goes back to CHATTER, and its
    memory holds the one event of the episode, as before: no event is
    recorded. *)
Lemma retrigger_records_no_event :
  let d := Sample.recovering in
  let d' := AdaptiveChatterDetector.step (lm := Sample.libm) d (Sample.at_score 65 3000) in
  AdaptiveChatterDetector.currentState d = AdaptiveChatterDetector.RECOVERING
  /\ (of_Z 65 >. (of_Z 60 : XQ.xq)) = true
  /\ AdaptiveChatterDetector.currentState d' = AdaptiveChatterDetector.CHATTER
  /\ ChatterMemory.events (AdaptiveChatterDetector.memory d')
     = ChatterMemory.events (AdaptiveChatterDetector.memory d)
  /\ length (ChatterMemory.events (AdaptiveChatterDetector.memory d')) = 1%nat.
Proof. by vm_compute. Qed.

(** C1, amended.  For every detector in state RECOVERING, if the smoothed
    score after an update call exceeds 60 the state goes back to CHATTER and
    the time of the last chatter entry is set to the current time; no event
    is recorded: the memory and the suggested feed are unchanged.  Stated
    for [updateState] on any score and for [update] on the smoothed score it
    computes. *)
Theorem recovering_retrigger {F : Type} {ops : FloatOps F} {lm : Libm F}
    (d : AdaptiveChatterDetector.t F) :
  AdaptiveChatterDetector.currentState d = AdaptiveChatterDetector.RECOVERING ->
  (forall (score dominantFreq : F) (now stamp : Z),
      (score >. of_Z 60) = true ->
      let d' := AdaptiveChatterDetector.updateState d score dominantFreq now stamp in
      AdaptiveChatterDetector.currentState d' = AdaptiveChatterDetector.CHATTER
      /\ AdaptiveChatterDetector.lastChatterTime d' = now
      /\ AdaptiveChatterDetector.memory d' = AdaptiveChatterDetector.memory d
      /\ AdaptiveChatterDetector.suggestedFeed d' = AdaptiveChatterDetector.suggestedFeed d)
  /\ (forall (fftMagnitudes : list F) (fftSize : Z) (vibMagnitude micRMS : F)
             (clk : AdaptiveChatterDetector.Clock),
        let d' := AdaptiveChatterDetector.update d fftMagnitudes fftSize vibMagnitude
                    micRMS clk in
        (AdaptiveChatterDetector.smoothedScore d' >. of_Z 60) = true ->
        AdaptiveChatterDetector.currentState d' = AdaptiveChatterDetector.CHATTER
        /\ AdaptiveChatterDetector.lastChatterTime d' = AdaptiveChatterDetector.at_state clk
        /\ AdaptiveChatterDetector.memory d' = AdaptiveChatterDetector.memory d
        /\ AdaptiveChatterDetector.suggestedFeed d'
           = AdaptiveChatterDetector.suggestedFeed d).
Proof.
  intros Hs. split.
  - intros score dominantFreq now stamp Hsc. cbv zeta.
    rewrite updateState_recovering by done. by rewrite Hsc.
  - intros fftMagnitudes fftSize vibMagnitude micRMS clk.
    by apply update_recovering_retrigger.
Qed.

Lemma recovering_retrigger_witness :
  let d' := AdaptiveChatterDetector.updateState (lm := Sample.libm) Sample.recovering
              (of_Z 65) (of_Z 1500) 3000 3000 in
  AdaptiveChatterDetector.currentState d' = AdaptiveChatterDetector.CHATTER
  /\ AdaptiveChatterDetector.lastChatterTime d' = 3000
  /\ AdaptiveChatterDetector.memory d' = AdaptiveChatterDetector.memory Sample.recovering
  /\ AdaptiveChatterDetector.suggestedFeed d'
     = AdaptiveChatterDetector.suggestedFeed Sample.recovering.
Proof.
  apply (proj1 (recovering_retrigger (lm := Sample.libm) Sample.recovering eq_refl)
           (of_Z 65) (of_Z 1500) 3000 3000).
  reflexivity.
Defined.

(** C2 does not hold as stated: with the score 10, below 25, and the last
    chatter entry at 1000 ms, the detector is still RECOVERING at 6000 ms,
    when exactly 5000 ms have elapsed (as it is at 5999 ms); it is back in
    MONITORING at 6001 ms. *)
Lemma recovering_at_5000ms_stays :
  let d := Sample.recovering in
  let state_at now :=
    AdaptiveChatterDetector.currentState
      (AdaptiveChatterDetector.step (lm := Sample.libm) d (Sample.at_score 10 now)) in
  AdaptiveChatterDetector.currentState d = AdaptiveChatterDetector.RECOVERING
  /\ AdaptiveChatterDetector.lastChatterTime d = 1000
  /\ (of_Z 10 <. (of_Z 25 : XQ.xq)) = true
  /\ state_at 5999 = AdaptiveChatterDetector.RECOVERING
  /\ state_at 6000 = AdaptiveChatterDetector.RECOVERING
  /\ state_at 6001 = AdaptiveChatterDetector.MONITORING.
Proof. by vm_compute. Qed.

(** C2, amended.  For every detector in state RECOVERING, an update goes to
    MONITORING if and only if the smoothed score is below 25 and more than
    5000 ms (on the 32-bit clock) have elapsed since the last entry into
    CHATTER: with the score below 25 it does at 5001 ms and does not at
    5000 ms or at 4999 ms.  On that transition the suggested feed is reset
    to 100.  Stated for [updateState] on any score and for [update] on the
    smoothed score it computes. *)
Theorem recovering_to_monitoring {F : Type} {ops : FloatOps F} {lm : Libm F}
    {ord : FloatOrder F} (d : AdaptiveChatterDetector.t F) :
  AdaptiveChatterDetector.currentState d = AdaptiveChatterDetector.RECOVERING ->
  (forall (score dominantFreq : F) (now stamp : Z),
      let elapsed := (now - AdaptiveChatterDetector.lastChatterTime d) mod 2 ^ 32 in
      let d' := AdaptiveChatterDetector.updateState d score dominantFreq now stamp in
      (AdaptiveChatterDetector.currentState d' = AdaptiveChatterDetector.MONITORING
       <-> (score <. of_Z 25) = true /\ 5000 < elapsed)
      /\ (AdaptiveChatterDetector.currentState d' = AdaptiveChatterDetector.MONITORING ->
          AdaptiveChatterDetector.suggestedFeed d' = of_Z 100))
  /\ (forall (fftMagnitudes : list F) (fftSize : Z) (vibMagnitude micRMS : F)
             (clk : AdaptiveChatterDetector.Clock),
        let elapsed := (AdaptiveChatterDetector.at_state clk
                        - AdaptiveChatterDetector.lastChatterTime d) mod 2 ^ 32 in
        let d' := AdaptiveChatterDetector.update d fftMagnitudes fftSize vibMagnitude
                    micRMS clk in
        (AdaptiveChatterDetector.currentState d' = AdaptiveChatterDetector.MONITORING
         <-> (AdaptiveChatterDetector.smoothedScore d' <. of_Z 25) = true
             /\ 5000 < elapsed)
        /\ (AdaptiveChatterDetector.currentState d' = AdaptiveChatterDetector.MONITORING ->
            AdaptiveChatterDetector.suggestedFeed d' = of_Z 100)).
Proof.
  intros Hs. split.
  - intros score dominantFreq now stamp. by apply updateState_recovering_monitoring.
  - intros fftMagnitudes fftSize vibMagnitude micRMS clk.
    by apply update_recovering_monitoring.
Qed.

Lemma recovering_to_monitoring_witness :
  let d' := AdaptiveChatterDetector.updateState (lm := Sample.libm) Sample.recovering
              (of_Z 10) (of_Z 1500) 6001 6001 in
  AdaptiveChatterDetector.currentState d' = AdaptiveChatterDetector.MONITORING
  /\ AdaptiveChatterDetector.suggestedFeed d' = of_Z 100.
Proof.
  destruct (proj1 (recovering_to_monitoring (lm := Sample.libm) Sample.recovering eq_refl)
              (of_Z 10) (of_Z 1500) 6001 6001) as [[_ H1] H2].
  assert (AdaptiveChatterDetector.currentState
            (AdaptiveChatterDetector.updateState (lm := Sample.libm) Sample.recovering
               (of_Z 10) (of_Z 1500) 6001 6001)
          = AdaptiveChatterDetector.MONITORING) as Hm.
  { apply H1. split; [reflexivity|]. by vm_compute. }
  split; [exact Hm|]. exact (H2 Hm).
Defined.

(** C3 does not hold as stated.  On the rising scores 10, 80 the first
    update whose score exceeds 40 takes the detector from MONITORING
    straight to CHATTER: it never is in WARNING.  So it is on the rising
    scores 72, 80, the smoothed scores [0.7 * 99 + 0.3 * 9] and
    [0.7 * 72 + 0.3 * 296/3] of a detector that was re-calibrated while its
    smoothed score was 99 ([startCalibration] and the updates of the
    calibration keep the smoothed score). *)
Lemma rising_jump_skips_warning :
  AdaptiveChatterDetector.currentState Sample.monitoring = AdaptiveChatterDetector.MONITORING
  /\ ((of_Z 10 <=. (of_Z 80 : XQ.xq)) = true
      /\ (of_Z 10 >. (of_Z 40 : XQ.xq)) = false
      /\ (of_Z 80 >. (of_Z 40 : XQ.xq)) = true
      /\ AdaptiveChatterDetector.trace (lm := Sample.libm) Sample.monitoring
           [Sample.at_score 10 1000; Sample.at_score 80 2000]
         = [AdaptiveChatterDetector.MONITORING; AdaptiveChatterDetector.CHATTER])
  /\ ((of_Z 99 *. lit 7 10 +. fmin (of_Z 100) (of_Z 9) *. lit 3 10 : XQ.xq) = of_Z 72
      /\ (of_Z 72 *. lit 7 10 +. fmin (of_Z 100) (lit 296 3) *. lit 3 10 : XQ.xq) = of_Z 80
      /\ (of_Z 72 >. (of_Z 40 : XQ.xq)) = true
      /\ AdaptiveChatterDetector.trace (lm := Sample.libm) Sample.monitoring
           [Sample.at_score 72 1000; Sample.at_score 80 2000]
         = [AdaptiveChatterDetector.CHATTER; AdaptiveChatterDetector.CHATTER]).
Proof.
  split; [reflexivity|]. split; [by vm_compute|].
  split; [apply xq_fin_eq; by vm_compute|].
  split; [apply xq_fin_eq; by vm_compute|].
  by vm_compute.
Qed.

(** C3, amended.  After calibration, for every score sequence (so for every
    monotonically rising one), a detector in MONITORING stays in MONITORING
    until the first update whose score exceeds 40, and on that update enters
    WARNING if the score does not exceed 70, and CHATTER if it does; it is
    not in CHATTER before the first update whose score exceeds 70 and enters
    CHATTER on that update; on that entry the event is recorded, the time of
    the entry is kept, and the suggested feed is what [predictFeedReduction]
    computes from the memory with the new event. *)
Theorem monitoring_thresholds {F : Type} {ops : FloatOps F} {lm : Libm F}
    {ord : FloatOrder F}
    (d : AdaptiveChatterDetector.t F)
    (pre : list (AdaptiveChatterDetector.Step F)) (x : AdaptiveChatterDetector.Step F) :
  AdaptiveChatterDetector.currentState d = AdaptiveChatterDetector.MONITORING ->
  let d1 := AdaptiveChatterDetector.run d pre in
  let d2 := AdaptiveChatterDetector.step d1 x in
  ((forall y, y ∈ pre -> (AdaptiveChatterDetector.s_score y >. of_Z 40) = false) ->
   (AdaptiveChatterDetector.s_score x >. of_Z 40) = true ->
   (forall st, st ∈ AdaptiveChatterDetector.trace d pre -> st = AdaptiveChatterDetector.MONITORING)
   /\ AdaptiveChatterDetector.currentState d2 = if AdaptiveChatterDetector.s_score x >. of_Z 70 then AdaptiveChatterDetector.CHATTER else AdaptiveChatterDetector.WARNING)
  /\ ((forall y, y ∈ pre -> (AdaptiveChatterDetector.s_score y >. of_Z 70) = false) ->
      (AdaptiveChatterDetector.s_score x >. of_Z 70) = true ->
      (forall st, st ∈ AdaptiveChatterDetector.trace d pre -> st <> AdaptiveChatterDetector.CHATTER)
      /\ AdaptiveChatterDetector.currentState d2 = AdaptiveChatterDetector.CHATTER
      /\ AdaptiveChatterDetector.lastChatterTime d2 = AdaptiveChatterDetector.s_now x
      /\ AdaptiveChatterDetector.memory d2 =
         ChatterMemory.recordEvent (AdaptiveChatterDetector.memory d1)
           (AdaptiveChatterDetector.chatterEventOf d1 (AdaptiveChatterDetector.s_dominantFreq x) (AdaptiveChatterDetector.s_score x) (AdaptiveChatterDetector.s_stamp x))
      /\ AdaptiveChatterDetector.suggestedFeed d2 =
         ChatterMemory.predictFeedReduction (AdaptiveChatterDetector.memory d2) (AdaptiveChatterDetector.s_dominantFreq x) (AdaptiveChatterDetector.spindleRPM d1)).
Proof.
  intros Hs d1 d2. subst d1 d2. split.
  - intros Hlow Hx. destruct (run_monitoring_low d pre Hs Hlow) as [Hrun Htr].
    split; [done|]. rewrite Hrun. by apply updateState_monitoring_high.
  - intros Hlow Hx.
    destruct (run_calm pre d (or_introl Hs) Hlow) as [Hrun Htr].
    split.
    + intros st Hst Heq. destruct (Htr st Hst); congruence.
    + by apply updateState_enter_chatter.
Qed.

Lemma monitoring_thresholds_witness :
  let d := Sample.monitoring in
  let pre := [Sample.at_score 10 1000; Sample.at_score 30 2000] in
  let mid := [Sample.at_score 50 3000; Sample.at_score 60 4000] in
  AdaptiveChatterDetector.currentState
    (AdaptiveChatterDetector.step (lm := Sample.libm)
       (AdaptiveChatterDetector.run (lm := Sample.libm) d pre) (Sample.at_score 50 3000))
  = AdaptiveChatterDetector.WARNING
  /\ AdaptiveChatterDetector.currentState
       (AdaptiveChatterDetector.step (lm := Sample.libm)
          (AdaptiveChatterDetector.run (lm := Sample.libm) d (pre ++ mid))
          (Sample.at_score 75 5000))
     = AdaptiveChatterDetector.CHATTER.
Proof.
  intros d pre mid. split.
  - destruct (monitoring_thresholds (lm := Sample.libm) d pre (Sample.at_score 50 3000)
                eq_refl) as [HA _].
    destruct HA as [_ H]; [|reflexivity|exact H].
    intros y Hy.
    repeat (apply elem_of_cons in Hy as [->|Hy]; [reflexivity|]).
    by apply elem_of_nil in Hy.
  - destruct (monitoring_thresholds (lm := Sample.libm) d (pre ++ mid)
                (Sample.at_score 75 5000) eq_refl) as [_ HB].
    destruct HB as (_ & H & _); [|reflexivity|exact H].
    intros y Hy.
    repeat (apply elem_of_cons in Hy as [->|Hy]; [reflexivity|]).
    by apply elem_of_nil in Hy.
Defined.

(** ** The state machine: what one update can do *)

Section Transitions.
Context {F : Type} {ops : FloatOps F} {lm : Libm F}.
Import AdaptiveChatterDetector.

Lemma updateState_may_follow (d : AdaptiveChatterDetector.t F) score freq now stamp :
  may_follow (currentState d) (currentState (updateState d score freq now stamp)) = true.
Proof.
  unfold updateState.
  destruct (currentState d) eqn:Hs;
    repeat match goal with
      | |- context [ if ?c then _ else _ ] => destruct c
      end; cbn; rewrite ?Hs; reflexivity.
Qed.

Lemma update_calibrating_state (d : AdaptiveChatterDetector.t F)
    (fftMagnitudes : list F) (fftSize0 : Z) (vibMagnitude micRMS : F) (clk : Clock) :
  currentState d = CALIBRATING ->
  let d' := update d fftMagnitudes fftSize0 vibMagnitude micRMS clk in
  currentState d' = CALIBRATING \/ currentState d' = MONITORING.
Proof.
  intros Hs. cbv zeta. unfold update. rewrite bool_decide_eq_true_2 by done.
  cbn [currentState]. destruct (_ && _); [by right|by left].
Qed.

Lemma update_may_follow (d : AdaptiveChatterDetector.t F)
    (fftMagnitudes : list F) (fftSize0 : Z) (vibMagnitude micRMS : F) (clk : Clock) :
  may_follow (currentState d)
    (currentState (update d fftMagnitudes fftSize0 vibMagnitude micRMS clk)) = true.
Proof.
  destruct (decide (currentState d = CALIBRATING)) as [Hs|Hs].
  - destruct (update_calibrating_state d fftMagnitudes fftSize0 vibMagnitude micRMS clk Hs)
      as [H|H]; rewrite H, Hs; reflexivity.
  - destruct (update_ends_with_updateState d fftMagnitudes fftSize0 vibMagnitude micRMS clk Hs)
      as (d1 & f & -> & Hs1 & _).
    rewrite <- Hs1. apply updateState_may_follow.
Qed.

End Transitions.

(** X1.  One [update] moves the detector only along the edges of its state
    graph: CALIBRATING to MONITORING; MONITORING to WARNING or CHATTER;
    WARNING to MONITORING or CHATTER; CHATTER to RECOVERING; RECOVERING to
    CHATTER or MONITORING; or it stays where it is.  So an update never
    takes it back to CALIBRATING, never from MONITORING or WARNING to
    RECOVERING, and never out of CHATTER except to RECOVERING.  The same
    holds along every sequence of updates. *)
Theorem update_follows_state_graph {F : Type} {ops : FloatOps F} {lm : Libm F}
    (d : AdaptiveChatterDetector.t F) :
  (forall x : Frame F,
      may_follow (AdaptiveChatterDetector.currentState d)
        (AdaptiveChatterDetector.currentState (feed d x)) = true)
  /\ (forall xs : list (Frame F),
        AdaptiveChatterDetector.currentState d <> AdaptiveChatterDetector.CALIBRATING ->
        AdaptiveChatterDetector.currentState (feed_all d xs)
        <> AdaptiveChatterDetector.CALIBRATING)
  /\ (forall x : Frame F,
        AdaptiveChatterDetector.currentState (feed d x) = AdaptiveChatterDetector.RECOVERING ->
        AdaptiveChatterDetector.currentState d = AdaptiveChatterDetector.CHATTER
        \/ AdaptiveChatterDetector.currentState d = AdaptiveChatterDetector.RECOVERING).
Proof.
  split; [|split].
  - intros x. apply update_may_follow.
  - intros xs. revert d. induction xs as [|x xs IH]; intros d Hs; [done|].
    cbn [feed_all fold_left]. apply IH.
    pose proof (update_may_follow d (f_magnitudes x) (f_fftSize x) (f_vibMagnitude x)
                  (f_micRMS x) (f_clk x)) as Hm.
    unfold feed. intros Hc. rewrite Hc in Hm.
    by destruct (AdaptiveChatterDetector.currentState d).
  - intros x Hr.
    pose proof (update_may_follow d (f_magnitudes x) (f_fftSize x) (f_vibMagnitude x)
                  (f_micRMS x) (f_clk x)) as Hm.
    unfold feed in Hr. rewrite Hr in Hm.
    destruct (AdaptiveChatterDetector.currentState d); try discriminate; auto.
Qed.

Lemma update_follows_state_graph_witness :
  AdaptiveChatterDetector.currentState
    (feed_all (lm := Sample.libm) Sample.recovering
       [BuildFrame _ [] 1024 (of_Z 0) (of_Z 0)
          (AdaptiveChatterDetector.BuildClock 3000 3000 3000)])
  <> AdaptiveChatterDetector.CALIBRATING.
Proof.
  apply (proj1 (proj2 (update_follows_state_graph (lm := Sample.libm) Sample.recovering))).
  discriminate.
Defined.

(** ** The state machine: WARNING and CHATTER *)

Section WarningChatter.
Context {F : Type} {ops : FloatOps F} {lm : Libm F}.
Import AdaptiveChatterDetector.

Lemma updateState_warning (d : AdaptiveChatterDetector.t F) score freq now stamp :
  currentState d = WARNING -> (score >. of_Z 70) = false ->
  updateState d score freq now stamp
  = if score <. of_Z 30 then set_state d MONITORING else d.
Proof. intros Hs H70. unfold updateState. by rewrite Hs, H70. Qed.

Lemma updateState_chatter (d : AdaptiveChatterDetector.t F) score freq now stamp :
  currentState d = CHATTER ->
  let d' := updateState d score freq now stamp in
  interventionFeed d' = feedRate d
  /\ currentState d' = (if score <. of_Z 40 then RECOVERING else CHATTER)
  /\ memory d' =
     (if (score <. of_Z 40) && (feedRate d <. of_Z 95)
      then ChatterMemory.markResolved (memory d) (of_Z 100 -. feedRate d)
      else memory d)
  /\ lastChatterTime d' = lastChatterTime d
  /\ suggestedFeed d' = suggestedFeed d
  /\ feedRate d' = feedRate d
  /\ spindleRPM d' = spindleRPM d.
Proof.
  intros Hs. cbv zeta. unfold updateState. rewrite Hs.
  cbn [feedRate set_interventionFeed set_state].
  destruct (score <. of_Z 40); cbn [andb]; [|by cbn; rewrite Hs].
  destruct (feedRate d <. of_Z 95); cbn; done.
Qed.

Context {ord : FloatOrder F}.

Lemma flt_asym (x y : F) : (x <. y) = true -> (y <. x) = false.
Proof.
  intros H. destruct (y <. x) eqn:E; [|done].
  pose proof (flt_trans _ _ _ H E) as Hbad. by rewrite flt_irrefl in Hbad.
Qed.

Lemma updateState_warning_cases (d : AdaptiveChatterDetector.t F) score freq now stamp :
  (of_Z 30 <. of_Z 70) = true ->
  currentState d = WARNING ->
  let d' := updateState d score freq now stamp in
  (currentState d' = CHATTER <-> (score >. of_Z 70) = true)
  /\ (currentState d' = MONITORING <-> (score <. of_Z 30) = true)
  /\ (currentState d' = WARNING <-> (score >. of_Z 70) = false /\ (score <. of_Z 30) = false)
  /\ ((score >. of_Z 70) = false ->
      memory d' = memory d /\ suggestedFeed d' = suggestedFeed d
      /\ lastChatterTime d' = lastChatterTime d).
Proof.
  intros H3070 Hs. cbv zeta.
  destruct (score >. of_Z 70) eqn:H70.
  - assert ((score <. of_Z 30) = false) as H30.
    { destruct (score <. of_Z 30) eqn:E; [|done].
      pose proof (flt_trans _ _ _ (flt_trans _ _ _ E H3070) H70) as Hbad.
      by rewrite flt_irrefl in Hbad. }
    destruct (updateState_enter_chatter d score freq now stamp (or_intror Hs) H70)
      as (Hc & _).
    cbv zeta in Hc. rewrite Hc, H30.
    repeat split; try done; try discriminate. by intros [? _].
  - rewrite updateState_warning by done.
    destruct (score <. of_Z 30); cbn; rewrite ?Hs;
      repeat split; try done; try discriminate; by intros [_ ?].
Qed.

End WarningChatter.

(** X2.  The hysteresis of WARNING.  A detector in WARNING goes to CHATTER
    exactly when the smoothed score that the update computes exceeds 70,
    back to MONITORING exactly when it is below 30, and stays in WARNING
    exactly when it is neither (between 30 and 70, or not a number); unless
    it goes to CHATTER, its memory, its suggested feed and the time of the
    last chatter entry are unchanged.  For every arithmetic whose [<] is a
    strict order that puts 30 below 70. *)
Theorem warning_hysteresis {F : Type} {ops : FloatOps F} {lm : Libm F}
    {ord : FloatOrder F} (d : AdaptiveChatterDetector.t F) (x : Frame F) :
  (of_Z 30 <. of_Z 70) = true ->
  AdaptiveChatterDetector.currentState d = AdaptiveChatterDetector.WARNING ->
  let d' := feed d x in
  let score := AdaptiveChatterDetector.smoothedScore d' in
  (AdaptiveChatterDetector.currentState d' = AdaptiveChatterDetector.CHATTER
   <-> (score >. of_Z 70) = true)
  /\ (AdaptiveChatterDetector.currentState d' = AdaptiveChatterDetector.MONITORING
      <-> (score <. of_Z 30) = true)
  /\ (AdaptiveChatterDetector.currentState d' = AdaptiveChatterDetector.WARNING
      <-> (score >. of_Z 70) = false /\ (score <. of_Z 30) = false)
  /\ ((score >. of_Z 70) = false ->
      AdaptiveChatterDetector.memory d' = AdaptiveChatterDetector.memory d
      /\ AdaptiveChatterDetector.suggestedFeed d' = AdaptiveChatterDetector.suggestedFeed d
      /\ AdaptiveChatterDetector.lastChatterTime d'
         = AdaptiveChatterDetector.lastChatterTime d).
Proof.
  intros H3070 Hs. cbv zeta. unfold feed.
  destruct (update_ends_with_updateState d (f_magnitudes x) (f_fftSize x)
              (f_vibMagnitude x) (f_micRMS x) (f_clk x))
    as (d1 & f & -> & Hs1 & Hm & Ht & Hf & _); [congruence|].
  rewrite updateState_smoothedScore, <- Hm, <- Ht, <- Hf.
  apply updateState_warning_cases; [done|congruence].
Qed.

Lemma warning_hysteresis_witness :
  let d := AdaptiveChatterDetector.set_state Sample.monitoring
             AdaptiveChatterDetector.WARNING in
  let x := BuildFrame XQ.xq [] 1024 (of_Z 0) (of_Z 0)
             (AdaptiveChatterDetector.BuildClock 3000 3000 3000) in
  AdaptiveChatterDetector.currentState (feed (lm := Sample.libm) d x)
  = AdaptiveChatterDetector.MONITORING
  <-> (AdaptiveChatterDetector.smoothedScore (feed (lm := Sample.libm) d x) <. of_Z 30) = true.
Proof.
  cbv zeta.
  apply (warning_hysteresis (lm := Sample.libm)
           (AdaptiveChatterDetector.set_state Sample.monitoring
              AdaptiveChatterDetector.WARNING)
           (BuildFrame XQ.xq [] 1024 (of_Z 0) (of_Z 0)
              (AdaptiveChatterDetector.BuildClock 3000 3000 3000)));
    reflexivity.
Defined.

(** X3.  Leaving CHATTER.  A detector in CHATTER records the current feed
    rate as the intervention feed on every update; it goes to RECOVERING
    exactly when the smoothed score that the update computes is below 40 and
    stays in CHATTER otherwise; on leaving, if the feed rate is below 95,
    the last event of the memory is marked as resolved with the reduction
    [100 - feedRate], and in every other case the memory is unchanged; the
    suggested feed and the time of the last chatter entry are unchanged. *)
Theorem chatter_exit {F : Type} {ops : FloatOps F} {lm : Libm F}
    (d : AdaptiveChatterDetector.t F) (x : Frame F) :
  AdaptiveChatterDetector.currentState d = AdaptiveChatterDetector.CHATTER ->
  let d' := feed d x in
  let score := AdaptiveChatterDetector.smoothedScore d' in
  AdaptiveChatterDetector.interventionFeed d' = AdaptiveChatterDetector.feedRate d
  /\ AdaptiveChatterDetector.currentState d'
     = (if score <. of_Z 40 then AdaptiveChatterDetector.RECOVERING
        else AdaptiveChatterDetector.CHATTER)
  /\ AdaptiveChatterDetector.memory d'
     = (if (score <. of_Z 40) && (AdaptiveChatterDetector.feedRate d <. of_Z 95)
        then ChatterMemory.markResolved (AdaptiveChatterDetector.memory d)
               (of_Z 100 -. AdaptiveChatterDetector.feedRate d)
        else AdaptiveChatterDetector.memory d)
  /\ AdaptiveChatterDetector.lastChatterTime d' = AdaptiveChatterDetector.lastChatterTime d
  /\ AdaptiveChatterDetector.suggestedFeed d' = AdaptiveChatterDetector.suggestedFeed d.
Proof.
  intros Hs. cbv zeta. unfold feed.
  destruct (update_ends_with_updateState d (f_magnitudes x) (f_fftSize x)
              (f_vibMagnitude x) (f_micRMS x) (f_clk x))
    as (d1 & f & -> & Hs1 & Hm & Ht & Hf & Hfr & _); [congruence|].
  rewrite updateState_smoothedScore.
  destruct (updateState_chatter d1 (AdaptiveChatterDetector.smoothedScore d1) f
              (AdaptiveChatterDetector.at_state (f_clk x))
              (AdaptiveChatterDetector.at_event (f_clk x)))
    as (H1 & H2 & H3 & H4 & H5 & _); [congruence|].
  cbv zeta in H1, H2, H3, H4, H5.
  rewrite H1, H2, H3, H4, H5, Hm, Ht, Hf, Hfr. done.
Qed.

Lemma chatter_exit_witness :
  let d := AdaptiveChatterDetector.set_state Sample.monitoring
             AdaptiveChatterDetector.CHATTER in
  let x := BuildFrame XQ.xq [] 1024 (of_Z 0) (of_Z 0)
             (AdaptiveChatterDetector.BuildClock 3000 3000 3000) in
  AdaptiveChatterDetector.interventionFeed (feed (lm := Sample.libm) d x)
  = AdaptiveChatterDetector.feedRate d.
Proof.
  cbv zeta.
  pose proof (chatter_exit (lm := Sample.libm)
                (AdaptiveChatterDetector.set_state Sample.monitoring
                   AdaptiveChatterDetector.CHATTER)
                (BuildFrame XQ.xq [] 1024 (of_Z 0) (of_Z 0)
                   (AdaptiveChatterDetector.BuildClock 3000 3000 3000))
                eq_refl) as H.
  cbv zeta in H. exact (proj1 H).
Defined.

(** ** ChatterMemory: learning from a resolved event *)

Section ResolveFacts.
Context {F : Type} {ops : FloatOps F}.
Import ChatterMemory.

Lemma markResolved_empty (m : ChatterMemory.t F) (r : F) :
  events m = [] -> markResolved m r = m.
Proof. intros He. unfold markResolved. by rewrite He. Qed.

Lemma markResolved_snoc (m : ChatterMemory.t F) (r : F) l e :
  events m = l ++ [e] ->
  markResolved m r =
  saveToFlash
    {| prefs := prefs m;
       events := l ++ [resolved_with e r];
       chatterFreqHistogram := learnSuccess (chatterFreqHistogram m) (resolved_with e r) |}.
Proof.
  intros He. unfold markResolved. rewrite He, last_snoc, removelast_last. done.
Qed.

Lemma recordEvent_last (m : ChatterMemory.t F) (e : ChatterEvent.t F) :
  last (events (recordEvent m e)) = Some e.
Proof.
  rewrite recordEvent_events.
  destruct (events m) as [|e0 l]; [reflexivity|].
  destruct (MAX_EVENTS <? _); cbn [app tail]; by rewrite ?last_snoc, ?last_cons, ?last_snoc.
Qed.

Lemma resolved_count_snoc (l : list (ChatterEvent.t F)) (e : ChatterEvent.t F) :
  length (filter (fun e => ChatterEvent.resolved e = true) (l ++ [e]))
  = (length (filter (fun e => ChatterEvent.resolved e = true) l)
     + if ChatterEvent.resolved e then 1 else 0)%nat.
Proof.
  rewrite filter_app, length_app, filter_cons, filter_nil.
  destruct (ChatterEvent.resolved e) eqn:Hr.
  - by rewrite decide_True.
  - by rewrite decide_False.
Qed.

Lemma last_drop {A} (l : list A) (n : nat) :
  (n < length l)%nat -> last (drop n l) = last l.
Proof.
  intros Hn. rewrite !last_lookup, lookup_drop, length_drop. f_equal. lia.
Qed.

Lemma markResolved_snoc_facts (m : ChatterMemory.t F) (r : F) l e :
  events m = l ++ [e] ->
  let m' := markResolved m r in
  events m' = l ++ [resolved_with e r]
  /\ (ChatterEvent.resolved e = false -> getResolvedCount m' = getResolvedCount m + 1)
  /\ (forall m0 : ChatterMemory.t F,
        prefs m0 = prefs m' ->
        last (events (loadFromFlash m0)) = Some (resolved_with e r)).
Proof.
  intros He. cbv zeta. rewrite (markResolved_snoc m r l e He).
  split; [done|]. split.
  - intros Hr. unfold getResolvedCount.
    rewrite saveToFlash_events. cbn [events].
    rewrite He, !resolved_count_snoc, Hr. cbn [resolved_with ChatterEvent.resolved]. lia.
  - intros m0 Hp.
    destruct (save_then_load _ m0 Hp) as [_ Hev]. rewrite Hev.
    cbn [events]. rewrite last_drop.
    + by rewrite last_snoc.
    + rewrite length_app. cbn [length]. lia.
Qed.

End ResolveFacts.

(** X4.  [markResolved] on a memory without events does nothing (nothing is
    written to the flash either).  On a memory whose last event is [e] it
    replaces [e] by [e] marked as resolved with the given feed reduction and
    leaves the other events and their number as they are; the number of
    resolved events goes up by one when [e] was not resolved yet; the
    histogram bin [(int)(frequency/100)] of [e], when it is one of the 100
    bins, is raised by 2 (on 16 bits) and the other bins are unchanged; and
    the resolved event is the last one a memory loads from the flash that
    [markResolved] leaves. *)
Theorem markResolved_learns {F : Type} {ops : FloatOps F}
    (m : ChatterMemory.t F) (reduction : F) :
  (ChatterMemory.events m = [] -> ChatterMemory.markResolved m reduction = m)
  /\ (forall (l : list (ChatterEvent.t F)) (e : ChatterEvent.t F),
        ChatterMemory.events m = l ++ [e] ->
        let m' := ChatterMemory.markResolved m reduction in
        let bin := to_int (ChatterEvent.frequency e /. of_Z 100) in
        ChatterMemory.events m' = l ++ [resolved_with e reduction]
        /\ ChatterMemory.getEventCount m' = ChatterMemory.getEventCount m
        /\ (ChatterEvent.resolved e = false ->
            ChatterMemory.getResolvedCount m' = ChatterMemory.getResolvedCount m + 1)
        /\ (0 <= bin < 100 ->
            ChatterMemory.chatterFreqHistogram m' !! Z.to_nat bin
            = (fun c => (c + 2) mod 2 ^ 16)
                <$> ChatterMemory.chatterFreqHistogram m !! Z.to_nat bin
            /\ forall j, j <> Z.to_nat bin ->
                 ChatterMemory.chatterFreqHistogram m' !! j
                 = ChatterMemory.chatterFreqHistogram m !! j)
        /\ (~ 0 <= bin < 100 ->
            ChatterMemory.chatterFreqHistogram m' = ChatterMemory.chatterFreqHistogram m)
        /\ (forall m0 : ChatterMemory.t F,
              ChatterMemory.prefs m0 = ChatterMemory.prefs m' ->
              last (ChatterMemory.events (ChatterMemory.loadFromFlash m0))
              = Some (resolved_with e reduction))).
Proof.
  split; [apply markResolved_empty|].
  intros l e He. cbv zeta.
  destruct (markResolved_snoc_facts m reduction l e He) as (Hev & Hrc & Hload).
  cbv zeta in Hev, Hrc, Hload.
  split; [done|]. split.
  { unfold ChatterMemory.getEventCount, ChatterMemory.size.
    by rewrite Hev, He, !length_app. }
  split; [done|].
  rewrite (markResolved_snoc m reduction l e He).
  rewrite saveToFlash_histogram. cbn [ChatterMemory.chatterFreqHistogram].
  unfold ChatterMemory.learnSuccess. cbn [resolved_with ChatterEvent.frequency].
  split; [|split].
  - intros [H0 H1].
    destruct (0 <=? _) eqn:E0; [|apply Z.leb_gt in E0; lia].
    destruct (_ <? 100) eqn:E1; [|apply Z.ltb_ge in E1; lia].
    cbn [andb]. unfold ChatterMemory.bump. split.
    + apply list_lookup_alter_eq.
    + intros j Hj. by apply list_lookup_alter_ne.
  - intros Hbin.
    destruct (0 <=? _) eqn:E0; [|done].
    destruct (_ <? 100) eqn:E1; [|done].
    apply Z.leb_le in E0. apply Z.ltb_lt in E1. lia.
  - intros m0 Hp. apply Hload. rewrite (markResolved_snoc m reduction l e He). exact Hp.
Qed.

Lemma markResolved_learns_witness :
  let e := Sample.event 5 in
  let m := ChatterMemory.recordEvent (ChatterMemory.initial Sample.blank_flash) e in
  let m' := ChatterMemory.markResolved m (of_Z 30) in
  ChatterMemory.events m' = [] ++ [resolved_with e (of_Z 30)]
  /\ ChatterMemory.getResolvedCount m' = ChatterMemory.getResolvedCount m + 1
  /\ ChatterMemory.chatterFreqHistogram m' !! 10%nat = Some 3.
Proof.
  intros e m m'.
  destruct (markResolved_learns m (of_Z 30)) as [_ H].
  destruct (H [] e eq_refl) as (H1 & _ & H3 & H4 & _).
  split; [exact H1|]. split; [by apply H3|].
  destruct H4 as [H4 _]; [by vm_compute|].
  change (Z.to_nat (to_int (ChatterEvent.frequency e /. of_Z 100))) with 10%nat in H4.
  etrans; [exact H4|]. reflexivity.
Defined.

(** ** A chatter episode, from detection to the learned reduction *)

Section Episode.
Context {F : Type} {ops : FloatOps F} {lm : Libm F}.
Import AdaptiveChatterDetector.

Lemma step_chatter_stays (d : AdaptiveChatterDetector.t F) (y : Step F) :
  currentState d = CHATTER -> (s_score y <. of_Z 40) = false ->
  currentState (step d y) = CHATTER /\ memory (step d y) = memory d.
Proof.
  intros Hs Hy. unfold step.
  destruct (updateState_chatter d (s_score y) (s_dominantFreq y) (s_now y) (s_stamp y) Hs)
    as (_ & H2 & H3 & _).
  cbv zeta in H2, H3. rewrite Hy in H2, H3. done.
Qed.

Lemma run_chatter_stays (ys : list (Step F)) (d : AdaptiveChatterDetector.t F) :
  currentState d = CHATTER ->
  (forall y, y ∈ ys -> (s_score y <. of_Z 40) = false) ->
  currentState (run d ys) = CHATTER /\ memory (run d ys) = memory d.
Proof.
  revert d. induction ys as [|y ys IH]; intros d Hs Hys; [done|].
  destruct (step_chatter_stays d y Hs) as [Hs1 Hm1]; [apply Hys; by left|].
  destruct (IH (step d y) Hs1) as [Hs2 Hm2]; [intros z Hz; apply Hys; by right|].
  unfold run in * . cbn [fold_left]. by rewrite Hs2, Hm2, Hm1.
Qed.

End Episode.

(** X5.  A chatter episode teaches the memory.  When a detector in
    MONITORING or WARNING sees a score above 70 it records the event [e] of
    the detection; if it then stays in CHATTER (no score below 40), the feed
    rate is set to a value [f] below 95, and a score below 40 follows, the
    detector goes to RECOVERING and the event [e] is, in the memory, marked
    as resolved by the feed reduction [100 - f]: it is still the last event,
    the events before it are untouched, there is one more resolved event,
    and a memory loaded from the flash after a restart has the resolved
    event as its last one. *)
Theorem episode_learns {F : Type} {ops : FloatOps F} {lm : Libm F}
    (d0 : AdaptiveChatterDetector.t F)
    (x : AdaptiveChatterDetector.Step F) (ys : list (AdaptiveChatterDetector.Step F))
    (f : F) (z : AdaptiveChatterDetector.Step F) :
  calm (AdaptiveChatterDetector.currentState d0) ->
  (AdaptiveChatterDetector.s_score x >. of_Z 70) = true ->
  (forall y, y ∈ ys -> (AdaptiveChatterDetector.s_score y <. of_Z 40) = false) ->
  (f <. of_Z 95) = true ->
  (AdaptiveChatterDetector.s_score z <. of_Z 40) = true ->
  let e := AdaptiveChatterDetector.chatterEventOf d0
             (AdaptiveChatterDetector.s_dominantFreq x)
             (AdaptiveChatterDetector.s_score x) (AdaptiveChatterDetector.s_stamp x) in
  let d1 := AdaptiveChatterDetector.step d0 x in
  let d2 := AdaptiveChatterDetector.setFeedRate (AdaptiveChatterDetector.run d1 ys) f in
  let d3 := AdaptiveChatterDetector.step d2 z in
  AdaptiveChatterDetector.currentState d1 = AdaptiveChatterDetector.CHATTER
  /\ last (ChatterMemory.events (AdaptiveChatterDetector.memory d1)) = Some e
  /\ AdaptiveChatterDetector.currentState d3 = AdaptiveChatterDetector.RECOVERING
  /\ ChatterMemory.events (AdaptiveChatterDetector.memory d3)
     = removelast (ChatterMemory.events (AdaptiveChatterDetector.memory d1))
       ++ [resolved_with e (of_Z 100 -. f)]
  /\ ChatterMemory.getResolvedCount (AdaptiveChatterDetector.memory d3)
     = ChatterMemory.getResolvedCount (AdaptiveChatterDetector.memory d1) + 1
  /\ (forall m0 : ChatterMemory.t F,
        ChatterMemory.prefs m0 = ChatterMemory.prefs (AdaptiveChatterDetector.memory d3) ->
        last (ChatterMemory.events (ChatterMemory.loadFromFlash m0))
        = Some (resolved_with e (of_Z 100 -. f))).
Proof.
  intros Hcalm Hx Hys Hf Hz e d1 d2 d3.
  destruct (updateState_enter_chatter d0 (AdaptiveChatterDetector.s_score x)
              (AdaptiveChatterDetector.s_dominantFreq x) (AdaptiveChatterDetector.s_now x)
              (AdaptiveChatterDetector.s_stamp x) Hcalm Hx) as (Hs1 & _ & Hm1 & _).
  fold (AdaptiveChatterDetector.step d0 x) in Hs1, Hm1. fold d1 e in Hs1, Hm1.
  assert (last (ChatterMemory.events (AdaptiveChatterDetector.memory d1)) = Some e) as Hlast.
  { rewrite Hm1. apply recordEvent_last. }
  destruct (run_chatter_stays ys d1 Hs1 Hys) as [Hs2 Hm2].
  assert (AdaptiveChatterDetector.currentState d2 = AdaptiveChatterDetector.CHATTER) as Hs2'
    by exact Hs2.
  destruct (updateState_chatter d2 (AdaptiveChatterDetector.s_score z)
              (AdaptiveChatterDetector.s_dominantFreq z) (AdaptiveChatterDetector.s_now z)
              (AdaptiveChatterDetector.s_stamp z) Hs2') as (_ & H2 & H3 & _).
  fold (AdaptiveChatterDetector.step d2 z) in H2, H3. fold d3 in H2, H3.
  rewrite Hz in H2, H3.
  change (AdaptiveChatterDetector.feedRate d2) with f in H3. rewrite Hf in H3.
  cbn [andb] in H3.
  change (AdaptiveChatterDetector.memory d2)
    with (AdaptiveChatterDetector.memory (AdaptiveChatterDetector.run d1 ys)) in H3.
  rewrite Hm2 in H3.
  destruct (ChatterMemory.events (AdaptiveChatterDetector.memory d1)) as [|e0 l0 _] eqn:Hev
    using rev_ind; [discriminate|].
  rewrite last_snoc in Hlast. injection Hlast as ->.
  destruct (markResolved_snoc_facts (AdaptiveChatterDetector.memory d1) (of_Z 100 -. f)
              l0 e Hev) as (He & Hrc & Hload).
  cbv zeta in He, Hrc, Hload. rewrite <- H3 in He, Hrc, Hload.
  split; [done|]. split; [by rewrite last_snoc|]. split; [done|].
  split; [by rewrite removelast_last|]. split; [by apply Hrc|]. exact Hload.
Qed.

Lemma episode_learns_witness :
  let d1 := AdaptiveChatterDetector.step (lm := Sample.libm) Sample.monitoring (Sample.at_score 80 1000) in
  let d2 := AdaptiveChatterDetector.setFeedRate
              (AdaptiveChatterDetector.run (lm := Sample.libm) d1 [Sample.at_score 75 1500])
              (of_Z 70) in
  let d3 := AdaptiveChatterDetector.step (lm := Sample.libm) d2 (Sample.at_score 30 2000) in
  AdaptiveChatterDetector.currentState d3 = AdaptiveChatterDetector.RECOVERING
  /\ ChatterMemory.getResolvedCount (AdaptiveChatterDetector.memory d3)
     = ChatterMemory.getResolvedCount (AdaptiveChatterDetector.memory d1) + 1.
Proof.
  cbv zeta.
  assert (forall y, y ∈ [Sample.at_score 75 1500] ->
            (AdaptiveChatterDetector.s_score y <. of_Z 40) = false) as Hys.
  { intros y Hy. apply list_elem_of_singleton in Hy. subst y. by vm_compute. }
  pose proof (episode_learns (lm := Sample.libm) Sample.monitoring (Sample.at_score 80 1000)
                [Sample.at_score 75 1500] (of_Z 70) (Sample.at_score 30 2000)
                (or_introl eq_refl) eq_refl Hys eq_refl eq_refl) as H.
  cbv zeta in H. destruct H as (_ & _ & H3 & _ & H5 & _). split; [exact H3|exact H5].
Defined.

(** ** Calibration: how long it takes *)

Section Calibration.
Context {F : Type} {ops : FloatOps F} {lm : Libm F}.
Import AdaptiveChatterDetector.

Lemma count_finite_snoc (xs : list F) (x : F) :
  count_finite (xs ++ [x]) = count_finite xs + (if is_finite x then 1 else 0).
Proof.
  unfold count_finite. rewrite filter_app, length_app, filter_cons, filter_nil.
  destruct (is_finite x) eqn:Hx.
  - rewrite decide_True by done. cbn [length]. lia.
  - rewrite decide_False by done. cbn [length]. lia.
Qed.

Lemma count_finite_bounds (xs : list F) :
  0 <= count_finite xs <= Z.of_nat (length xs).
Proof.
  unfold count_finite. pose proof (length_filter (fun x => is_finite x = true) xs). lia.
Qed.

(** One update of a calibrating detector: a sample more for each band, one
    more for the vibration baseline when the vibration magnitude is finite,
    and MONITORING once there are 100 of the first and 50 of the second. *)
Lemma update_calibrating (d : AdaptiveChatterDetector.t F)
    (fftMagnitudes : list F) (fftSize0 : Z) (vibMagnitude micRMS : F) (clk : Clock) :
  currentState d = CALIBRATING ->
  let d' := update d fftMagnitudes fftSize0 vibMagnitude micRMS clk in
  let samples := FrequencyBandAnalyzer.calibrationSamples (freqAnalyzer d) + 1 in
  let done100 := if samples >=? 100 then true
                 else FrequencyBandAnalyzer.calibrated (freqAnalyzer d) in
  let n := RunningStats.n (VibrationTracker.baseline (vibTracker d)) in
  let n' := if is_finite vibMagnitude then (n + 1) mod 2 ^ 32 else n in
  FrequencyBandAnalyzer.calibrationSamples (freqAnalyzer d') = samples
  /\ FrequencyBandAnalyzer.calibrated (freqAnalyzer d') = done100
  /\ RunningStats.n (VibrationTracker.baseline (vibTracker d')) = n'
  /\ currentState d' = (if done100 && (n' >=? 50) then MONITORING else CALIBRATING).
Proof.
  intros Hs. cbv zeta. unfold update. rewrite bool_decide_eq_true_2 by done.
  cbn [freqAnalyzer vibTracker currentState].
  unfold FrequencyBandAnalyzer.updateBaseline, FrequencyBandAnalyzer.analyze,
    FrequencyBandAnalyzer.isCalibrated, VibrationTracker.isCalibrated,
    VibrationTracker.push, RunningStats.getCount, RunningStats.push,
    FrequencyBandAnalyzer.MIN_CALIBRATION_SAMPLES.
  cbn [FrequencyBandAnalyzer.calibrationSamples FrequencyBandAnalyzer.calibrated
       VibrationTracker.baseline].
  rewrite Hs.
  destruct (is_finite vibMagnitude); cbn [negb RunningStats.n]; done.
Qed.

Lemma still_calibrating_prefix (xs : list (Frame F)) (x : Frame F) :
  still_calibrating (xs ++ [x]) -> still_calibrating xs.
Proof.
  unfold still_calibrating. rewrite length_app, fmap_app.
  cbn [length fmap list_fmap]. rewrite count_finite_snoc. destruct (is_finite (f_vibMagnitude x)); lia.
Qed.

Lemma feed_all_snoc (d : AdaptiveChatterDetector.t F) (xs : list (Frame F)) (x : Frame F) :
  feed_all d (xs ++ [x]) = feed (feed_all d xs) x.
Proof. unfold feed_all. by rewrite fold_left_app. Qed.

Lemma calibration_invariant (d : AdaptiveChatterDetector.t F) (xs : list (Frame F)) :
  calibration_start d -> still_calibrating xs ->
  let d' := feed_all d xs in
  currentState d' = CALIBRATING
  /\ FrequencyBandAnalyzer.calibrationSamples (freqAnalyzer d') = Z.of_nat (length xs)
  /\ FrequencyBandAnalyzer.calibrated (freqAnalyzer d') = (100 <=? Z.of_nat (length xs))
  /\ RunningStats.n (VibrationTracker.baseline (vibTracker d'))
     = count_finite (f_vibMagnitude <$> xs).
Proof.
  intros (Hs & Hc & Hd & Hn). cbv zeta.
  induction xs as [|x xs IH] using rev_ind; intros; [done|].
  destruct IH as (Hs1 & Hc1 & Hd1 & Hn1); [by eapply still_calibrating_prefix|].
  rewrite feed_all_snoc. unfold feed at 1 2 3 4.
  destruct (update_calibrating (feed_all d xs) (f_magnitudes x) (f_fftSize x)
              (f_vibMagnitude x) (f_micRMS x) (f_clk x) Hs1) as (H1 & H2 & H3 & H4).
  cbv zeta in H1, H2, H3, H4.
  rewrite H4, H1, H2, H3, Hc1, Hd1, Hn1. clear H1 H2 H3 H4.
  pose proof (count_finite_bounds (f_vibMagnitude <$> xs)) as Hb.
  rewrite length_fmap in Hb.
  unfold still_calibrating in H.
  rewrite length_app, fmap_app in * .
  cbn [length fmap list_fmap] in * . rewrite count_finite_snoc in * .
  set (k := Z.of_nat (length xs)) in * .
  replace (Z.of_nat (length xs + 1)) with (k + 1) in * by lia.
  set (c := count_finite (f_vibMagnitude <$> xs)) in * .
  destruct (is_finite (f_vibMagnitude x)).
  - rewrite Z.mod_small by lia.
    assert ((if k + 1 >=? 100 then true else 100 <=? k) = (100 <=? k + 1)) as ->.
    { rewrite Z.geb_leb. destruct (Z.leb_spec 100 (k + 1)); [done|].
      destruct (Z.leb_spec 100 k); [lia|done]. }
    split; [|repeat split; lia].
    destruct (100 <=? k + 1) eqn:E1; [|done].
    destruct (c + 1 >=? 50) eqn:E2; [|done]. lia.
  - assert ((if k + 1 >=? 100 then true else 100 <=? k) = (100 <=? k + 1)) as ->.
    { rewrite Z.geb_leb. destruct (Z.leb_spec 100 (k + 1)); [done|].
      destruct (Z.leb_spec 100 k); [lia|done]. }
    split; [|repeat split; lia].
    destruct (100 <=? k + 1) eqn:E1; [|done].
    destruct (c >=? 50) eqn:E2; [|done]. lia.
Qed.

Lemma calibration_ends (d : AdaptiveChatterDetector.t F) (xs : list (Frame F))
    (x : Frame F) :
  calibration_start d -> still_calibrating xs -> ~ still_calibrating (xs ++ [x]) ->
  currentState (feed_all d (xs ++ [x])) = MONITORING.
Proof.
  intros Hstart Hstill Hend.
  destruct (calibration_invariant d xs Hstart Hstill) as (Hs1 & Hc1 & Hd1 & Hn1).
  rewrite feed_all_snoc. unfold feed.
  destruct (update_calibrating (feed_all d xs) (f_magnitudes x) (f_fftSize x)
              (f_vibMagnitude x) (f_micRMS x) (f_clk x) Hs1) as (_ & _ & _ & H4).
  cbv zeta in H4. rewrite H4, Hc1, Hd1, Hn1. clear H4.
  pose proof (count_finite_bounds (f_vibMagnitude <$> xs)) as Hb.
  rewrite length_fmap in Hb.
  unfold still_calibrating in * .
  rewrite length_app, fmap_app in Hend.
  cbn [length fmap list_fmap] in Hend. rewrite count_finite_snoc in Hend.
  set (k := Z.of_nat (length xs)) in * .
  replace (Z.of_nat (length xs + 1)) with (k + 1) in * by lia.
  set (c := count_finite (f_vibMagnitude <$> xs)) in * .
  destruct (is_finite (f_vibMagnitude x)).
  - rewrite Z.mod_small by lia.
    destruct (k + 1 >=? 100) eqn:E1; [|lia].
    destruct (c + 1 >=? 50) eqn:E2; [done|lia].
  - destruct (k + 1 >=? 100) eqn:E1; [|lia].
    destruct (c >=? 50) eqn:E2; [done|lia].
Qed.

Lemma feed_all_not_calibrating (xs : list (Frame F)) (d : AdaptiveChatterDetector.t F) :
  currentState d <> CALIBRATING -> currentState (feed_all d xs) <> CALIBRATING.
Proof.
  revert d. induction xs as [|x xs IH]; intros d Hs; [done|].
  cbn [feed_all fold_left]. apply IH.
  pose proof (update_may_follow d (f_magnitudes x) (f_fftSize x) (f_vibMagnitude x)
                (f_micRMS x) (f_clk x)) as Hm.
  unfold feed. intros Hc. rewrite Hc in Hm.
  by destruct (currentState d).
Qed.

Lemma calibration_over (d : AdaptiveChatterDetector.t F) (xs : list (Frame F)) :
  calibration_start d -> ~ still_calibrating xs ->
  currentState (feed_all d xs) <> CALIBRATING.
Proof.
  intros Hstart. induction xs as [|x xs IH] using rev_ind; intros Hend.
  - exfalso. apply Hend. left. cbn. lia.
  - destruct (decide (Z.of_nat (length xs) < 100
                      \/ count_finite (f_vibMagnitude <$> xs) < 50)) as [Hstill|Hover].
    + rewrite (calibration_ends d xs x Hstart Hstill Hend). discriminate.
    + rewrite feed_all_snoc.
      change (feed (feed_all d xs) x) with (feed_all (feed_all d xs) [x]).
      apply feed_all_not_calibrating. by apply IH.
Qed.

Lemma calibration_length_from (d : AdaptiveChatterDetector.t F) :
  calibration_start d ->
  (forall xs : list (Frame F),
      currentState (feed_all d xs) = CALIBRATING
      <-> (Z.of_nat (length xs) < 100 \/ count_finite (f_vibMagnitude <$> xs) < 50))
  /\ (forall (xs : list (Frame F)) (x : Frame F),
        (Z.of_nat (length xs) < 100 \/ count_finite (f_vibMagnitude <$> xs) < 50) ->
        ~ (Z.of_nat (length (xs ++ [x])) < 100
           \/ count_finite (f_vibMagnitude <$> (xs ++ [x])) < 50) ->
        currentState (feed_all d (xs ++ [x])) = MONITORING).
Proof.
  intros Hstart. split.
  - intros xs. split.
    + intros Hs.
      destruct (decide (Z.of_nat (length xs) < 100
                        \/ count_finite (f_vibMagnitude <$> xs) < 50)) as [H|H]; [done|].
      by destruct (calibration_over d xs Hstart H).
    + intros H. by destruct (calibration_invariant d xs Hstart H).
  - intros xs x. apply calibration_ends. done.
Qed.

Lemma startCalibration_start (d : AdaptiveChatterDetector.t F) :
  calibration_start (startCalibration d).
Proof. done. Qed.

Lemma init_start (d : AdaptiveChatterDetector.t F) (sampleRate0 : F) (fftSize0 : Z) :
  calibration_start (init d sampleRate0 fftSize0).
Proof. done. Qed.

End Calibration.

Lemma count_finite_all {F : Type} {ops : FloatOps F} (xs : list F) :
  Forall (fun x => is_finite x = true) xs -> count_finite xs = Z.of_nat (length xs).
Proof.
  intros H. unfold count_finite. induction H as [|x xs Hx _ IH]; [done|].
  rewrite filter_cons, decide_True by done. cbn [length]. lia.
Qed.

Lemma count_finite_none {F : Type} {ops : FloatOps F} (xs : list F) :
  Forall (fun x => is_finite x = false) xs -> count_finite xs = 0.
Proof.
  intros H. unfold count_finite. induction H as [|x xs Hx _ IH]; [done|].
  rewrite filter_cons, decide_False by (by rewrite Hx). done.
Qed.

(** X6.  The length of a calibration.  [init] and [startCalibration] leave
    the detector at the start of a calibration.  From there the detector is
    still CALIBRATING after a sequence of updates exactly when there were
    fewer than 100 updates or fewer than 50 of them had a finite vibration
    magnitude, and the update that ends the calibration leaves it in
    MONITORING.  So with finite vibration magnitudes the detector is
    CALIBRATING for the first 99 updates and in MONITORING after the 100th;
    and if no vibration magnitude is finite (NaN from a failed sensor) the
    calibration never ends. *)
Theorem calibration_length {F : Type} {ops : FloatOps F} {lm : Libm F}
    (d : AdaptiveChatterDetector.t F) (sampleRate : F) (fftSize : Z) :
  calibration_start (AdaptiveChatterDetector.init d sampleRate fftSize)
  /\ calibration_start (AdaptiveChatterDetector.startCalibration d)
  /\ forall d0 : AdaptiveChatterDetector.t F,
       calibration_start d0 ->
       (forall xs : list (Frame F),
           AdaptiveChatterDetector.currentState (feed_all d0 xs)
           = AdaptiveChatterDetector.CALIBRATING
           <-> still_calibrating xs)
       /\ (forall (xs : list (Frame F)) (x : Frame F),
             still_calibrating xs -> ~ still_calibrating (xs ++ [x]) ->
             AdaptiveChatterDetector.currentState (feed_all d0 (xs ++ [x]))
             = AdaptiveChatterDetector.MONITORING)
       /\ (forall (xs : list (Frame F)) (x : Frame F),
             length xs = 99%nat ->
             Forall (fun y => is_finite (f_vibMagnitude y) = true) (xs ++ [x]) ->
             AdaptiveChatterDetector.currentState (feed_all d0 xs)
             = AdaptiveChatterDetector.CALIBRATING
             /\ AdaptiveChatterDetector.currentState (feed_all d0 (xs ++ [x]))
                = AdaptiveChatterDetector.MONITORING)
       /\ (forall xs : list (Frame F),
             Forall (fun y => is_finite (f_vibMagnitude y) = false) xs ->
             AdaptiveChatterDetector.currentState (feed_all d0 xs)
             = AdaptiveChatterDetector.CALIBRATING).
Proof.
  split; [apply init_start|]. split; [apply startCalibration_start|].
  intros d0 Hstart.
  destruct (calibration_length_from d0 Hstart) as [Hiff Hend].
  split; [exact Hiff|]. split; [exact Hend|]. split.
  - intros xs x Hlen Hfin.
    assert (still_calibrating xs) as Hstill by (left; lia).
    split; [by apply Hiff|]. apply Hend; [done|].
    unfold still_calibrating. rewrite count_finite_all.
    + rewrite length_fmap, length_app, Hlen. cbn [length]. lia.
    + by apply Forall_fmap.
  - intros xs Hnone. apply Hiff. right. rewrite count_finite_none; [lia|].
    by apply Forall_fmap.
Qed.

Lemma calibration_length_witness :
  let d0 := AdaptiveChatterDetector.startCalibration (lm := Sample.libm) Sample.monitoring in
  let nan := BuildFrame XQ.xq [] 1024 XQ.XNaN (of_Z 0)
               (AdaptiveChatterDetector.BuildClock 3000 3000 3000) in
  AdaptiveChatterDetector.currentState (feed_all (lm := Sample.libm) d0 [nan; nan])
  = AdaptiveChatterDetector.CALIBRATING.
Proof.
  cbv zeta.
  apply (calibration_length (lm := Sample.libm) Sample.monitoring (of_Z 16000) 1024).
  - apply (calibration_length (lm := Sample.libm) Sample.monitoring (of_Z 16000) 1024).
  - repeat constructor.
Defined.

(** ** Exact arithmetic: ranges *)

Section XQRanges.
Import XQ.
Local Open Scope Qc_scope.

Lemma xq_leb_fin (a b : Qc) : (XFin a <=. XFin b) = true <-> a <= b.
Proof.
  cbn. destruct (Qclt_le_dec b a) as [Hlt|Hle]; split; intros H; try done.
  exfalso. by apply (Qclt_not_le _ _ Hlt).
Qed.

(** A value is between two integers: it is then a finite number. *)
Lemma xq_between (lo hi : Z) (x : xq) :
  (of_Z lo <=. x) = true /\ (x <=. of_Z hi) = true
  <-> exists q, x = XFin q /\ Qc_of_Z lo <= q <= Qc_of_Z hi.
Proof.
  split.
  - intros [H1 H2]. destruct x as [|s|q]; try done.
    + destruct s; cbn in H1, H2; done.
    + exists q. split; [done|]. split; by apply xq_leb_fin.
  - intros (q & -> & H1 & H2). split; by apply xq_leb_fin.
Qed.

Lemma nn_fin (q : Qc) : nn (XFin q) <-> 0 <= q.
Proof.
  unfold nn. change (of_Z 0 : xq) with (XFin (Qc_of_Z 0)). rewrite Z2Qc_inj_0.
  apply xq_ltb_fin_false.
Qed.

Lemma nn_cases (x : xq) :
  nn x -> x = XNaN \/ x = XInf false \/ exists q, x = XFin q /\ 0 <= q.
Proof.
  destruct x as [|s|q]; intros H; auto.
  - destruct s; [done|auto].
  - right. right. exists q. split; [done|]. by apply nn_fin.
Qed.

Lemma nn_add (x y : xq) : nn x -> nn y -> nn (x +. y).
Proof.
  intros Hx Hy.
  destruct (nn_cases x Hx) as [->|[->|(a & -> & Ha)]];
    destruct (nn_cases y Hy) as [->|[->|(b & -> & Hb)]]; try done.
  apply nn_fin. cbn. rewrite <- (Qcplus_0_l 0). by apply Qcplus_le_compat.
Qed.

Lemma nn_mul_pos (x : xq) (c : Qc) : nn x -> 0 < c -> nn (x *. XFin c).
Proof.
  intros Hx Hc.
  destruct (nn_cases x Hx) as [->|[->|(a & -> & Ha)]]; try done.
  - cbn. unfold qzero, qneg.
    destruct (Qc_eq_dec c 0) as [->|_]; [by apply Qclt_not_eq in Hc|].
    destruct (Qclt_le_dec c 0) as [Hn|_]; [|done].
    exfalso. apply (Qclt_not_le _ _ Hn). by apply Qclt_le_weak.
  - apply nn_fin. cbn. apply Qcmult_nonneg_nonneg; [done|by apply Qclt_le_weak].
Qed.

Lemma nn_div_pos (x : xq) (c : Qc) : nn x -> 0 < c -> nn (x /. XFin c).
Proof.
  intros Hx Hc.
  assert (c <> 0) as Hc0 by (intros ->; by apply Qclt_not_eq in Hc).
  destruct (nn_cases x Hx) as [->|[->|(a & -> & Ha)]]; try done.
  - cbn. unfold qneg.
    destruct (Qclt_le_dec c 0) as [Hn|_]; [|done].
    exfalso. apply (Qclt_not_le _ _ Hn). by apply Qclt_le_weak.
  - rewrite xq_div_fin by done. apply nn_fin. unfold Qcdiv.
    apply Qcmult_nonneg_nonneg; [done|]. by apply Qclt_le_weak, Qcinv_pos.
Qed.

Lemma Qc_of_Z_pos (z : Z) : (0 < z)%Z -> 0 < Qc_of_Z z.
Proof. intros Hz. rewrite <- Z2Qc_inj_0. by apply (proj1 (Z2Qc_inj_lt 0 z)). Qed.

Lemma Qc_of_Z_nonneg (z : Z) : (0 <= z)%Z -> 0 <= Qc_of_Z z.
Proof. intros Hz. rewrite <- Z2Qc_inj_0. by apply (proj1 (Z2Qc_inj_le 0 z)). Qed.

Lemma nn_of_Z (z : Z) : (0 <= z)%Z -> nn (of_Z z).
Proof. intros Hz. apply nn_fin. by apply Qc_of_Z_nonneg. Qed.

(** [min(hi, x)] of a value that is not below zero is between 0 and
    [hi]. *)
Lemma fmin_nn (hi : Z) (x : xq) :
  (0 <= hi)%Z -> nn x ->
  exists q, fmin (of_Z hi) x = XFin q /\ 0 <= q <= Qc_of_Z hi.
Proof.
  intros Hhi Hx. unfold fmin.
  destruct (x <. of_Z hi) eqn:E.
  - destruct (nn_cases x Hx) as [->|[->|(a & -> & Ha)]]; try done.
    exists a. split; [done|]. split; [done|].
    apply Qclt_le_weak. by apply xq_ltb_fin in E.
  - exists (Qc_of_Z hi). split; [done|]. split; [by apply Qc_of_Z_nonneg|apply Qcle_refl].
Qed.

(** The running maximum of a loop that starts at 0 and takes a value only
    when it is greater is not below zero. *)
Lemma running_max_nn {A} (f : A -> xq) (l : list A) (acc : xq) :
  nn acc -> nn (fold_left (fun m a => if f a >. m then f a else m) l acc).
Proof.
  revert acc. induction l as [|a l IH]; intros acc Hacc; [done|].
  cbn [fold_left]. apply IH.
  destruct (f a >. acc) eqn:E; [|done].
  unfold nn. destruct (f a <. of_Z 0) eqn:E0; [|done].
  pose proof (xq_ltb_trans _ _ _ E E0) as Hbad. unfold nn in Hacc. congruence.
Qed.

End XQRanges.

(** ** HarmonicDetector: the strength is between 0 and 1 *)

Section HarmonicRange.
Import XQ.
Local Open Scope Qc_scope.

Lemma xq_not_below_100 (m : xq) :
  (m <. of_Z 100) = false ->
  m = XNaN \/ m = XInf false \/ exists q, m = XFin q /\ Qc_of_Z 100 <= q.
Proof.
  destruct m as [|s|q]; intros H; auto.
  - destruct s; [done|auto].
  - right. right. exists q. split; [done|]. by apply xq_ltb_fin_false.
Qed.

(** A harmonic that counts adds a ratio that is not below zero. *)
Lemma harmonic_ratio_nn (localMax maxMag : xq) :
  (maxMag <. of_Z 100) = false ->
  (localMax >. maxMag *. lit 2 10) = true ->
  nn (localMax /. maxMag).
Proof.
  intros Hm Hl. rewrite xq_lit in Hl by done.
  destruct (xq_not_below_100 maxMag Hm) as [->|[->|(m & -> & Hm100)]].
  - by destruct localMax.
  - destruct localMax as [|s|l]; cbn in Hl; try done; by destruct s.
  - assert (0 < m) as Hmpos.
    { eapply Qclt_le_trans; [|exact Hm100]. by apply Qc_of_Z_pos. }
    assert (m <> 0) as Hm0 by (intros ->; by apply Qclt_not_eq in Hmpos).
    destruct localMax as [|s|l]; try done.
    + destruct s; [done|]. cbn. unfold qneg.
      destruct (Qclt_le_dec m 0) as [Hn|_]; [|done].
      exfalso. apply (Qclt_not_le _ _ Hn). by apply Qclt_le_weak.
    + rewrite xq_div_fin by done. apply nn_fin.
      cbn [fmul exact xq_mul] in Hl. apply xq_ltb_fin in Hl.
      assert (0 <= l) as Hl0.
      { apply Qclt_le_weak. eapply Qcle_lt_trans; [|exact Hl].
        apply Qcmult_nonneg_nonneg; [by apply Qclt_le_weak|]. by vm_compute. }
      unfold Qcdiv. apply Qcmult_nonneg_nonneg; [done|].
      by apply Qclt_le_weak, Qcinv_pos.
Qed.

Lemma harmonicLoop_nn (magnitudes : list xq) (size : Z) (maxMag : xq) (maxBin : Z)
    (hs : list Z) (acc : xq) :
  (maxMag <. of_Z 100) = false -> nn acc ->
  nn (HarmonicDetector.harmonicLoop magnitudes size maxMag maxBin hs acc).
Proof.
  intros Hm. revert acc. induction hs as [|h hs IH]; intros acc Hacc; [done|].
  cbn [HarmonicDetector.harmonicLoop].
  destruct (maxBin * h >=? Z.quot size 2)%Z; [done|].
  apply IH.
  match goal with
  | |- nn (if ?c then _ else _) => destruct c eqn:Hc; [|done]
  end.
  apply nn_add; [done|]. by apply harmonic_ratio_nn.
Qed.

Lemma harmonic_strength_range (magnitudes : list xq) (size : Z) (binWidth : xq) :
  exists q, fst (HarmonicDetector.analyze magnitudes size binWidth) = XFin q
            /\ 0 <= q <= Qc_of_Z 1.
Proof.
  unfold HarmonicDetector.analyze.
  destruct (HarmonicDetector.findPeak _ _ _) as [maxMag maxBin].
  destruct (maxMag <. of_Z 100) eqn:Hm.
  - exists (Qc_of_Z 0). split; [done|]. split; by vm_compute.
  - cbn [fst]. apply fmin_nn; [done|].
    apply (nn_div_pos _ (Qc_of_Z 2)); [|by apply Qc_of_Z_pos].
    apply harmonicLoop_nn; [done|]. by apply nn_of_Z.
Qed.

End HarmonicRange.

(** ** AdvancedDSP: the features and the fused score are in range *)

Section FeatureRanges.
Import XQ.
Local Open Scope Qc_scope.
Context {lm : Libm xq}.

Lemma within_bool (lo hi : Z) (x : xq) :
  within lo hi x <-> (of_Z lo <=. x) = true /\ (x <=. of_Z hi) = true.
Proof. symmetry. apply xq_between. Qed.

Lemma within_of_Z (lo hi z : Z) : (lo <= z <= hi)%Z -> within lo hi (of_Z z).
Proof.
  intros [H1 H2]. exists (Qc_of_Z z). split; [done|].
  split; by apply (proj1 (Z2Qc_inj_le _ _)).
Qed.

Lemma within_lit (lo hi n d : Z) :
  (0 < d)%Z -> (lo * d <= n <= hi * d)%Z -> within lo hi (lit n d).
Proof.
  intros Hd [H1 H2]. exists (Qc_of_Z n / Qc_of_Z d). split; [apply xq_lit; lia|].
  assert (0 < Qc_of_Z d) as Hdpos by (by apply Qc_of_Z_pos).
  assert (Qc_of_Z d <> 0) as Hd0 by (intros E; rewrite E in Hdpos; by apply Qclt_not_eq in Hdpos).
  assert (forall a : Z, Qc_of_Z a = Qc_of_Z (a * d) / Qc_of_Z d) as Hscale.
  { intros a. rewrite Z2Qc_inj_mul. by field. }
  rewrite (Hscale lo), (Hscale hi). unfold Qcdiv.
  split; (apply Qcmult_le_compat_r; [by apply (proj1 (Z2Qc_inj_le _ _))|]);
    by apply Qclt_le_weak, Qcinv_pos.
Qed.

Lemma within_weaken (lo hi lo' hi' : Z) (x : xq) :
  (lo' <= lo)%Z -> (hi <= hi')%Z -> within lo hi x -> within lo' hi' x.
Proof.
  intros H1 H2 (q & -> & Hq1 & Hq2). exists q. split; [done|]. split.
  - eapply Qcle_trans; [|exact Hq1]. by apply (proj1 (Z2Qc_inj_le _ _)).
  - eapply Qcle_trans; [exact Hq2|]. by apply (proj1 (Z2Qc_inj_le _ _)).
Qed.

(** Solves [within 0 1 c] for the constants of the scoring functions. *)
Ltac unit_const :=
  first [ apply within_of_Z; lia | apply within_lit; lia ].

Ltac split_ifs :=
  repeat match goal with
    | |- context [ let '(_, _) := ?p in _ ] => destruct p
    | |- context [ if ?c then _ else _ ] => destruct c
    end.

Lemma getNarrowScore_range (s : SpectralShape.t xq) :
  within 0 1 (SpectralShape.getNarrowScore s).
Proof. unfold SpectralShape.getNarrowScore. split_ifs; unit_const. Qed.

Lemma getFrequencyStability_range (s : FrequencyTracker.t xq) :
  within 0 1 (FrequencyTracker.getFrequencyStability s).
Proof. unfold FrequencyTracker.getFrequencyStability. split_ifs; unit_const. Qed.

Lemma scoreFrequency_range (s : StabilityLobePredictor.t xq) (f : xq) :
  within 0 1 (StabilityLobePredictor.scoreFrequency s f).
Proof. unfold StabilityLobePredictor.scoreFrequency. split_ifs; unit_const. Qed.

Lemma getOscillationScore_range (s : StallGuardAnalyzer.t) (axis : Z) :
  within 0 1 (StallGuardAnalyzer.getOscillationScore (F := xq) s axis).
Proof. unfold StallGuardAnalyzer.getOscillationScore. split_ifs; unit_const. Qed.

Lemma getCombinedScore_range (s : StallGuardAnalyzer.t) :
  within 0 1 (StallGuardAnalyzer.getCombinedScore (F := xq) s).
Proof.
  unfold StallGuardAnalyzer.getCombinedScore.
  change (range 0 3) with [0; 1; 2]%Z. cbn [fold_left].
  repeat match goal with
    | |- context [ if ?c then _ else _ ] => destruct c
    end; first [apply getOscillationScore_range | unit_const].
Qed.

Lemma getChatterScore_range (s : CrestFactorAnalyzer.t xq) :
  within 0 1 (CrestFactorAnalyzer.getChatterScore s).
Proof.
  unfold CrestFactorAnalyzer.getChatterScore.
  repeat match goal with
    | |- context [ if ?c then _ else _ ] => destruct c
    end; unit_const.
Qed.

End FeatureRanges.

Section FuseRange.
Import XQ.
Local Open Scope Qc_scope.

Lemma xq_of_Z_fin (z : Z) : (of_Z z : xq) = XFin (Qc_of_Z z).
Proof. reflexivity. Qed.

Lemma xq_add_fin (a b : Qc) : XFin a +. XFin b = XFin (a + b).
Proof. reflexivity. Qed.

Lemma xq_sub_fin (a b : Qc) : XFin a -. XFin b = XFin (a - b).
Proof. reflexivity. Qed.

Lemma xq_mul_fin (a b : Qc) : XFin a *. XFin b = XFin (a * b).
Proof. reflexivity. Qed.

Lemma fuse_range (h n f l g c : Qc) (toothPassFreq : xq) (hasData : bool) :
  0 <= h <= Qc_of_Z 1 -> 0 <= n <= Qc_of_Z 1 -> 0 <= f <= Qc_of_Z 1 ->
  0 <= l <= Qc_of_Z 1 -> 0 <= g <= Qc_of_Z 1 -> 0 <= c <= Qc_of_Z 1 ->
  within 0 100
    (AdvancedDSP.fuse (XFin h) (XFin n) (XFin f) (XFin l) (XFin g) (XFin c)
       toothPassFreq hasData).
Proof.
  intros Hh Hn Hf Hl Hg Hc. unfold AdvancedDSP.fuse.
  destruct (toothPassFreq >. of_Z 10); destruct hasData.
  all: rewrite !xq_of_Z_fin, !xq_mul_fin, !xq_add_fin.
  all: match goal with
       | |- context [ if ?a >. ?b then _ else _ ] =>
           replace (a >. b) with true by (by vm_compute)
       end.
  all: rewrite xq_div_fin by (by vm_compute).
  all: rewrite xq_mul_fin.
  all: eexists; split; [reflexivity|].
  all: unfold Qcle in * ; cbn in * .
  all: rewrite ?Qred_correct in * .
  all: unfold inject_Z in * .
  all: match goal with
       | |- context [ (/ ?e)%Q ] =>
           let v := eval vm_compute in (/ e)%Q in
           let H := fresh in
           assert (H : (/ e == v)%Q) by (by vm_compute); rewrite H; clear H
       end.
  all: lra.
Qed.

Context {lm : Libm xq}.

Lemma analyze_result_ranges (s : AdvancedDSP.t xq) (fftMagnitudes : list xq) (fftSize : Z)
    (vibMagnitude micRMS : xq) (millis : Z) :
  let r := snd (AdvancedDSP.analyze s fftMagnitudes fftSize vibMagnitude micRMS millis) in
  within 0 100 (AdvancedDSP.chatterScore r)
  /\ within 0 1 (AdvancedDSP.harmonicStrength r)
  /\ within 0 1 (AdvancedDSP.spectralNarrowness r)
  /\ within 0 1 (AdvancedDSP.freqStability r)
  /\ within 0 1 (AdvancedDSP.stabilityLobeMatch r)
  /\ within 0 1 (AdvancedDSP.stallGuardScore r).
Proof.
  cbv zeta. unfold AdvancedDSP.analyze.
  pose proof (harmonic_strength_range fftMagnitudes fftSize (AdvancedDSP.binWidth s)) as Hh.
  destruct (HarmonicDetector.analyze fftMagnitudes fftSize (AdvancedDSP.binWidth s))
    as [h fundamental].
  cbn [fst] in Hh.
  cbn [snd AdvancedDSP.chatterScore AdvancedDSP.harmonicStrength
       AdvancedDSP.spectralNarrowness AdvancedDSP.freqStability
       AdvancedDSP.stabilityLobeMatch AdvancedDSP.stallGuardScore].
  match goal with
  | |- within 0 100 (AdvancedDSP.fuse _ ?n ?f ?l ?g ?c _ _) /\ _ =>
      assert (within 0 1 n) as Hn by apply getNarrowScore_range;
      assert (within 0 1 f) as Hf by apply getFrequencyStability_range;
      assert (within 0 1 l) as Hl by apply scoreFrequency_range;
      assert (within 0 1 g) as Hg by apply getCombinedScore_range;
      assert (within 0 1 c) as Hc by apply getChatterScore_range;
      generalize dependent n; generalize dependent f; generalize dependent l;
      generalize dependent g; generalize dependent c
  end.
  intros c (qc & -> & Hc) g (qg & -> & Hg) l (ql & -> & Hl) f (qf & -> & Hf)
    n (qn & -> & Hn).
  destruct Hh as (qh & -> & Hh).
  rewrite Z2Qc_inj_0 in * .
  split; [by apply fuse_range|].
  repeat split; (eexists; split; [reflexivity|]); by rewrite ?Z2Qc_inj_0.
Qed.

Lemma getConfidenceMultiplier_range (s : CrossCorrelator.t xq) :
  within 7 13 (CrossCorrelator.getConfidenceMultiplier s *. of_Z 10).
Proof.
  unfold CrossCorrelator.getConfidenceMultiplier.
  repeat match goal with
    | |- context [ if ?c then _ else _ ] => destruct c
    end; apply within_bool; split; by vm_compute.
Qed.

Lemma fmin_fin_lower (lo hi : Z) (q : Qc) :
  (lo <= hi)%Z -> Qc_of_Z lo <= q -> within lo hi (fmin (of_Z hi) (XFin q)).
Proof.
  intros Hlh Hq. unfold fmin. destruct (XFin q <. of_Z hi) eqn:E.
  - exists q. split; [done|]. split; [done|].
    apply Qclt_le_weak. by apply xq_ltb_fin in E.
  - apply within_of_Z. lia.
Qed.

Lemma confidence_range (s : AdvancedDSP.t xq) (fftMagnitudes : list xq) (fftSize : Z)
    (vibMagnitude micRMS : xq) (millis : Z) :
  let r := snd (AdvancedDSP.analyze s fftMagnitudes fftSize vibMagnitude micRMS millis) in
  within 57 100 (AdvancedDSP.confidence r).
Proof.
  cbv zeta. unfold AdvancedDSP.analyze.
  destruct (HarmonicDetector.analyze fftMagnitudes fftSize (AdvancedDSP.binWidth s))
    as [h fundamental].
  cbn [snd AdvancedDSP.confidence].
  match goal with
  | |- context [ CrossCorrelator.getConfidenceMultiplier ?cc *. of_Z 10 ] =>
      destruct (getConfidenceMultiplier_range cc) as (m & -> & Hm)
  end.
  repeat match goal with
    | |- context [ if ?c then _ else _ ] =>
        lazymatch c with
        | fltb _ (fadd _ _) => fail
        | _ => destruct c
        end
    end.
  all: rewrite !xq_of_Z_fin, !xq_add_fin; apply fmin_fin_lower; [lia|].
  all: destruct Hm as [Hm _]; unfold Qcle in * ; cbn in * ;
    rewrite ?Qred_correct in * ; unfold inject_Z in * ; lra.
Qed.

End FuseRange.

(** ** The smoothed score stays between 0 and 100 *)

Section ScoreRange.
Import XQ.
Local Open Scope Qc_scope.
Context {lm : Libm xq}.

Lemma fmax_zero_nn (y : xq) : nn (fmax (of_Z 0) y).
Proof.
  unfold fmax. destruct (of_Z 0 <. y) eqn:E.
  - unfold nn. by apply xq_ltb_asym.
  - by apply nn_of_Z.
Qed.

Lemma fmin_100_within (x : xq) : nn x -> within 0 100 (fmin (of_Z 100) x).
Proof.
  intros Hx. destruct (fmin_nn 100 x) as (q & Hq & H0 & H1); [done|done|].
  exists q. split; [done|]. by rewrite Z2Qc_inj_0.
Qed.

Lemma within_nn (lo hi : Z) (x : xq) : (0 <= lo)%Z -> within lo hi x -> nn x.
Proof.
  intros Hlo (q & -> & Hq & _). apply nn_fin.
  eapply Qcle_trans; [|exact Hq]. by apply Qc_of_Z_nonneg.
Qed.

Lemma nn_mul_lit (x : xq) (n d : Z) : (0 < n)%Z -> (0 < d)%Z -> nn x -> nn (x *. lit n d).
Proof.
  intros Hn Hd Hx. rewrite xq_lit by lia. apply nn_mul_pos; [done|].
  unfold Qcdiv. rewrite <- (Qcmult_0_l (/ Qc_of_Z d)).
  apply Qcmult_lt_compat_r; [|by apply Qc_of_Z_pos].
  apply Qcinv_pos. by apply Qc_of_Z_pos.
Qed.

Lemma vib_getAnomalyScore_range (s : VibrationTracker.t xq) :
  within 0 100 (VibrationTracker.getAnomalyScore s).
Proof.
  unfold VibrationTracker.getAnomalyScore. apply fmin_100_within, fmax_zero_nn.
Qed.

Lemma anomaly_loop_nn (bands : list (FrequencyBandAnalyzer.Band xq)) (maxZ : xq) (c : Z) :
  nn maxZ -> (0 <= c)%Z ->
  let r := fold_left (fun '(maxZ, anomalyCount) b =>
        (if FrequencyBandAnalyzer.zScore b >. maxZ
         then FrequencyBandAnalyzer.zScore b else maxZ,
         if FrequencyBandAnalyzer.isAnomaly b then (anomalyCount + 1)%Z else anomalyCount))
        bands (maxZ, c) in
  nn (fst r) /\ (0 <= snd r)%Z.
Proof.
  revert maxZ c. induction bands as [|b bands IH]; intros maxZ c Hz Hc; [done|].
  cbn [fold_left]. apply IH.
  - destruct (FrequencyBandAnalyzer.zScore b >. maxZ) eqn:E; [|done].
    unfold nn. destruct (FrequencyBandAnalyzer.zScore b <. of_Z 0) eqn:E0; [|done].
    pose proof (xq_ltb_trans _ _ _ E E0) as Hbad. unfold nn in Hz. congruence.
  - destruct (FrequencyBandAnalyzer.isAnomaly b); lia.
Qed.

Lemma freq_getAnomalyScore_range (s : FrequencyBandAnalyzer.t xq) :
  within 0 100 (FrequencyBandAnalyzer.getAnomalyScore s).
Proof.
  unfold FrequencyBandAnalyzer.getAnomalyScore.
  destruct (negb _); [apply within_of_Z; lia|].
  pose proof (anomaly_loop_nn (FrequencyBandAnalyzer.bands s) (of_Z 0) 0) as H.
  cbv zeta in H. destruct (fold_left _ _ _) as [maxZ cnt]. cbn [fst snd] in H.
  destruct H as [Hz Hc]; [by apply nn_of_Z|done|].
  apply fmin_100_within. apply nn_add.
  - rewrite xq_of_Z_fin. apply nn_mul_pos; [done|]. by apply Qc_of_Z_pos.
  - rewrite !xq_of_Z_fin, xq_mul_fin. apply nn_fin.
    apply Qcmult_nonneg_nonneg; by apply Qc_of_Z_nonneg.
Qed.

(** Outside calibration [update] smooths a raw score that it has clamped
    to the range from 0 to 100. *)
Lemma update_smoothing (d : AdaptiveChatterDetector.t xq)
    (fftMagnitudes : list xq) (fftSize0 : Z) (vibMagnitude micRMS : xq)
    (clk : AdaptiveChatterDetector.Clock) :
  AdaptiveChatterDetector.currentState d <> AdaptiveChatterDetector.CALIBRATING ->
  exists r : xq,
    within 0 100 r
    /\ AdaptiveChatterDetector.smoothedScore
         (AdaptiveChatterDetector.update d fftMagnitudes fftSize0 vibMagnitude micRMS clk)
       = AdaptiveChatterDetector.smoothedScore d *. lit 7 10 +. r *. lit 3 10.
Proof.
  intros Hs. unfold AdaptiveChatterDetector.update.
  rewrite bool_decide_eq_false_2 by done.
  pose proof (analyze_result_ranges (AdaptiveChatterDetector.advancedDSP d) fftMagnitudes
                fftSize0 vibMagnitude micRMS (AdaptiveChatterDetector.at_onset clk))
    as (Hdsp & _).
  cbv zeta in Hdsp.
  destruct (AdvancedDSP.analyze _ _ _ _ _ _) as [dsp adv]. cbn [snd] in Hdsp.
  destruct (ChatterMemory.getPredictedChatterRange _ _) as [lowHz highHz].
  match goal with
  | |- context [ (?base *. lit 4 10 +. ?dspScore *. lit 6 10) ] =>
      assert (nn (base *. lit 4 10 +. dspScore *. lit 6 10)) as Hraw
  end.
  { apply nn_add; apply nn_mul_lit; try lia.
    - apply nn_add; apply nn_mul_lit; try lia.
      + eapply within_nn; [|apply freq_getAnomalyScore_range]. lia.
      + eapply within_nn; [|apply vib_getAnomalyScore_range]. lia.
    - eapply within_nn; [|exact Hdsp]. lia. }
  match goal with
  | |- context [ let '(_, _) := ?p in _ ] =>
      assert (nn (fst p)) as Hraw1
        by (destruct (_ && _); cbn [fst]; [apply nn_mul_lit; [lia|lia|exact Hraw]|exact Hraw]);
      destruct p as [raw learned]
  end.
  cbn [fst] in Hraw1.
  match goal with
  | |- context [ fmin (of_Z 100) ?raw4 ] =>
      assert (nn raw4) as Hraw4
        by (repeat match goal with
              | |- nn (if ?c then _ else _) => destruct c
              | |- nn (_ *. lit _ _) => apply nn_mul_lit; [lia|lia|]
              end; exact Hraw1);
      exists (fmin (of_Z 100) raw4)
  end.
  split; [by apply fmin_100_within|].
  by rewrite updateState_smoothedScore.
Qed.

Lemma smoothing_within (s r : xq) :
  within 0 100 s -> within 0 100 r ->
  within 0 100 (s *. lit 7 10 +. r *. lit 3 10).
Proof.
  intros (a & -> & Ha) (b & -> & Hb). rewrite !xq_lit by done.
  rewrite !xq_mul_fin, xq_add_fin. eexists. split; [reflexivity|].
  unfold Qcle in * . cbn in * . rewrite ?Qred_correct in * . unfold inject_Z in * .
  assert (Qred (7 # 10) == 7 # 10)%Q as -> by apply Qred_correct.
  assert (Qred (3 # 10) == 3 # 10)%Q as -> by apply Qred_correct.
  lra.
Qed.

Lemma update_smoothedScore_within (d : AdaptiveChatterDetector.t xq)
    (fftMagnitudes : list xq) (fftSize0 : Z) (vibMagnitude micRMS : xq)
    (clk : AdaptiveChatterDetector.Clock) :
  within 0 100 (AdaptiveChatterDetector.smoothedScore d) ->
  within 0 100
    (AdaptiveChatterDetector.smoothedScore
       (AdaptiveChatterDetector.update d fftMagnitudes fftSize0 vibMagnitude micRMS clk)).
Proof.
  intros Hd.
  destruct (decide (AdaptiveChatterDetector.currentState d
                    = AdaptiveChatterDetector.CALIBRATING)) as [Hs|Hs].
  - by rewrite update_calibrating_keeps_smoothedScore.
  - destruct (update_smoothing d fftMagnitudes fftSize0 vibMagnitude micRMS clk Hs)
      as (r & Hr & ->).
    by apply smoothing_within.
Qed.

End ScoreRange.

(** ** The sketch: what holds in every state it reaches *)

Section SketchFacts.
Context {F : Type} {ops : FloatOps F} {lm : Libm F}.

Lemma handleSerialCommands_detector (g : Sketch.t F) (cmd : Sketch.Command F) :
  let d := Sketch.chatterDetector g in
  Sketch.chatterDetector (Sketch.handleSerialCommands g cmd)
  = match cmd with
    | Sketch.CmdCalibrate => AdaptiveChatterDetector.startCalibration d
    | Sketch.CmdResolved => AdaptiveChatterDetector.confirmChatterResolved d
    | Sketch.CmdRPM rpm => AdaptiveChatterDetector.setSpindleRPM d rpm
    | Sketch.CmdFeed feed => AdaptiveChatterDetector.setFeedRate d feed
    | Sketch.CmdTool teeth diameter => AdaptiveChatterDetector.setToolParams d teeth diameter
    | Sketch.CmdSG axis sg => AdaptiveChatterDetector.pushStallGuard d axis (sg mod 2 ^ 16)
    | Sketch.CmdOther => d
    end.
Proof. by destruct cmd. Qed.

(** Induction over the states of the detector that the sketch reaches: a
    property that holds after [setup] and is kept by every serial command
    and by every sensor update holds after any sequence of passes. *)
Lemma sketch_induction (P : AdaptiveChatterDetector.t F -> Prop)
    (p : gmap string (nvs_entry F)) :
  P (AdaptiveChatterDetector.init (AdaptiveChatterDetector.initial p)
       (of_Z Sketch.SAMPLING_FREQ) Sketch.SAMPLES) ->
  (forall d, P d -> P (AdaptiveChatterDetector.startCalibration d)) ->
  (forall d, P d -> P (AdaptiveChatterDetector.confirmChatterResolved d)) ->
  (forall d rpm, P d -> P (AdaptiveChatterDetector.setSpindleRPM d rpm)) ->
  (forall d feed, P d -> P (AdaptiveChatterDetector.setFeedRate d feed)) ->
  (forall d teeth diameter, P d -> P (AdaptiveChatterDetector.setToolParams d teeth diameter)) ->
  (forall d axis sg, P d -> P (AdaptiveChatterDetector.pushStallGuard d axis sg)) ->
  (forall d vReal vib clk, P d ->
     P (AdaptiveChatterDetector.update d vReal Sketch.SAMPLES vib (of_Z 0) clk)) ->
  forall xs : list (Sketch.Pass F), P (Sketch.chatterDetector (Sketch.run p xs)).
Proof.
  intros Hinit Hcal Hres Hrpm Hfeed Htool Hsg Hupd xs. unfold Sketch.run.
  induction xs as [|x xs IH] using rev_ind; [exact Hinit|].
  rewrite fold_left_app. cbn [fold_left].
  set (g := fold_left Sketch.loop xs (Sketch.setup (Sketch.initial p))) in * .
  unfold Sketch.loop.
  assert (P (Sketch.chatterDetector
               match Sketch.p_line x with
               | Some cmd => Sketch.handleSerialCommands g cmd
               | None => g
               end)) as Hline.
  { destruct (Sketch.p_line x) as [cmd|]; [|done].
    rewrite handleSerialCommands_detector. cbv zeta. destruct cmd; auto. }
  destruct (Sketch.UPDATE_INTERVAL <=? _); [|exact Hline].
  cbn [Sketch.fuseSensors Sketch.chatterDetector Sketch.set_lastUpdate]. by apply Hupd.
Qed.

End SketchFacts.

Section DetectorInvariant.
Context {F : Type} {ops : FloatOps F} {lm : Libm F}.
Import AdaptiveChatterDetector.

Lemma omap_length_le {A B} (f : A -> option B) (l : list A) :
  (length (omap f l) <= length l)%nat.
Proof.
  induction l as [|x l IH]; [done|].
  rewrite omap_cons_list, length_app. destruct (f x); cbn [option_list]; simpl length; lia.
Qed.

Lemma loadFromFlash_length (m : ChatterMemory.t F) :
  (length (ChatterMemory.events (ChatterMemory.loadFromFlash m)) <= 10)%nat.
Proof.
  unfold ChatterMemory.loadFromFlash. cbn [ChatterMemory.events].
  rewrite loadLoop_omap. cbn [app].
  etrans; [apply omap_length_le|].
  rewrite length_reverse. unfold range. rewrite length_seqZ. lia.
Qed.

Lemma recordEvent_length (m : ChatterMemory.t F) (e : ChatterEvent.t F) :
  (length (ChatterMemory.events m) <= 50)%nat ->
  (length (ChatterMemory.events (ChatterMemory.recordEvent m e)) <= 50)%nat.
Proof.
  intros H. rewrite recordEvent_events_drop by done.
  rewrite length_drop, length_app. cbn [length]. lia.
Qed.

Lemma markResolved_length (m : ChatterMemory.t F) (r : F) :
  length (ChatterMemory.events (ChatterMemory.markResolved m r))
  = length (ChatterMemory.events m).
Proof.
  destruct (ChatterMemory.events m) as [|e l _] eqn:He using rev_ind.
  - by rewrite markResolved_empty, He.
  - rewrite (markResolved_snoc m r l e He), saveToFlash_events.
    cbn [ChatterMemory.events]. by rewrite !length_app.
Qed.

(** [updateState] leaves the analyzers, the last DSP result and the
    smoothed score alone. *)
Lemma updateState_analyzers (d : AdaptiveChatterDetector.t F) score freq now stamp :
  let d' := updateState d score freq now stamp in
  freqAnalyzer d' = freqAnalyzer d /\ vibTracker d' = vibTracker d
  /\ advancedDSP d' = advancedDSP d /\ lastAdvResult d' = lastAdvResult d
  /\ usingLearnedData d' = usingLearnedData d.
Proof.
  cbv zeta. unfold updateState.
  destruct (currentState d);
    repeat match goal with
      | |- context [ if ?c then _ else _ ] => destruct c
      end; done.
Qed.

Lemma updateState_events_length (d : AdaptiveChatterDetector.t F) score freq now stamp :
  (length (ChatterMemory.events (memory d)) <= 50)%nat ->
  (length (ChatterMemory.events (memory (updateState d score freq now stamp))) <= 50)%nat.
Proof.
  intros H. unfold updateState.
  destruct (currentState d);
    repeat match goal with
      | |- context [ if ?c then _ else _ ] => destruct c
      end;
    cbn [memory set_state set_lastChatterTime set_suggestedFeed set_interventionFeed
         set_memory recordChatterEvent confirmChatterResolved];
    rewrite ?markResolved_length; try done; by apply recordEvent_length.
Qed.

(** Outside calibration an update leaves the two calibrations as they
    are. *)
Lemma update_keeps_calibration (d : AdaptiveChatterDetector.t F)
    (fftMagnitudes : list F) (fftSize0 : Z) (vibMagnitude micRMS : F) (clk : Clock) :
  currentState d <> CALIBRATING ->
  let d' := update d fftMagnitudes fftSize0 vibMagnitude micRMS clk in
  FrequencyBandAnalyzer.calibrationSamples (freqAnalyzer d')
  = FrequencyBandAnalyzer.calibrationSamples (freqAnalyzer d)
  /\ FrequencyBandAnalyzer.calibrated (freqAnalyzer d')
     = FrequencyBandAnalyzer.calibrated (freqAnalyzer d)
  /\ VibrationTracker.baseline (vibTracker d') = VibrationTracker.baseline (vibTracker d).
Proof.
  intros Hs. cbv zeta. unfold update. rewrite bool_decide_eq_false_2 by done.
  destruct (AdvancedDSP.analyze _ _ _ _ _ _) as [dsp adv].
  destruct (ChatterMemory.getPredictedChatterRange _ _) as [lowHz highHz].
  match goal with
  | |- context [ let '(_, _) := ?p in _ ] => destruct p as [raw learned]
  end.
  match goal with
  | |- context [ updateState ?d1 ?sc ?fq ?now ?st ] =>
      destruct (updateState_analyzers d1 sc fq now st) as (-> & -> & _)
  end.
  done.
Qed.

(** What an update does to the DSP engine and to the last DSP result:
    nothing during calibration, one [analyze] call otherwise. *)
Lemma update_advancedDSP (d : AdaptiveChatterDetector.t F)
    (fftMagnitudes : list F) (fftSize0 : Z) (vibMagnitude micRMS : F) (clk : Clock) :
  let d' := update d fftMagnitudes fftSize0 vibMagnitude micRMS clk in
  let a := AdvancedDSP.analyze (advancedDSP d) fftMagnitudes fftSize0 vibMagnitude micRMS
             (at_onset clk) in
  if bool_decide (currentState d = CALIBRATING)
  then advancedDSP d' = advancedDSP d /\ lastAdvResult d' = lastAdvResult d
  else advancedDSP d' = fst a /\ lastAdvResult d' = snd a.
Proof.
  cbv zeta. unfold update. destruct (bool_decide (currentState d = CALIBRATING)); [done|].
  destruct (AdvancedDSP.analyze _ _ _ _ _ _) as [dsp adv].
  destruct (ChatterMemory.getPredictedChatterRange _ _) as [lowHz highHz].
  match goal with
  | |- context [ let '(_, _) := ?p in _ ] => destruct p as [raw learned]
  end.
  match goal with
  | |- context [ updateState ?d1 ?sc ?fq ?now ?st ] =>
      destruct (updateState_analyzers d1 sc fq now st) as (_ & _ & -> & -> & _)
  end.
  done.
Qed.

Lemma update_calibrating_memory (d : AdaptiveChatterDetector.t F)
    (fftMagnitudes : list F) (fftSize0 : Z) (vibMagnitude micRMS : F) (clk : Clock) :
  currentState d = CALIBRATING ->
  memory (update d fftMagnitudes fftSize0 vibMagnitude micRMS clk) = memory d.
Proof. intros Hs. unfold update. by rewrite bool_decide_eq_true_2. Qed.

Lemma update_invariant (d : AdaptiveChatterDetector.t F)
    (fftMagnitudes : list F) (fftSize0 : Z) (vibMagnitude micRMS : F) (clk : Clock) :
  detector_invariant d ->
  detector_invariant (update d fftMagnitudes fftSize0 vibMagnitude micRMS clk).
Proof.
  intros (Hev & Hpos & Hcal & Hout).
  destruct (decide (currentState d = CALIBRATING)) as [Hs|Hs].
  - destruct (update_calibrating d fftMagnitudes fftSize0 vibMagnitude micRMS clk Hs)
      as (H1 & H2 & H3 & H4).
    cbv zeta in H1, H2, H3, H4.
    unfold detector_invariant. rewrite update_calibrating_memory, H1, H2, H3, H4 by done.
    split; [done|]. split; [lia|].
    set (k := FrequencyBandAnalyzer.calibrationSamples (freqAnalyzer d)) in * .
    rewrite Hcal.
    assert ((if k + 1 >=? 100 then true else 100 <=? k) = (100 <=? k + 1)) as ->.
    { rewrite Z.geb_leb. destruct (Z.leb_spec 100 (k + 1)); [done|].
      destruct (Z.leb_spec 100 k); [lia|done]. }
    split; [done|].
    destruct (100 <=? k + 1); cbn [andb]; [|done].
    match goal with
    | |- context [ ?n >=? 50 ] => destruct (Z.geb_spec n 50); [|done]
    end.
    intros _. split; [done|lia].
  - destruct (update_keeps_calibration d fftMagnitudes fftSize0 vibMagnitude micRMS clk Hs)
      as (H1 & H2 & H3).
    cbv zeta in H1, H2, H3.
    unfold detector_invariant. rewrite H1, H2, H3.
    destruct (Hout Hs) as [Hc Hn].
    split; [|by repeat split].
    destruct (update_ends_with_updateState d fftMagnitudes fftSize0 vibMagnitude micRMS clk Hs)
      as (d1 & f & -> & _ & Hm & _).
    apply updateState_events_length. by rewrite Hm.
Qed.

Lemma init_invariant (d : AdaptiveChatterDetector.t F) (sampleRate0 : F) (fftSize0 : Z) :
  detector_invariant (init d sampleRate0 fftSize0).
Proof.
  unfold detector_invariant. split; [|by repeat split].
  cbn [init memory]. unfold ChatterMemory.init.
  pose proof (loadFromFlash_length (memory d)). lia.
Qed.

Lemma startCalibration_invariant (d : AdaptiveChatterDetector.t F) :
  detector_invariant d -> detector_invariant (startCalibration d).
Proof. intros (Hev & _). unfold detector_invariant. cbn. by repeat split. Qed.

Lemma confirmChatterResolved_invariant (d : AdaptiveChatterDetector.t F) :
  detector_invariant d -> detector_invariant (confirmChatterResolved d).
Proof.
  intros (Hev & Hrest). unfold detector_invariant.
  cbn [confirmChatterResolved set_memory memory freqAnalyzer vibTracker currentState].
  by rewrite markResolved_length.
Qed.

Lemma sketch_invariant (p : gmap string (nvs_entry F)) (xs : list (Sketch.Pass F)) :
  detector_invariant (Sketch.chatterDetector (Sketch.run p xs)).
Proof.
  apply sketch_induction; try done.
  - apply init_invariant.
  - apply startCalibration_invariant.
  - apply confirmChatterResolved_invariant.
  - intros. by apply update_invariant.
Qed.

End DetectorInvariant.

(** X7.  The memory stays bounded.  In every state the sketch reaches
    (after [setup], whatever the flash held, and any sequence of serial
    commands and sensor updates) the memory holds at most 50 events, and
    the number of resolved events is at most the number of events. *)
Theorem sketch_memory_bounded {F : Type} {ops : FloatOps F} {lm : Libm F}
    (p : gmap string (nvs_entry F)) (xs : list (Sketch.Pass F)) :
  let m := AdaptiveChatterDetector.memory (Sketch.chatterDetector (Sketch.run p xs)) in
  0 <= ChatterMemory.getResolvedCount m <= ChatterMemory.getEventCount m
  /\ ChatterMemory.getEventCount m <= 50.
Proof.
  cbv zeta. destruct (sketch_invariant p xs) as (Hev & _).
  unfold ChatterMemory.getResolvedCount, ChatterMemory.getEventCount, ChatterMemory.size.
  pose proof (length_filter (fun e => ChatterEvent.resolved e = true)
                (ChatterMemory.events
                   (AdaptiveChatterDetector.memory
                      (Sketch.chatterDetector (Sketch.run p xs))))).
  lia.
Qed.

(** X8.  The calibration progress.  In every state the sketch reaches the
    progress that [getStatus] reports is between 0 and 100; the answer to
    INFO says "calibrated" (progress at least 100) exactly when the band
    analyzer is calibrated; and whenever the detector is not CALIBRATING the
    progress is 100 and the vibration baseline has its 50 samples. *)
Theorem sketch_calibration_progress {F : Type} {ops : FloatOps F} {lm : Libm F}
    (p : gmap string (nvs_entry F)) (xs : list (Sketch.Pass F)) :
  let d := Sketch.chatterDetector (Sketch.run p xs) in
  let status := AdaptiveChatterDetector.getStatus d in
  0 <= AdaptiveChatterDetector.st_calibrationPct status <= 100
  /\ Sketch.infoCalibrated status
     = FrequencyBandAnalyzer.isCalibrated (AdaptiveChatterDetector.freqAnalyzer d)
  /\ (AdaptiveChatterDetector.currentState d <> AdaptiveChatterDetector.CALIBRATING ->
      AdaptiveChatterDetector.st_calibrationPct status = 100
      /\ VibrationTracker.isCalibrated (AdaptiveChatterDetector.vibTracker d) = true).
Proof.
  cbv zeta. destruct (sketch_invariant p xs) as (_ & Hpos & Hcal & Hout).
  unfold Sketch.infoCalibrated, FrequencyBandAnalyzer.isCalibrated,
    VibrationTracker.isCalibrated, RunningStats.getCount.
  cbn [AdaptiveChatterDetector.getStatus AdaptiveChatterDetector.st_calibrationPct].
  unfold FrequencyBandAnalyzer.getCalibrationProgress,
    FrequencyBandAnalyzer.MIN_CALIBRATION_SAMPLES.
  set (d := Sketch.chatterDetector (Sketch.run p xs)) in * .
  set (k := FrequencyBandAnalyzer.calibrationSamples
              (AdaptiveChatterDetector.freqAnalyzer d)) in * .
  rewrite Z.quot_mul by done. rewrite Hcal.
  split; [lia|]. split; [lia|].
  intros Hs. destruct (Hout Hs) as [Hc Hn]. rewrite Hcal in Hc. lia.
Qed.

(** ** The status of the deployed detector is in range *)

Section StatusRange.
Import XQ AdaptiveChatterDetector.
Local Open Scope Qc_scope.
Context {lm : Libm xq}.

Lemma result_invariant_update (d : AdaptiveChatterDetector.t xq)
    (fftMagnitudes : list xq) (fftSize0 : Z) (vibMagnitude micRMS : xq) (clk : Clock) :
  status_in_range d ->
  status_in_range (update d fftMagnitudes fftSize0 vibMagnitude micRMS clk).
Proof.
  intros (Hs & Hr). split; [by apply update_smoothedScore_within|].
  pose proof (update_advancedDSP d fftMagnitudes fftSize0 vibMagnitude micRMS clk) as Ha.
  cbv zeta in Ha. destruct (bool_decide _).
  - destruct Ha as [_ ->]. exact Hr.
  - destruct Ha as [_ ->].
    pose proof (analyze_result_ranges (advancedDSP d) fftMagnitudes fftSize0 vibMagnitude
                  micRMS (at_onset clk)) as (H1 & H2 & _ & _ & H5 & H6).
    done.
Qed.

Lemma sketch_status_in_range (p : gmap string (nvs_entry xq)) (xs : list (Sketch.Pass xq)) :
  status_in_range (Sketch.chatterDetector (Sketch.run p xs)).
Proof.
  apply sketch_induction; try done.
  - split; [apply within_of_Z; lia|].
    repeat split; apply within_of_Z; lia.
  - intros. by apply result_invariant_update.
Qed.

Lemma within_add_nonneg (lo : Z) (q t : Qc) :
  Qc_of_Z lo <= q -> 0 <= t -> Qc_of_Z lo <= q + t.
Proof.
  intros Hq Ht. rewrite <- (Qcplus_0_r (Qc_of_Z lo)). by apply Qcplus_le_compat.
Qed.

Lemma fmin_15_nonneg (x : Qc) :
  0 <= x -> exists t, fmin (of_Z 15) (XFin x) = XFin t /\ 0 <= t.
Proof.
  intros Hx. destruct (fmin_nn 15 (XFin x)) as (t & Ht & H0 & _); [done|by apply nn_fin|].
  by exists t.
Qed.

Lemma calculateConfidence_range (d : AdaptiveChatterDetector.t xq) :
  (0 <= FrequencyBandAnalyzer.calibrationSamples (freqAnalyzer d))%Z ->
  within 40 100 (calculateConfidence d).
Proof.
  intros Hk. unfold calculateConfidence.
  assert (0 <= FrequencyBandAnalyzer.getCalibrationProgress (freqAnalyzer d))%Z as Hp.
  { unfold FrequencyBandAnalyzer.getCalibrationProgress,
      FrequencyBandAnalyzer.MIN_CALIBRATION_SAMPLES.
    rewrite Z.quot_mul by done. lia. }
  assert (0 <= ChatterMemory.getResolvedCount (memory d))%Z as Hr
    by (unfold ChatterMemory.getResolvedCount; lia).
  rewrite !xq_lit by done. rewrite !xq_of_Z_fin, !xq_mul_fin.
  destruct (fmin_15_nonneg
              (Qc_of_Z (FrequencyBandAnalyzer.getCalibrationProgress (freqAnalyzer d))
               * (Qc_of_Z 15 / Qc_of_Z 100))) as (t1 & Ht1 & Ht1pos).
  { apply Qcmult_nonneg_nonneg; [by apply Qc_of_Z_nonneg|by vm_compute]. }
  destruct (fmin_15_nonneg
              (Qc_of_Z (ChatterMemory.getResolvedCount (memory d))
               * (Qc_of_Z 15 / Qc_of_Z 10))) as (t2 & Ht2 & Ht2pos).
  { apply Qcmult_nonneg_nonneg; [by apply Qc_of_Z_nonneg|by vm_compute]. }
  rewrite !xq_of_Z_fin in Ht1, Ht2. rewrite Ht1, Ht2, !xq_add_fin.
  assert (Qc_of_Z 40 <= Qc_of_Z 40 + t1 + t2) as Hbase.
  { apply within_add_nonneg; [|done]. apply within_add_nonneg; [apply Qcle_refl|done]. }
  revert Hbase. generalize (Qc_of_Z 40 + t1 + t2). intros q Hq.
  repeat match goal with
    | |- context [ if ?c then _ else _ ] =>
        lazymatch c with
        | fltb _ (XFin _) => fail
        | _ => destruct c
        end
    end.
  all: rewrite ?xq_add_fin.
  all: apply fmin_fin_lower; [lia|].
  all: repeat (apply within_add_nonneg; [|by vm_compute]); exact Hq.
Qed.

End StatusRange.

(** X9.  The status is in its documented range.  Over exact arithmetic, in
    every state the sketch reaches and for every input, spectra and
    vibration magnitudes with NaN or infinite entries included: the score
    that [getStatus] reports is a finite number between 0 and 100, and so
    are the scores the sketch copies from it for the display; the
    confidence is between 40 and 100; and the harmonic strength, the
    stability-lobe match and the stall-guard score are between 0 and 1. *)
Theorem sketch_status_ranges (lm : Libm XQ.xq)
    (p : gmap string (nvs_entry XQ.xq)) (xs : list (Sketch.Pass XQ.xq)) :
  let g := Sketch.run p xs in
  let status := AdaptiveChatterDetector.getStatus (Sketch.chatterDetector g) in
  let between lo hi (x : XQ.xq) := (of_Z lo <=. x) = true /\ (x <=. of_Z hi) = true in
  between 0 100 (AdaptiveChatterDetector.st_score status)
  /\ between 0 100 (Sketch.fusedChatterScore g)
  /\ between 0 100 (Sketch.micChatterScore g)
  /\ between 40 100 (AdaptiveChatterDetector.st_confidence status)
  /\ between 0 1 (AdaptiveChatterDetector.st_harmonicStrength status)
  /\ between 0 1 (AdaptiveChatterDetector.st_stabilityMatch status)
  /\ between 0 1 (AdaptiveChatterDetector.st_stallGuardScore status).
Proof.
  cbv zeta.
  destruct (sketch_status_in_range p xs) as (Hs & _ & Hh & Hl & Hg).
  destruct (sketch_invariant p xs) as (_ & Hk & _).
  cbn [AdaptiveChatterDetector.getStatus AdaptiveChatterDetector.st_score
       AdaptiveChatterDetector.st_confidence AdaptiveChatterDetector.st_harmonicStrength
       AdaptiveChatterDetector.st_stabilityMatch AdaptiveChatterDetector.st_stallGuardScore].
  rewrite <- !within_bool.
  split; [done|].
  assert (within 0 100 (Sketch.fusedChatterScore (Sketch.run p xs))
          /\ within 0 100 (Sketch.micChatterScore (Sketch.run p xs))) as [Hf Hm].
  { clear. unfold Sketch.run.
    induction xs as [|x xs IH] using rev_ind.
    - split; apply within_of_Z; lia.
    - rewrite fold_left_app. cbn [fold_left].
      pose proof (sketch_status_in_range p (xs ++ [x])) as (Hs & _).
      unfold Sketch.run in Hs. rewrite fold_left_app in Hs. cbn [fold_left] in Hs.
      set (g := fold_left Sketch.loop xs (Sketch.setup (Sketch.initial p))) in * .
      unfold Sketch.loop in * .
      assert (forall g0 : Sketch.t XQ.xq,
                Sketch.fusedChatterScore
                  match Sketch.p_line x with
                  | Some cmd => Sketch.handleSerialCommands g0 cmd
                  | None => g0
                  end = Sketch.fusedChatterScore g0
                /\ Sketch.micChatterScore
                     match Sketch.p_line x with
                     | Some cmd => Sketch.handleSerialCommands g0 cmd
                     | None => g0
                     end = Sketch.micChatterScore g0) as Hline.
      { intros g0. destruct (Sketch.p_line x) as [[]|]; done. }
      destruct (Sketch.UPDATE_INTERVAL <=? _).
      + cbn [Sketch.fuseSensors Sketch.fusedChatterScore Sketch.micChatterScore
             AdaptiveChatterDetector.getStatus AdaptiveChatterDetector.st_score] in * .
        done.
      + destruct (Hline g) as [-> ->]. exact IH. }
  split; [done|]. split; [done|].
  split; [by apply calculateConfidence_range|]. done.
Qed.

(** ** The sketch passes no microphone level *)

Lemma aget_replicate_zero {F : Type} {ops : FloatOps F} (n : nat) (i : Z) :
  replicate n (of_Z 0 : F) @@ i = of_Z 0.
Proof.
  unfold aget. destruct (i <? 0); [done|].
  destruct (replicate n (of_Z 0 : F) !! Z.to_nat i) as [x|] eqn:E; [|done].
  by apply lookup_replicate in E as [-> _].
Qed.

Lemma aget_aset_zero {F : Type} {ops : FloatOps F} (a : list F) (j : Z) :
  (forall i, a @@ i = of_Z 0) -> forall i, aset a j (of_Z 0) @@ i = of_Z 0.
Proof.
  intros Ha i. unfold aset. destruct (j <? 0); [apply Ha|].
  specialize (Ha i). unfold aget in * . destruct (i <? 0); [done|].
  rewrite list_lookup_insert. by destruct (decide _).
Qed.

Section Silent.
Import XQ.
Local Open Scope Qc_scope.
Context {lm : Libm xq}.

Lemma xq_zero : (of_Z 0 : xq) = XFin 0.
Proof. rewrite xq_of_Z_fin. by rewrite Z2Qc_inj_0. Qed.

Lemma zero_or_nan_div (num den : xq) : zero_or_nan num -> zero_or_nan (num /. den).
Proof.
  intros [->| ->]; [|by right]. rewrite xq_zero.
  destruct den as [|s|r]; [by right|by left; rewrite xq_zero|].
  cbn. unfold qzero. destruct (Qc_eq_dec r 0) as [->|Hr].
  - destruct (Qc_eq_dec 0 0); [by right|done].
  - left. rewrite xq_zero. f_equal; unfold Qcdiv; ring.
Qed.

Lemma zero_or_nan_add_mul (num di : xq) :
  zero_or_nan num -> zero_or_nan (num +. of_Z 0 *. di).
Proof.
  rewrite xq_zero. intros [->| ->]; [|by right]. rewrite xq_zero.
  destruct di as [|s|q]; [by right| |].
  - right. cbn. unfold qzero. by destruct (Qc_eq_dec 0 0).
  - left. rewrite xq_zero, xq_mul_fin, xq_add_fin. f_equal; ring.
Qed.

(** With a silent microphone buffer the correlation is zero or NaN, so
    the confidence multiplier is its lowest value. *)
Lemma getCorrelation_silent (s : CrossCorrelator.t xq) :
  (forall i, CrossCorrelator.micBuf s @@ i = of_Z 0) ->
  zero_or_nan (CrossCorrelator.getCorrelation s).
Proof.
  intros Hmic. unfold CrossCorrelator.getCorrelation.
  assert (forall (l : list Z) (acc : xq * xq),
            fst acc = of_Z 0 ->
            fst (fold_left (fun '(sumMic, sumIMU) i =>
                   (sumMic +. CrossCorrelator.micBuf s @@ i,
                    sumIMU +. CrossCorrelator.imuBuf s @@ i)) l acc) = of_Z 0) as Hsum.
  { induction l as [|i l IH]; intros [a b] Ha; [done|].
    cbn [fold_left]. apply IH. cbn [fst] in * . rewrite Ha, Hmic.
    rewrite !xq_zero, xq_add_fin. f_equal; ring. }
  specialize (Hsum (range 0 CrossCorrelator.BUF_SIZE) (of_Z 0, of_Z 0) eq_refl).
  destruct (fold_left _ (range 0 CrossCorrelator.BUF_SIZE) (of_Z 0, of_Z 0))
    as [sumMic sumIMU].
  cbn [fst] in Hsum. subst sumMic.
  assert ((of_Z 0 : xq) /. of_Z CrossCorrelator.BUF_SIZE = of_Z 0) as Hmean.
  { rewrite xq_zero. apply xq_fin_eq. by vm_compute. }
  rewrite Hmean.
  assert (forall (l : list Z) (acc : xq * xq * xq),
            zero_or_nan (fst (fst acc)) ->
            zero_or_nan
              (fst (fst (fold_left (fun '(num, denMic, denIMU) i =>
                 let dm := CrossCorrelator.micBuf s @@ i -. of_Z 0 in
                 let di := CrossCorrelator.imuBuf s @@ i -. sumIMU /. of_Z CrossCorrelator.BUF_SIZE in
                 (num +. dm *. di, denMic +. dm *. dm, denIMU +. di *. di)) l acc))))
    as Hnum.
  { induction l as [|i l IH]; intros [[a b] c] Ha; [done|].
    cbn [fold_left]. apply IH. cbn [fst] in * . rewrite Hmic.
    assert ((of_Z 0 : xq) -. of_Z 0 = of_Z 0) as ->
      by (rewrite xq_zero; apply xq_fin_eq; by vm_compute).
    by apply zero_or_nan_add_mul. }
  specialize (Hnum (range 0 CrossCorrelator.BUF_SIZE) (of_Z 0, of_Z 0, of_Z 0)
                (or_introl eq_refl)).
  cbv zeta in Hnum.
  destruct (fold_left _ (range 0 CrossCorrelator.BUF_SIZE) (of_Z 0, of_Z 0, of_Z 0))
    as [[num denMic] denIMU].
  cbn [fst] in Hnum.
  destruct (_ <. lit 1 10000); [by left|]. by apply zero_or_nan_div.
Qed.

Lemma zero_or_nan_not_above (x : xq) :
  zero_or_nan x -> forall n d : Z, (0 <= n)%Z -> (0 < d)%Z -> (x >. lit n d) = false.
Proof.
  intros Hx n d Hn Hd. rewrite xq_lit by lia. destruct Hx as [->| ->]; [|done].
  rewrite xq_of_Z_fin.
  apply xq_ltb_fin_false. rewrite Z2Qc_inj_0. unfold Qcdiv.
  apply Qcmult_nonneg_nonneg; [by apply Qc_of_Z_nonneg|].
  by apply Qclt_le_weak, Qcinv_pos, Qc_of_Z_pos.
Qed.

Lemma getConfidenceMultiplier_silent (s : CrossCorrelator.t xq) :
  (forall i, CrossCorrelator.micBuf s @@ i = of_Z 0) ->
  CrossCorrelator.getConfidenceMultiplier s = lit 7 10.
Proof.
  intros Hmic. unfold CrossCorrelator.getConfidenceMultiplier.
  pose proof (getCorrelation_silent s Hmic) as Hc.
  rewrite !(zero_or_nan_not_above _ Hc) by lia.
  destruct Hc as [->| ->]; reflexivity.
Qed.

(** With a silent buffer the crest factor is zero or NaN, so the crest
    score is its lowest value. *)
Lemma getChatterScore_silent (s : CrestFactorAnalyzer.t xq) :
  (forall i, CrestFactorAnalyzer.buffer s @@ i = of_Z 0) ->
  CrestFactorAnalyzer.getChatterScore s = lit 1 10.
Proof.
  intros Hbuf. unfold CrestFactorAnalyzer.getChatterScore.
  assert (zero_or_nan (CrestFactorAnalyzer.getCrestFactor s)) as Hcf.
  { unfold CrestFactorAnalyzer.getCrestFactor.
    destruct (CrestFactorAnalyzer.count s <? 10)%Z; [by left|].
    assert (forall (l : list Z) (acc : xq * xq * xq),
              snd acc = of_Z 0 ->
              snd (fold_left (fun '(sum, sumSq, peak) i =>
                     let v := fabs (CrestFactorAnalyzer.buffer s @@ i) in
                     (sum +. CrestFactorAnalyzer.buffer s @@ i,
                      sumSq +. CrestFactorAnalyzer.buffer s @@ i
                               *. CrestFactorAnalyzer.buffer s @@ i,
                      if v >. peak then v else peak)) l acc) = of_Z 0) as Hpeak.
    { induction l as [|i l IH]; intros [[a b] c] Hc; [done|].
      cbn [fold_left]. apply IH. cbn [snd] in * . rewrite Hbuf, Hc. reflexivity. }
    specialize (Hpeak (range 0 (CrestFactorAnalyzer.count s)) (of_Z 0, of_Z 0, of_Z 0)
                  eq_refl).
    cbv zeta in Hpeak.
    destruct (fold_left _ (range 0 (CrestFactorAnalyzer.count s)) (of_Z 0, of_Z 0, of_Z 0))
      as [[sum sumSq] peak].
    cbn [snd] in Hpeak. subst peak.
    destruct (_ <. lit 1 1000); [by left|]. apply zero_or_nan_div. by left. }
  destruct Hcf as [->| ->]; reflexivity.
Qed.

Lemma microphone_silent_update (d : AdaptiveChatterDetector.t xq)
    (vReal : list xq) (fftSize0 : Z) (vib : xq) (clk : AdaptiveChatterDetector.Clock) :
  microphone_silent d ->
  microphone_silent (AdaptiveChatterDetector.update d vReal fftSize0 vib (of_Z 0) clk).
Proof.
  intros (Hmic & Hcrest & Hagree).
  pose proof (update_advancedDSP d vReal fftSize0 vib (of_Z 0) clk) as Ha.
  cbv zeta in Ha. unfold microphone_silent.
  destruct (bool_decide _).
  - destruct Ha as [-> ->]. done.
  - destruct Ha as [-> ->]. unfold AdvancedDSP.analyze.
    destruct (HarmonicDetector.analyze _ _ _) as [h fundamental].
    cbn [fst snd AdvancedDSP.crossCorr AdvancedDSP.crestAnalyzer AdvancedDSP.sensorAgreement
         CrossCorrelator.pushIMU CrossCorrelator.pushMic CrossCorrelator.micBuf
         CrestFactorAnalyzer.push CrestFactorAnalyzer.buffer].
    split; [by apply aget_aset_zero|]. split; [by apply aget_aset_zero|].
    apply getCorrelation_silent. cbn [CrossCorrelator.micBuf].
    by apply aget_aset_zero.
Qed.

Lemma sketch_microphone_silent (p : gmap string (nvs_entry xq))
    (xs : list (Sketch.Pass xq)) :
  microphone_silent (Sketch.chatterDetector (Sketch.run p xs)).
Proof.
  apply sketch_induction; try done.
  - split; [|split]; [intros i; apply aget_replicate_zero..|by left].
  - intros. by apply microphone_silent_update.
Qed.

End Silent.

(** X10.  The sketch calls [update] without a microphone level, which is
    then 0.  So, over exact arithmetic, in every state the sketch reaches
    and for every C library: the microphone buffers of the DSP engine hold
    zeros only; the confidence multiplier of the cross-correlation is its
    lowest value, 0.7; the crest-factor score is its lowest value, 0.1;
    and the sensor agreement that [getStatus] reports is zero or NaN, so
    that it never earns the confidence bonus for agreeing sensors. *)
Theorem sketch_without_microphone (lm : Libm XQ.xq)
    (p : gmap string (nvs_entry XQ.xq)) (xs : list (Sketch.Pass XQ.xq)) :
  let d := Sketch.chatterDetector (Sketch.run p xs) in
  let dsp := AdaptiveChatterDetector.advancedDSP d in
  let status := AdaptiveChatterDetector.getStatus d in
  (forall i, CrossCorrelator.micBuf (AdvancedDSP.crossCorr dsp) @@ i = of_Z 0)
  /\ (forall i, CrestFactorAnalyzer.buffer (AdvancedDSP.crestAnalyzer dsp) @@ i = of_Z 0)
  /\ CrossCorrelator.getConfidenceMultiplier (AdvancedDSP.crossCorr dsp) = lit 7 10
  /\ CrestFactorAnalyzer.getChatterScore (AdvancedDSP.crestAnalyzer dsp) = lit 1 10
  /\ (AdaptiveChatterDetector.st_sensorAgreement status = of_Z 0
      \/ AdaptiveChatterDetector.st_sensorAgreement status = XQ.XNaN)
  /\ (AdaptiveChatterDetector.st_sensorAgreement status >. lit 4 10) = false.
Proof.
  cbv zeta. destruct (sketch_microphone_silent p xs) as (Hmic & Hcrest & Hagree).
  split; [done|]. split; [done|].
  split; [by apply getConfidenceMultiplier_silent|].
  split; [by apply getChatterScore_silent|].
  split; [exact Hagree|]. apply zero_or_nan_not_above; [exact Hagree|lia|lia].
Qed.

(** ** RunningStats: count, extremes, and the sign of the variance *)

Section Extremes.
Import XQ.
Local Open Scope Qc_scope.

(** After the finite samples [qs] the accumulator holds their smallest and
    their largest value ([+Inf] and [-Inf] when there is none). *)
Lemma extremes_invariant (qs : list Qc) :
  let s := RunningStats.push_all RunningStats.clear (XFin <$> qs) in
  match qs with
  | [] => RunningStats.minVal s = XInf false /\ RunningStats.maxVal s = XInf true
  | _ => exists lo hi : Qc,
           RunningStats.minVal s = XFin lo /\ RunningStats.maxVal s = XFin hi
           /\ lo ∈ qs /\ hi ∈ qs /\ forall q, q ∈ qs -> lo <= q <= hi
  end.
Proof.
  induction qs as [|x qs IH] using rev_ind; [done|].
  cbv zeta in * . rewrite fmap_app. cbn [fmap list_fmap]. rewrite push_all_snoc.
  set (s := RunningStats.push_all RunningStats.clear (XFin <$> qs)) in * .
  assert (exists lo hi : Qc,
            RunningStats.minVal (RunningStats.push s (XFin x)) = XFin lo
            /\ RunningStats.maxVal (RunningStats.push s (XFin x)) = XFin hi
            /\ lo ∈ qs ++ [x] /\ hi ∈ qs ++ [x]
            /\ forall q, q ∈ qs ++ [x] -> lo <= q <= hi) as H.
  { unfold RunningStats.push. cbn [is_finite exact xq_is_finite negb
      RunningStats.minVal RunningStats.maxVal].
    destruct qs as [|y qs'].
    - destruct IH as [-> ->]. exists x, x. cbn [app].
      split; [done|]. split; [done|].
      split; [by apply list_elem_of_singleton|].
      split; [by apply list_elem_of_singleton|].
      intros q Hq. apply list_elem_of_singleton in Hq as ->.
      split; apply Qcle_refl.
    - destruct IH as (lo & hi & -> & -> & Hlo & Hhi & Hall).
      set (l := y :: qs') in * .
      exists (if Qclt_le_dec x lo then x else lo), (if Qclt_le_dec hi x then x else hi).
      split; [cbn; by destruct (Qclt_le_dec x lo)|].
      split; [cbn; by destruct (Qclt_le_dec hi x)|].
      split; [destruct (Qclt_le_dec x lo); apply elem_of_app;
              [right; by apply list_elem_of_singleton|by left]|].
      split; [destruct (Qclt_le_dec hi x); apply elem_of_app;
              [right; by apply list_elem_of_singleton|by left]|].
      intros q Hq. apply elem_of_app in Hq as [Hq|Hq].
      + destruct (Hall q Hq) as [H1 H2]. split.
        * destruct (Qclt_le_dec x lo) as [Hx|Hx]; [|done].
          apply Qclt_le_weak. by eapply Qclt_le_trans.
        * destruct (Qclt_le_dec hi x) as [Hx|Hx]; [|done].
          apply Qclt_le_weak. by eapply Qcle_lt_trans.
      + apply list_elem_of_singleton in Hq as ->. split.
        * destruct (Qclt_le_dec x lo) as [Hx|Hx]; [apply Qcle_refl|done].
        * destruct (Qclt_le_dec hi x) as [Hx|Hx]; [apply Qcle_refl|done]. }
  by destruct (qs ++ [x]) eqn:E; [destruct qs; discriminate|].
Qed.

Lemma sumQ_nonneg (qs : list Qc) : (forall q, q ∈ qs -> 0 <= q) -> 0 <= TwoPass.sumQ qs.
Proof.
  induction qs as [|x qs IH]; intros H; [apply Qcle_refl|].
  unfold TwoPass.sumQ. cbn [foldr]. rewrite <- (Qcplus_0_l 0).
  apply Qcplus_le_compat; [apply H; by left|]. apply IH. intros q Hq. apply H. by right.
Qed.

Lemma Qc_square_nonneg (a : Qc) : 0 <= a * a.
Proof.
  destruct (Qclt_le_dec a 0) as [Hn|Hp].
  - replace (a * a) with ((- a) * (- a)) by ring.
    assert (0 <= - a) as H.
    { apply Qclt_le_weak in Hn. apply Qcopp_le_compat in Hn.
      by replace (- 0) with 0 in Hn by ring. }
    by apply Qcmult_nonneg_nonneg.
  - by apply Qcmult_nonneg_nonneg.
Qed.

Lemma sq_dev_nonneg (c : Qc) (qs : list Qc) : 0 <= TwoPass.sq_dev c qs.
Proof.
  unfold TwoPass.sq_dev. apply sumQ_nonneg. intros q Hq.
  apply list_elem_of_fmap in Hq as (x & -> & _). apply Qc_square_nonneg.
Qed.

Lemma variance_nonneg (qs : list Qc) : 0 <= TwoPass.variance qs.
Proof.
  unfold TwoPass.variance. destruct (1 <? Z.of_nat (length qs))%Z eqn:E; [|apply Qcle_refl].
  apply Z.ltb_lt in E. unfold Qcdiv.
  apply Qcmult_nonneg_nonneg; [apply sq_dev_nonneg|].
  apply Qclt_le_weak, Qcinv_pos. unfold TwoPass.count.
  rewrite <- Z2Qc_inj_1, <- Z2Qc_inj_sub. apply Qc_of_Z_pos. lia.
Qed.

(** The sum of values between [lo] and [hi] is between [n * lo] and
    [n * hi]. *)
Lemma sumQ_bounds (lo hi : Qc) (qs : list Qc) :
  (forall q, q ∈ qs -> lo <= q <= hi) ->
  TwoPass.count qs * lo <= TwoPass.sumQ qs <= TwoPass.count qs * hi.
Proof.
  induction qs as [|x qs IH]; intros H.
  - unfold TwoPass.count, TwoPass.sumQ. cbn [length foldr].
    change (Z.of_nat 0) with 0%Z. rewrite Z2Qc_inj_0.
    split; [replace (0 * lo) with 0 by ring|replace (0 * hi) with 0 by ring];
      apply Qcle_refl.
  - destruct IH as [IH1 IH2]; [intros q Hq; apply H; by right|].
    destruct (H x) as [Hx1 Hx2]; [by left|].
    change (x :: qs) with ([x] ++ qs).
    assert (TwoPass.count ([x] ++ qs) = 1 + TwoPass.count qs) as ->.
    { unfold TwoPass.count. cbn [app length].
      rewrite Nat2Z.inj_succ, <- Z.add_1_l, Z2Qc_inj_add, Z2Qc_inj_1. done. }
    unfold TwoPass.sumQ in * . cbn [app foldr]. split.
    + replace ((1 + TwoPass.count qs) * lo) with (lo + TwoPass.count qs * lo) by ring.
      by apply Qcplus_le_compat.
    + replace ((1 + TwoPass.count qs) * hi) with (hi + TwoPass.count qs * hi) by ring.
      by apply Qcplus_le_compat.
Qed.

Lemma mean_bounds (lo hi : Qc) (qs : list Qc) :
  qs <> [] -> (forall q, q ∈ qs -> lo <= q <= hi) -> lo <= TwoPass.mean qs <= hi.
Proof.
  intros Hne H. destruct (sumQ_bounds lo hi qs H) as [H1 H2].
  assert (0 < TwoPass.count qs) as Hc.
  { unfold TwoPass.count. apply Qc_of_Z_pos. destruct qs; [done|]. cbn. lia. }
  rewrite (sumQ_mean qs) in H1, H2.
  rewrite (Qcmult_comm _ lo), (Qcmult_comm _ (TwoPass.mean qs)) in H1.
  rewrite (Qcmult_comm _ hi), (Qcmult_comm _ (TwoPass.mean qs)) in H2.
  split; eapply Qcmult_lt_0_le_reg_r; eauto.
Qed.

End Extremes.

Section Summary.
Import XQ.
Local Open Scope Qc_scope.

Lemma getters_two_pass (qs : list Qc) :
  (Z.of_nat (length qs) < 2 ^ 32)%Z ->
  let s := RunningStats.push_all RunningStats.clear (XFin <$> qs) in
  RunningStats.getCount s = Z.of_nat (length qs)
  /\ RunningStats.getMean s = XFin (TwoPass.mean qs)
  /\ RunningStats.getVariance s = XFin (TwoPass.variance qs).
Proof.
  intros Hlen. destruct (welford_invariant qs Hlen) as (Hn & Hmean & HM2).
  cbv zeta.
  set (s := RunningStats.push_all RunningStats.clear (XFin <$> qs)) in * . clearbody s.
  unfold RunningStats.getCount, RunningStats.getMean, RunningStats.getVariance,
    TwoPass.variance.
  rewrite Hn, Hmean, HM2. split; [done|]. split.
  - destruct (0 <? Z.of_nat (length qs))%Z eqn:Hpos; [done|].
    apply Z.ltb_ge in Hpos. destruct qs; [|simpl in Hpos; lia].
    cbn. unfold xq_of_Z. f_equal. by apply Qc_is_canon.
  - destruct (1 <? Z.of_nat (length qs))%Z eqn:Hpos.
    + apply Z.ltb_lt in Hpos. rewrite Z.mod_small by lia.
      assert (of_Z (Z.of_nat (length qs) - 1) = XFin (TwoPass.count qs - 1)) as ->.
      { cbn. unfold xq_of_Z, TwoPass.count. rewrite Z2Qc_inj_sub. by f_equal. }
      apply xq_div_fin.
      unfold TwoPass.count. rewrite <- Z2Qc_inj_1, <- Z2Qc_inj_sub.
      apply Qc_of_Z_nonzero. lia.
    + cbn. unfold xq_of_Z. f_equal. by apply Qc_is_canon.
Qed.

End Summary.

(** X11.  What a [RunningStats] reports after any sequence of pushes, over
    exact arithmetic, when the 32-bit counter has not wrapped.  The count is
    the number of finite samples.  With no finite sample the minimum, the
    maximum and the mean read 0 (not the infinities the fields hold).
    Otherwise the minimum and the maximum are the smallest and the largest
    finite sample, and the mean lies between them.  The variance is never
    negative. *)
Theorem running_stats_summary (xs : list XQ.xq) :
  Z.of_nat (length (finite_values xs)) < 2 ^ 32 ->
  let s := RunningStats.push_all RunningStats.clear xs in
  let qs := finite_values xs in
  RunningStats.getCount s = Z.of_nat (length qs)
  /\ (qs = [] ->
      RunningStats.getMin s = of_Z 0 /\ RunningStats.getMax s = of_Z 0
      /\ RunningStats.getMean s = of_Z 0)
  /\ (qs <> [] ->
      exists lo hi m : Qc,
        RunningStats.getMin s = XQ.XFin lo /\ RunningStats.getMax s = XQ.XFin hi
        /\ RunningStats.getMean s = XQ.XFin m
        /\ lo ∈ qs /\ hi ∈ qs
        /\ (forall q, q ∈ qs -> (lo <= q <= hi)%Qc)
        /\ (lo <= m <= hi)%Qc)
  /\ (of_Z 0 <=. RunningStats.getVariance s) = true.
Proof.
  intros Hlen s qs. subst s. rewrite push_all_finite_values. fold qs.
  destruct (getters_two_pass qs Hlen) as (Hc & Hm & Hv). cbv zeta in Hc, Hm, Hv.
  pose proof (extremes_invariant qs) as Hext. cbv zeta in Hext.
  set (s := RunningStats.push_all RunningStats.clear (XQ.XFin <$> qs)) in * .
  split; [done|]. split; [|split].
  - intros Hnil. unfold RunningStats.getMin, RunningStats.getMax, RunningStats.getMean.
    unfold RunningStats.getCount in Hc. rewrite Hc, Hnil. done.
  - intros Hne. destruct qs as [|y qs']; [done|].
    destruct Hext as (lo & hi & Hlo & Hhi & Hlo_in & Hhi_in & Hall).
    exists lo, hi, (TwoPass.mean (y :: qs')).
    unfold RunningStats.getMin, RunningStats.getMax.
    unfold RunningStats.getCount in Hc. rewrite Hc. cbn [length].
    replace (0 <? Z.of_nat (S (length qs'))) with true by (symmetry; apply Z.ltb_lt; lia).
    split; [done|]. split; [done|]. split; [done|]. split; [done|]. split; [done|].
    split; [done|]. by apply mean_bounds.
  - rewrite Hv. change (of_Z 0 : XQ.xq) with (XQ.XFin (Qc_of_Z 0)).
    apply xq_leb_fin. rewrite Z2Qc_inj_0. apply variance_nonneg.
Qed.

Lemma running_stats_summary_witness :
  let xs := [of_Z 3; XQ.XNaN; of_Z 1; XQ.XInf false; of_Z 2] in
  let s := RunningStats.push_all RunningStats.clear xs in
  RunningStats.getCount s = 3
  /\ (of_Z 0 <=. RunningStats.getVariance s) = true.
Proof.
  intros xs s.
  destruct (running_stats_summary xs) as (H1 & _ & _ & H4); [by vm_compute|].
  split; [exact H1|exact H4].
Defined.

(** ** StabilityLobePredictor *)

Section LobeBounds.
Context {F : Type} {ops : FloatOps F}.
Import StabilityLobePredictor.

Lemma lobe_loop_inv (s : StabilityLobePredictor.t F) (maxCount : Z) (ks : list Z)
    (freqs : list F) (cap : nat) :
  lobe_invariant maxCount cap freqs ->
  lobe_invariant maxCount (cap + 2 * length ks)
    (fold_left (fun freqs k =>
        if Z.of_nat (length freqs) <? maxCount then
          let f1 := of_Z k *. toothPassFreq s +. fn s in
          let f2 := fabs (of_Z k *. toothPassFreq s -. fn s) in
          let freqs1 := if in_band f1 then freqs ++ [f1] else freqs in
          if in_band f2 && (Z.of_nat (length freqs1) <? maxCount)
          then freqs1 ++ [f2] else freqs1
        else freqs) ks freqs).
Proof.
  revert freqs cap. induction ks as [|k ks IH]; intros freqs cap Hinv.
  - cbn. by rewrite Nat.add_0_r.
  - cbn [fold_left length].
    replace (cap + 2 * S (length ks))%nat with ((cap + 2) + 2 * length ks)%nat by lia.
    apply IH. destruct Hinv as (H1 & H2 & H3).
    destruct (Z.ltb_spec (Z.of_nat (length freqs)) maxCount) as [Hlt|Hge];
      [|split; [done|split; [lia|done]]].
    cbv zeta.
    set (f1 := of_Z k *. toothPassFreq s +. fn s).
    set (f2 := fabs (of_Z k *. toothPassFreq s -. fn s)).
    assert (lobe_invariant maxCount (cap + 1) (if in_band f1 then freqs ++ [f1] else freqs))
      as (H1' & H2' & H3').
    { destruct (in_band f1) eqn:E1; [|split; [done|split; [lia|done]]].
      split; [rewrite length_app; cbn [length]; lia|].
      split; [rewrite length_app; cbn [length]; lia|].
      apply Forall_app. split; [done|]. by apply Forall_singleton. }
    set (freqs1 := if in_band f1 then freqs ++ [f1] else freqs) in * .
    destruct (in_band f2) eqn:E2; cbn [andb]; [|split; [done|split; [lia|done]]].
    destruct (Z.ltb_spec (Z.of_nat (length freqs1)) maxCount) as [Hlt1|Hge1];
      [|split; [done|split; [lia|done]]].
    split; [rewrite length_app; cbn [length]; lia|].
    split; [rewrite length_app; cbn [length]; lia|].
    apply Forall_app. split; [done|]. by apply Forall_singleton.
Qed.

Lemma tooth_loop_inv (s : StabilityLobePredictor.t F) (maxCount : Z) (ks : list Z)
    (freqs : list F) (cap : nat) :
  lobe_invariant maxCount cap freqs ->
  lobe_invariant maxCount (cap + length ks)
    (fold_left (fun freqs k =>
        if Z.of_nat (length freqs) <? maxCount then
          let f := of_Z k *. toothPassFreq s in
          if in_band f then freqs ++ [f] else freqs
        else freqs) ks freqs).
Proof.
  revert freqs cap. induction ks as [|k ks IH]; intros freqs cap Hinv.
  - cbn. by rewrite Nat.add_0_r.
  - cbn [fold_left length].
    replace (cap + S (length ks))%nat with ((cap + 1) + length ks)%nat by lia.
    apply IH. destruct Hinv as (H1 & H2 & H3).
    destruct (Z.ltb_spec (Z.of_nat (length freqs)) maxCount) as [Hlt|Hge];
      [|split; [done|split; [lia|done]]].
    cbv zeta. destruct (in_band _) eqn:E; [|split; [done|split; [lia|done]]].
    split; [rewrite length_app; cbn [length]; lia|].
    split; [rewrite length_app; cbn [length]; lia|].
    apply Forall_app. split; [done|]. by apply Forall_singleton.
Qed.

Lemma getPredictedChatterFreqs_inv (s : StabilityLobePredictor.t F) (maxCount : Z) :
  lobe_invariant maxCount 13 (getPredictedChatterFreqs s maxCount).
Proof.
  unfold getPredictedChatterFreqs.
  destruct (spindleRPM s <. of_Z 100).
  - split; [cbn; lia|]. split; [cbn; lia|done].
  - apply (tooth_loop_inv s maxCount (range 1 4) _ 10).
    apply (lobe_loop_inv s maxCount (range 1 6) [] 0).
    split; [cbn; lia|]. split; [cbn; lia|done].
Qed.

End LobeBounds.

(** X12.  [getPredictedChatterFreqs] never produces more than [maxCount]
    frequencies (none when [maxCount] is not positive), so it never writes
    past the [maxCount] entries of the caller's array, and never more than
    13; every frequency it produces lies strictly between 200 Hz and
    10 kHz; and without spindle speed (below 100 rpm) it produces none.  In
    particular the 10-entry array of [scoreFrequency] is large enough. *)
Theorem predicted_freqs_fit {F : Type} {ops : FloatOps F}
    (s : StabilityLobePredictor.t F) (maxCount : Z) :
  let freqs := StabilityLobePredictor.getPredictedChatterFreqs s maxCount in
  Z.of_nat (length freqs) <= Z.max 0 maxCount
  /\ (length freqs <= 13)%nat
  /\ (forall f, f ∈ freqs -> (f >. of_Z 200) = true /\ (f <. of_Z 10000) = true)
  /\ ((StabilityLobePredictor.spindleRPM s <. of_Z 100) = true -> freqs = [])
  /\ (length (StabilityLobePredictor.getPredictedChatterFreqs s 10) <= 10)%nat.
Proof.
  cbv zeta. destruct (getPredictedChatterFreqs_inv s maxCount) as (H1 & H2 & H3).
  split; [done|]. split; [done|]. split; [|split].
  - intros f Hf. rewrite Forall_forall in H3. specialize (H3 f Hf).
    unfold StabilityLobePredictor.in_band in H3. by apply andb_prop in H3.
  - intros Hrpm. unfold StabilityLobePredictor.getPredictedChatterFreqs. by rewrite Hrpm.
  - destruct (getPredictedChatterFreqs_inv s 10) as (H & _). lia.
Qed.

Lemma predicted_freqs_fit_witness :
  let s := StabilityLobePredictor.setSpindleRPM
             (StabilityLobePredictor.initial (F := XQ.xq)) (of_Z 12000) in
  StabilityLobePredictor.getPredictedChatterFreqs
    (StabilityLobePredictor.initial (F := XQ.xq)) 5 = []
  /\ (length (StabilityLobePredictor.getPredictedChatterFreqs s 10) <= 10)%nat.
Proof.
  intros s. split.
  - apply (proj1 (proj2 (proj2 (proj2 (predicted_freqs_fit
             (StabilityLobePredictor.initial (F := XQ.xq)) 5))))).
    reflexivity.
  - apply (proj2 (proj2 (proj2 (proj2 (predicted_freqs_fit s 10))))).
Defined.

(** ** StabilityLobePredictor: the score grades the nearest prediction *)

Section LobeScore.
Import XQ StabilityLobePredictor.
Local Open Scope Qc_scope.

(** The running minimum of the distances, below a finite bound: it is
    there when the start value is or when one of the distances is. *)
Lemma min_dist_below (f : xq) (c : Qc) (l : list xq) (acc : xq) :
  acc <> XNaN ->
  let m := fold_left (fun minDist p =>
             let dist := fabs (f -. p) in
             if dist <. minDist then dist else minDist) l acc in
  m <> XNaN
  /\ ((m <. XFin c) = true
      <-> (acc <. XFin c) = true
          \/ exists p, p ∈ l /\ (fabs (f -. p) <. XFin c) = true).
Proof.
  revert acc. induction l as [|p l IH]; intros acc Hacc.
  - cbn. split; [done|]. split; [by left|]. intros [H|(p & Hp & _)]; [done|].
    by apply elem_of_nil in Hp.
  - cbn [fold_left]. cbv zeta.
    set (d := fabs (f -. p)).
    set (acc' := if d <. acc then d else acc).
    assert (acc' <> XNaN) as Hacc'.
    { subst acc'. destruct (d <. acc) eqn:E; [|done]. intros Hd. by rewrite Hd in E. }
    assert ((acc' <. XFin c) = true <-> (acc <. XFin c) = true \/ (d <. XFin c) = true)
      as Hstep.
    { subst acc'. destruct (d <. acc) eqn:E.
      - split; [by right|]. intros [H|H]; [|done]. by eapply xq_ltb_trans.
      - split; [by left|]. intros [H|H]; [done|].
        destruct d as [|sd|x], acc as [|sa|a]; try done.
        + by destruct sd, sa.
        + destruct sd; done.
        + destruct sa; done.
        + apply xq_ltb_fin_false in E. apply xq_ltb_fin in H. apply xq_ltb_fin.
          by eapply Qcle_lt_trans. }
    destruct (IH acc' Hacc') as [Hm Hiff]. cbv zeta in Hm, Hiff.
    split; [done|]. rewrite Hiff, Hstep. split.
    + intros [[H|H]|(q & Hq & H)]; [by left| |].
      * right. exists p. split; [by left|done].
      * right. exists q. split; [by right|done].
    + intros [H|(q & Hq & H)]; [by left; left|].
      apply elem_of_cons in Hq as [->|Hq]; [by left; right|].
      right. by exists q.
Qed.

End LobeScore.

Lemma existsb_elem_of {A} (g : A -> bool) (l : list A) :
  existsb g l = true -> exists p, p ∈ l /\ g p = true.
Proof.
  intros H. apply existsb_exists in H as (p & Hp & Hg).
  exists p. split; [by apply list_elem_of_In|done].
Qed.

(** X13.  [scoreFrequency] grades the distance from the detected frequency
    to the nearest predicted chatter frequency, over exact arithmetic: 1
    when a prediction is less than 50 Hz away; otherwise 0.8 when one is
    less than 200 Hz away; otherwise 0.5 when one is less than 500 Hz away;
    otherwise 0.2 (so also when nothing is predicted or the detected
    frequency is NaN).  Without spindle speed (below 100 rpm) the score is
    the neutral 0.5. *)
Theorem scoreFrequency_grades (s : StabilityLobePredictor.t XQ.xq) (detectedFreq : XQ.xq) :
  let near (c : Z) :=
    exists p, p ∈ StabilityLobePredictor.getPredictedChatterFreqs s 10
              /\ (fabs (detectedFreq -. p) <. of_Z c) = true in
  let score := StabilityLobePredictor.scoreFrequency s detectedFreq in
  ((StabilityLobePredictor.spindleRPM s <. of_Z 100) = true -> score = lit 5 10)
  /\ ((StabilityLobePredictor.spindleRPM s <. of_Z 100) = false ->
      (near 50 -> score = of_Z 1)
      /\ (~ near 50 -> near 200 -> score = lit 8 10)
      /\ (~ near 200 -> near 500 -> score = lit 5 10)
      /\ (~ near 500 -> score = lit 2 10)).
Proof.
  cbv zeta. unfold StabilityLobePredictor.scoreFrequency. split.
  - by intros ->.
  - intros ->.
    assert (forall c : Z,
              (fold_left (fun minDist p =>
                 let dist := fabs (detectedFreq -. p) in
                 if dist <. minDist then dist else minDist)
                 (StabilityLobePredictor.getPredictedChatterFreqs s 10) (of_Z 10000)
               <. of_Z c) = true
              <-> (of_Z 10000 <. (of_Z c : XQ.xq)) = true
                  \/ exists p, p ∈ StabilityLobePredictor.getPredictedChatterFreqs s 10
                               /\ (fabs (detectedFreq -. p) <. of_Z c) = true) as Hmin.
    { intros c.
      apply (min_dist_below detectedFreq (Qc_of_Z c)
               (StabilityLobePredictor.getPredictedChatterFreqs s 10) (of_Z 10000)).
      done. }
    cbv zeta in Hmin.
    set (m := fold_left _ _ _) in * . clearbody m.
    pose proof (Hmin 50) as H50. pose proof (Hmin 200) as H200.
    pose proof (Hmin 500) as H500. clear Hmin.
    assert (forall P : Prop, (of_Z 10000 <. (of_Z 50 : XQ.xq)) = true \/ P <-> P) as E50
      by (intros P; split; [intros [H|H]; [discriminate|done]|by right]).
    assert (forall P : Prop, (of_Z 10000 <. (of_Z 200 : XQ.xq)) = true \/ P <-> P) as E200
      by (intros P; split; [intros [H|H]; [discriminate|done]|by right]).
    assert (forall P : Prop, (of_Z 10000 <. (of_Z 500 : XQ.xq)) = true \/ P <-> P) as E500
      by (intros P; split; [intros [H|H]; [discriminate|done]|by right]).
    rewrite E50 in H50. rewrite E200 in H200. rewrite E500 in H500.
    assert ((m <. of_Z 50) = true -> (m <. of_Z 200) = true) as A50
      by (intros E; eapply xq_ltb_trans; [exact E|reflexivity]).
    assert ((m <. of_Z 200) = true -> (m <. of_Z 500) = true) as A200
      by (intros E; eapply xq_ltb_trans; [exact E|reflexivity]).
    destruct (m <. of_Z 50) eqn:E1, (m <. of_Z 200) eqn:E2, (m <. of_Z 500) eqn:E3;
      try (specialize (A50 eq_refl); discriminate);
      try (specialize (A200 eq_refl); discriminate).
    all: split; [|split; [|split]].
    all: try (intros Hn; apply H50 in Hn; discriminate).
    all: try (intros Hn; exfalso; apply Hn; by apply H50).
    all: try (intros _ Hn; apply H200 in Hn; discriminate).
    all: try (intros Hn; exfalso; apply Hn; by apply H200).
    all: try (intros _ Hn; apply H500 in Hn; discriminate).
    all: try (intros Hn; exfalso; apply Hn; by apply H500).
    all: try (intros Hn _; exfalso; apply Hn; by apply H50).
    all: try (intros Hn _; exfalso; apply Hn; by apply H200).
    all: done.
Qed.

Lemma scoreFrequency_grades_witness :
  let s := StabilityLobePredictor.setSpindleRPM
             (StabilityLobePredictor.initial (F := XQ.xq)) (of_Z 12000) in
  StabilityLobePredictor.scoreFrequency (StabilityLobePredictor.initial (F := XQ.xq))
    (of_Z 1200) = lit 5 10
  /\ StabilityLobePredictor.scoreFrequency s (of_Z 1210) = of_Z 1.
Proof.
  intros s. split.
  - apply (proj1 (scoreFrequency_grades (StabilityLobePredictor.initial (F := XQ.xq))
                    (of_Z 1200))).
    reflexivity.
  - destruct (proj2 (scoreFrequency_grades s (of_Z 1210))) as (H & _); [reflexivity|].
    apply H.
    apply (existsb_elem_of (fun p => fabs (of_Z 1210 -. p) <. of_Z 50)).
    by vm_compute.
Defined.

(** ** HarmonicDetector: the fundamental is the peak of the band *)

Section PeakFacts.
Context {F : Type} {ops : FloatOps F}.

(** The peak search from any start value: either no bin exceeded the start
    value, or the result is the last bin [b] that exceeded the running
    maximum, with its magnitude rounded to [float], and no later bin
    exceeds that. *)
Lemma findPeak_last_record (magnitudes : list F) (l : list Z) (acc : F * Z) :
  let step := fun '(maxMag, maxBin) i =>
                if magnitudes @@ i >. maxMag
                then (narrow (magnitudes @@ i), i) else (maxMag, maxBin) in
  let r := fold_left step l acc in
  (r = acc)
  \/ (exists l1 l2 b,
        l = l1 ++ b :: l2
        /\ r = (narrow (magnitudes @@ b), b)
        /\ (magnitudes @@ b >. fst (fold_left step l1 acc)) = true
        /\ forall i, i ∈ l2 -> (magnitudes @@ i >. narrow (magnitudes @@ b)) = false).
Proof.
  cbv zeta. induction l as [|i l IH] using rev_ind; [by left|].
  rewrite fold_left_app. cbn [fold_left].
  destruct (fold_left _ l acc) as [maxMag maxBin] eqn:Hfold.
  destruct (magnitudes @@ i >. maxMag) eqn:Hi.
  - right. exists l, [], i. rewrite Hfold. cbn [fst].
    split; [done|]. split; [done|]. split; [done|].
    intros j Hj. by apply elem_of_nil in Hj.
  - destruct IH as [IH|(l1 & l2 & b & Hl & Hr & Hb & Hlater)]; [by left|].
    right. exists l1, (l2 ++ [i]), b.
    split; [by rewrite Hl, <- app_assoc|]. split; [done|]. split; [done|].
    intros j Hj. apply elem_of_app in Hj as [Hj|Hj]; [by apply Hlater|].
    apply list_elem_of_singleton in Hj as ->.
    injection Hr as <- _. exact Hi.
Qed.

(** A prefix of a range is a range. *)
Lemma range_split (lo hi b : Z) (l1 l2 : list Z) :
  range lo hi = l1 ++ b :: l2 ->
  lo <= b < hi /\ l1 = range lo b /\ forall i, i ∈ l2 <-> b < i < hi.
Proof.
  unfold range. intros H.
  assert ((seqZ lo (hi - lo)) !! length l1 = Some b) as Hb.
  { rewrite H. by rewrite list_lookup_middle. }
  apply lookup_seqZ in Hb as [Hb Hlen].
  assert (length (seqZ lo (hi - lo)) = (length l1 + S (length l2))%nat) as Hn.
  { rewrite H, length_app. done. }
  rewrite length_seqZ in Hn.
  split; [lia|]. split.
  - apply list_eq. intros j.
    destruct (decide (j < length l1)%nat) as [Hj|Hj].
    + rewrite lookup_seqZ_lt by lia.
      assert ((seqZ lo (hi - lo)) !! j = l1 !! j) as Hl
        by (rewrite H; by rewrite lookup_app_l).
      rewrite <- Hl. by rewrite lookup_seqZ_lt by lia.
    + rewrite lookup_seqZ_ge by lia. apply lookup_ge_None. lia.
  - intros i. split.
    + intros Hi. apply list_elem_of_lookup in Hi as [j Hj].
      assert ((seqZ lo (hi - lo)) !! (length l1 + S j)%nat = Some i) as Hl.
      { rewrite H. rewrite lookup_app_r by lia.
        replace (length l1 + S j - length l1)%nat with (S j) by lia. done. }
      apply lookup_seqZ in Hl. lia.
    + intros Hi. apply list_elem_of_lookup.
      exists (Z.to_nat (i - b - 1)).
      assert ((seqZ lo (hi - lo)) !! (length l1 + S (Z.to_nat (i - b - 1)))%nat = Some i)
        as Hl by (apply lookup_seqZ; lia).
      rewrite H in Hl. rewrite lookup_app_r in Hl by lia.
      replace (length l1 + S (Z.to_nat (i - b - 1)) - length l1)%nat
        with (S (Z.to_nat (i - b - 1))) in Hl by lia.
      done.
Qed.

(** On bins that the rounding leaves as they are, the search is the search
    without rounding. *)
Lemma findPeak_on_floats (magnitudes : list F) (l : list Z) (acc : F * Z) :
  (forall i, i ∈ l -> narrow (magnitudes @@ i) = magnitudes @@ i) ->
  fold_left (fun '(maxMag, maxBin) i =>
      if magnitudes @@ i >. maxMag
      then (narrow (magnitudes @@ i), i) else (maxMag, maxBin)) l acc
  = fold_left (fun '(maxMag, maxBin) i =>
      if magnitudes @@ i >. maxMag then (magnitudes @@ i, i) else (maxMag, maxBin)) l acc.
Proof.
  revert acc. induction l as [|i l IH]; intros [maxMag maxBin] H; [done|].
  cbn [fold_left]. rewrite (H i) by (by left).
  apply IH. intros j Hj. apply H. by right.
Qed.

Context {ord : FloatOrder F}.

(** The search without rounding: nothing it has seen is above the result,
    the result is the start value or one of the bins seen, and it is not
    below the start value. *)
Lemma findPeak_loop (magnitudes : list F) (l : list Z) (acc : F * Z) :
  let r := fold_left (fun '(maxMag, maxBin) i =>
             if magnitudes @@ i >. maxMag then (magnitudes @@ i, i) else (maxMag, maxBin))
             l acc in
  (forall i, i ∈ l -> (magnitudes @@ i >. fst r) = false)
  /\ (r = acc \/ (snd r ∈ l /\ fst r = magnitudes @@ snd r /\ (fst r >. fst acc) = true))
  /\ (forall x : F, (x >. fst acc) = false -> (x >. fst r) = false).
Proof.
  revert acc. induction l as [|i l IH]; intros [m b]; cbv zeta.
  - cbn. split; [intros i Hi; by apply elem_of_nil in Hi|]. split; [by left|done].
  - cbn [fold_left].
    set (acc' := if magnitudes @@ i >. m then (magnitudes @@ i, i) else (m, b)).
    destruct (IH acc') as (H1 & H2 & H3). cbv zeta in H1, H2, H3.
    set (r := fold_left _ l acc') in * .
    assert (forall x : F, (x >. m) = false -> (x >. fst acc') = false) as Hstep.
    { intros x Hx. subst acc'. destruct (magnitudes @@ i >. m) eqn:E; [|done].
      cbn [fst]. destruct (x >. magnitudes @@ i) eqn:E'; [|done].
      pose proof (flt_trans _ _ _ E E'). congruence. }
    split; [|split].
    + intros j Hj. apply elem_of_cons in Hj as [->|Hj]; [|by apply H1].
      apply H3. subst acc'. destruct (magnitudes @@ i >. m) eqn:E; cbn [fst]; [|done].
      apply flt_irrefl.
    + cbn [fst]. destruct H2 as [H2|(Hin & Hm & Hgt)].
      * rewrite H2. subst acc'. destruct (magnitudes @@ i >. m) eqn:E; [|by left].
        right. cbn [fst snd]. split; [by left|done].
      * right. split; [by right|]. split; [done|].
        subst acc'. destruct (magnitudes @@ i >. m) eqn:E; cbn [fst] in Hgt; [|done].
        by eapply flt_trans.
    + intros x Hx. apply H3. cbn [fst] in Hx. by apply Hstep.
Qed.

End PeakFacts.

(** X14.  The fundamental that [HarmonicDetector.analyze] reports is the
    frequency of the last bin of the search band that exceeded the running
    maximum.  The running maximum is a [float] and the magnitudes are
    [double]s.  Unless the result is the floor result (strength 0,
    fundamental 0; the running maximum is then below 100), there is a bin
    [b] of the band such that: the fundamental is [b * binWidth]; the
    magnitude of [b], rounded to [float], is not below 100; the magnitude
    of [b] exceeds the running maximum of the bins before it; and no later
    bin of the band exceeds the rounded magnitude of [b].  When the
    magnitudes of the band are unchanged by the rounding, [b] is a
    strongest bin: no bin of the band has a magnitude above that of [b].
    For every arithmetic whose [<] is a strict order that puts 0 below
    100. *)
Theorem harmonic_fundamental_is_peak {F : Type} {ops : FloatOps F} {ord : FloatOrder F}
    (magnitudes : list F) (size : Z) (binWidth : F) :
  (of_Z 0 <. of_Z 100) = true ->
  let minBin := to_int (of_Z 500 /. binWidth) in
  let maxSearchBin := Z.min (Z.quot size 2) (to_int (of_Z 8000 /. binWidth)) in
  let r := HarmonicDetector.analyze magnitudes size binWidth in
  (r = (of_Z 0, of_Z 0)
   /\ (fst (HarmonicDetector.findPeak magnitudes minBin maxSearchBin) <. of_Z 100) = true)
  \/ (exists b : Z,
        minBin <= b < maxSearchBin
        /\ snd r = of_Z b *. binWidth
        /\ (narrow (magnitudes @@ b) <. of_Z 100) = false
        /\ (magnitudes @@ b >. fst (HarmonicDetector.findPeak magnitudes minBin b)) = true
        /\ (forall i, b < i < maxSearchBin ->
              (magnitudes @@ i >. narrow (magnitudes @@ b)) = false)
        /\ ((forall i, minBin <= i < maxSearchBin ->
               narrow (magnitudes @@ i) = magnitudes @@ i) ->
            forall i, minBin <= i < maxSearchBin ->
              (magnitudes @@ i >. magnitudes @@ b) = false)).
Proof.
  intros H0. cbv zeta.
  set (minBin := to_int (of_Z 500 /. binWidth)).
  set (maxSearchBin := Z.min (Z.quot size 2) (to_int (of_Z 8000 /. binWidth))).
  unfold HarmonicDetector.analyze. fold minBin maxSearchBin.
  destruct (findPeak_last_record magnitudes (range minBin maxSearchBin) (of_Z 0, 0))
    as [Hr|(l1 & l2 & b & Hl & Hr & Hb & Hlater)]; cbv zeta in Hr.
  - left. fold (HarmonicDetector.findPeak magnitudes minBin maxSearchBin) in Hr.
    rewrite Hr. cbn [fst]. by rewrite H0.
  - cbv zeta in Hb.
    apply range_split in Hl as (Hband & -> & Hl2).
    fold (HarmonicDetector.findPeak magnitudes minBin maxSearchBin) in Hr.
    fold (HarmonicDetector.findPeak magnitudes minBin b) in Hb.
    rewrite Hr. cbn [fst].
    destruct (narrow (magnitudes @@ b) <. of_Z 100) eqn:Hfloor; [by left|].
    right. exists b. cbn [snd].
    split; [done|]. split; [done|]. split; [done|]. split; [exact Hb|].
    split; [intros i Hi; apply Hlater; by apply Hl2|].
    intros Hfloat i Hi.
    pose proof (findPeak_loop magnitudes (range minBin maxSearchBin) (of_Z 0, 0))
      as (H1 & _).
    cbv zeta in H1.
    rewrite <- (findPeak_on_floats magnitudes (range minBin maxSearchBin)) in H1.
    + fold (HarmonicDetector.findPeak magnitudes minBin maxSearchBin) in H1.
      rewrite Hr in H1. cbn [fst] in H1. rewrite (Hfloat b Hband) in H1.
      apply H1. unfold range. apply elem_of_seqZ. lia.
    + intros j Hj. apply Hfloat. unfold range in Hj. apply elem_of_seqZ in Hj. lia.
Qed.

Lemma harmonic_fundamental_is_peak_witness :
  let binWidth : spec_float := of_Z 16000 /. of_Z 1024 in
  let minBin := to_int (of_Z 500 /. binWidth) in
  let maxSearchBin := Z.min (Z.quot 1024 2) (to_int (of_Z 8000 /. binWidth)) in
  let r := HarmonicDetector.analyze Sample.rounded_peaks 1024 binWidth in
  (Sample.rounded_peaks @@ 200 <. Sample.rounded_peaks @@ 100) = true
  /\ snd r = of_Z 200 *. binWidth
  /\ ((r = (of_Z 0, of_Z 0)
       /\ (fst (HarmonicDetector.findPeak Sample.rounded_peaks minBin maxSearchBin)
           <. of_Z 100) = true)
      \/ (exists b : Z,
            minBin <= b < maxSearchBin
            /\ snd r = of_Z b *. binWidth
            /\ (narrow (Sample.rounded_peaks @@ b) <. of_Z 100) = false
            /\ (Sample.rounded_peaks @@ b
                >. fst (HarmonicDetector.findPeak Sample.rounded_peaks minBin b)) = true
            /\ (forall i, b < i < maxSearchBin ->
                  (Sample.rounded_peaks @@ i >. narrow (Sample.rounded_peaks @@ b)) = false)
            /\ ((forall i, minBin <= i < maxSearchBin ->
                   narrow (Sample.rounded_peaks @@ i) = Sample.rounded_peaks @@ i) ->
                forall i, minBin <= i < maxSearchBin ->
                  (Sample.rounded_peaks @@ i >. Sample.rounded_peaks @@ b) = false))).
Proof.
  intros binWidth minBin maxSearchBin r.
  split; [by vm_compute|]. split; [by vm_compute|].
  apply (harmonic_fundamental_is_peak Sample.rounded_peaks 1024 binWidth).
  reflexivity.
Defined.

(** ** ChatterMemory: loading from any flash contents *)



(** ** ChatterMemory: the predicted chatter range *)

Section RangeFacts.
Import XQ.
Local Open Scope Z_scope.

Lemma xq_of_Z_ltb (a b : Z) : ((of_Z a : xq) <. of_Z b) = (a <? b).
Proof.
  destruct (Z.ltb_spec a b) as [H|H].
  - apply xq_ltb_fin. by apply (proj1 (Z2Qc_inj_lt a b)).
  - apply xq_ltb_fin_false. by apply (proj1 (Z2Qc_inj_le b a)).
Qed.

Lemma xq_of_Z_mul (a b : Z) : (of_Z a : xq) *. of_Z b = of_Z (a * b).
Proof. rewrite !xq_of_Z_fin, xq_mul_fin. by rewrite Z2Qc_inj_mul. Qed.

Lemma xq_fmax_of_Z (a b : Z) : fmax (of_Z a : xq) (of_Z b) = of_Z (Z.max a b).
Proof.
  unfold fmax. rewrite xq_of_Z_ltb. destruct (Z.ltb_spec a b); f_equal; lia.
Qed.

Lemma xq_fmin_of_Z (a b : Z) : fmin (of_Z a : xq) (of_Z b) = of_Z (Z.min a b).
Proof.
  unfold fmin. rewrite xq_of_Z_ltb. destruct (Z.ltb_spec b a); f_equal; lia.
Qed.

(** The search for the fullest histogram bin, on the counts themselves. *)
Lemma peak_loop (h : list Z) (l : list Z) (c0 p0 : Z) :
  let r := fold_left (fun '(maxCount, peakBin) i =>
             let c := default 0 (h !! Z.to_nat i) in
             if (of_Z c : xq) >. maxCount then (of_Z c, i) else (maxCount, peakBin))
             l (of_Z c0, p0) in
  exists c p : Z,
    r = (of_Z c, p)
    /\ (forall i, i ∈ l -> default 0 (h !! Z.to_nat i) <= c)
    /\ c0 <= c
    /\ ((c = c0 /\ p = p0) \/ (p ∈ l /\ c = default 0 (h !! Z.to_nat p) /\ c0 < c)).
Proof.
  revert c0 p0. induction l as [|i l IH]; intros c0 p0; cbv zeta.
  - exists c0, p0. cbn. split; [done|]. split; [intros i Hi; by apply elem_of_nil in Hi|].
    split; [lia|by left].
  - cbn [fold_left]. cbv zeta. rewrite xq_of_Z_ltb.
    set (ci := default 0 (h !! Z.to_nat i)).
    destruct (Z.ltb_spec c0 ci) as [Hlt|Hge].
    + destruct (IH ci i) as (c & p & Hr & Hall & Hle & Hp). cbv zeta in Hr.
      exists c, p. split; [done|]. split; [|split; [lia|]].
      * intros j Hj. apply elem_of_cons in Hj as [->|Hj]; [done|by apply Hall].
      * right. destruct Hp as [[-> ->]|(Hin & Hc & Hlt')].
        -- split; [by left|]. split; [done|lia].
        -- split; [by right|]. split; [done|lia].
    + destruct (IH c0 p0) as (c & p & Hr & Hall & Hle & Hp). cbv zeta in Hr.
      exists c, p. split; [done|]. split; [|split; [lia|]].
      * intros j Hj. apply elem_of_cons in Hj as [->|Hj]; [fold ci; lia|by apply Hall].
      * destruct Hp as [[-> ->]|(Hin & Hc & Hlt')]; [by left|].
        right. split; [by right|done].
Qed.

Lemma getPredictedChatterRange_peak (m : ChatterMemory.t xq) (spindleRPM : xq) :
  exists c p : Z,
    ChatterMemory.getPredictedChatterRange m spindleRPM
    = (of_Z (Z.max 500 ((p - 5) * 100)), of_Z (Z.min 8000 ((p + 5) * 100)))
    /\ 5 <= p < 80
    /\ (forall i, 5 <= i < 80 ->
          default 0 (ChatterMemory.chatterFreqHistogram m !! Z.to_nat i) <= c)
    /\ ((c = 0 /\ p = 20)
        \/ (c = default 0 (ChatterMemory.chatterFreqHistogram m !! Z.to_nat p) /\ 0 < c)).
Proof.
  unfold ChatterMemory.getPredictedChatterRange.
  destruct (peak_loop (ChatterMemory.chatterFreqHistogram m) (range 5 80) 0 20)
    as (c & p & Hr & Hall & Hle & Hp).
  cbv zeta in Hr. rewrite Hr. exists c, p.
  rewrite !xq_of_Z_mul, xq_fmax_of_Z, xq_fmin_of_Z. split; [done|].
  split; [|split].
  - destruct Hp as [[_ ->]|(Hin & _)]; [lia|].
    unfold range in Hin. apply elem_of_seqZ in Hin. lia.
  - intros i Hi. apply Hall. unfold range. apply elem_of_seqZ. lia.
  - destruct Hp as [H|(_ & Hc & Hlt)]; [by left|by right].
Qed.

End RangeFacts.

(** X16.  The predicted chatter range is the 1000 Hz around the fullest
    histogram bin among the bins 5 to 79, cut to 500..8000 Hz, over exact
    arithmetic: there is a bin [p] among them such that the range is
    [max(500, (p-5)*100)] to [min(8000, (p+5)*100)]; when no such bin has a
    positive count, [p] is 20 and the range is 1500 to 2500 Hz; otherwise
    the count of [p] is positive and no bin among them has a larger count.
    The spindle speed is not used. *)
Theorem predicted_range_is_fullest_bin
    (m : ChatterMemory.t XQ.xq) (spindleRPM : XQ.xq) :
  let count i := default 0 (ChatterMemory.chatterFreqHistogram m !! Z.to_nat i) in
  exists p : Z,
    5 <= p < 80
    /\ ChatterMemory.getPredictedChatterRange m spindleRPM
       = (of_Z (Z.max 500 ((p - 5) * 100)), of_Z (Z.min 8000 ((p + 5) * 100)))
    /\ ((forall i, 5 <= i < 80 -> count i <= 0) ->
        p = 20
        /\ ChatterMemory.getPredictedChatterRange m spindleRPM = (of_Z 1500, of_Z 2500))
    /\ ((exists i, 5 <= i < 80 /\ 0 < count i) ->
        0 < count p /\ forall i, 5 <= i < 80 -> count i <= count p).
Proof.
  cbv zeta. destruct (getPredictedChatterRange_peak m spindleRPM)
    as (c & p & Hr & Hp & Hall & Hc).
  exists p. split; [done|]. split; [done|]. split.
  - intros Hzero. destruct Hc as [[_ ->]|[Hc Hpos]].
    + split; [done|]. by rewrite Hr.
    + specialize (Hzero p Hp). lia.
  - intros (i & Hi & Hpos). destruct Hc as [[-> _]|[Hc Hcpos]].
    + specialize (Hall i Hi). lia.
    + rewrite <- Hc. split; [done|exact Hall].
Qed.

Lemma predicted_range_is_fullest_bin_witness :
  ChatterMemory.getPredictedChatterRange
    (ChatterMemory.initial Sample.blank_flash) (of_Z 12000)
  = (of_Z 1500, of_Z 2500).
Proof.
  destruct (predicted_range_is_fullest_bin
              (ChatterMemory.initial Sample.blank_flash) (of_Z 12000))
    as (p & _ & _ & H & _).
  apply H. intros i Hi.
  apply (forallb_range
           (fun i => default 0 (ChatterMemory.chatterFreqHistogram
                                  (ChatterMemory.initial Sample.blank_flash)
                                  !! Z.to_nat i) <=? 0) 5 80) in Hi; [lia|].
  by vm_compute.
Defined.

Section RecordedRange.
Import XQ.
Local Open Scope Z_scope.

Lemma floor_hundredth_bounds (q : Qc) :
  let b := Qfloor (q / inject_Z 100)%Q in
  (inject_Z b * 100 <= q < (inject_Z b + 1) * 100)%Q.
Proof.
  cbv zeta.
  pose proof (Qfloor_le (q / inject_Z 100)%Q) as H1.
  pose proof (Qlt_floor (q / inject_Z 100)%Q) as H2.
  rewrite inject_Z_plus in H2.
  set (b := inject_Z (Qfloor (q / inject_Z 100)%Q)) in * . clearbody b.
  change (inject_Z 100) with 100%Q in * . change (inject_Z 1) with 1%Q in * .
  unfold Qdiv in H1, H2. change (/ 100)%Q with (1 # 100)%Q in H1, H2.
  split; lra.
Qed.

End RecordedRange.

(** X17.  A recorded chatter frequency is inside the range learned from
    it.  Over exact arithmetic, when a memory whose histogram has no counts
    in the bins 5 to 79 (a fresh memory, for instance) records an event with
    a frequency from 500 Hz up to, not including, 8000 Hz, the predicted
    chatter range becomes the 1000 Hz around the bin of that frequency (cut
    to 500..8000 Hz) and contains the frequency: [update] then finds a
    dominant frequency equal to it in the learned range. *)
Theorem recorded_frequency_in_range
    (m : ChatterMemory.t XQ.xq) (e : ChatterEvent.t XQ.xq) (q : Qc) (spindleRPM : XQ.xq) :
  ChatterEvent.frequency e = XQ.XFin q ->
  (Qc_of_Z 500 <= q)%Qc -> (q < Qc_of_Z 8000)%Qc ->
  (forall i, 5 <= i < 80 -> ChatterMemory.chatterFreqHistogram m !! Z.to_nat i = Some 0) ->
  let m' := ChatterMemory.recordEvent m e in
  let bin := Qfloor (q / inject_Z 100)%Q in
  let r := ChatterMemory.getPredictedChatterRange m' spindleRPM in
  5 <= bin < 80
  /\ r = (of_Z (Z.max 500 ((bin - 5) * 100)), of_Z (Z.min 8000 ((bin + 5) * 100)))
  /\ (ChatterEvent.frequency e >=. fst r) = true
  /\ (ChatterEvent.frequency e <=. snd r) = true.
Proof.
  intros Hf Hlo Hhi Hzero. cbv zeta.
  pose proof (floor_hundredth_bounds q) as [Hb1 Hb2]. cbv zeta in Hb1, Hb2.
  remember (Qfloor (q / inject_Z 100)%Q) as bin eqn:Hbin_def.
  assert (this (Qc_of_Z 500) <= q)%Q as Hlo' by exact Hlo.
  assert (q < this (Qc_of_Z 8000))%Q as Hhi' by exact Hhi.
  change (this (Qc_of_Z 500)) with 500%Q in Hlo'.
  change (this (Qc_of_Z 8000)) with 8000%Q in Hhi'.
  assert (5 <= bin < 80) as Hbin.
  { split.
    - assert (inject_Z 5 < inject_Z (bin + 1))%Q as H.
      { rewrite inject_Z_plus. change (inject_Z 5) with 5%Q.
        change (inject_Z 1) with 1%Q. lra. }
      rewrite <- Zlt_Qlt in H. lia.
    - assert (inject_Z bin < inject_Z 80)%Q as H by (change (inject_Z 80) with 80%Q; lra).
      rewrite <- Zlt_Qlt in H. lia. }
  split; [done|].
  assert (0 <= q)%Qc as Hq0.
  { eapply Qcle_trans; [|exact Hlo]. by apply Qc_of_Z_nonneg. }
  assert (ChatterMemory.chatterFreqHistogram (ChatterMemory.recordEvent m e)
          = ChatterMemory.bump (ChatterMemory.chatterFreqHistogram m) bin 1) as Hhist.
  { rewrite recordEvent_histogram. cbv zeta. rewrite Hf, (xq_to_int_floor q Hq0).
    rewrite <- Hbin_def.
    destruct (Z.leb_spec 0 bin); [|lia]. destruct (Z.ltb_spec bin 100); [|lia]. done. }
  assert (forall i, 5 <= i < 80 ->
            default 0 (ChatterMemory.chatterFreqHistogram (ChatterMemory.recordEvent m e)
                       !! Z.to_nat i)
            = if decide (i = bin) then 1 else 0) as Hcount.
  { intros i Hi. rewrite Hhist. unfold ChatterMemory.bump.
    destruct (decide (i = bin)) as [->|Hne].
    - rewrite list_lookup_alter_eq, (Hzero bin Hbin). done.
    - rewrite list_lookup_alter_ne by lia. by rewrite (Hzero i Hi). }
  destruct (getPredictedChatterRange_peak (ChatterMemory.recordEvent m e) spindleRPM)
    as (c & p & Hr & Hp & Hall & Hc).
  assert (p = bin) as ->.
  { pose proof (Hall bin Hbin) as Hge. rewrite (Hcount bin Hbin) in Hge.
    rewrite decide_True in Hge by done.
    destruct Hc as [[-> _]|[Hc Hpos]]; [lia|].
    rewrite (Hcount p Hp) in Hc. destruct (decide (p = bin)); [done|lia]. }
  split; [done|]. rewrite Hr, Hf. cbn [fst snd]. rewrite !xq_of_Z_fin. split.
  - apply xq_leb_fin. unfold Qcle. cbn [this Qc_of_Z].
    destruct (Z.max_spec 500 ((bin - 5) * 100)) as [[_ ->]|[_ ->]].
    + rewrite inject_Z_mult. unfold Z.sub. rewrite inject_Z_plus, inject_Z_opp.
      change (inject_Z 5) with 5%Q. change (inject_Z 100) with 100%Q. lra.
    + exact Hlo'.
  - apply xq_leb_fin. unfold Qcle. cbn [this Qc_of_Z].
    destruct (Z.min_spec 8000 ((bin + 5) * 100)) as [[_ ->]|[_ ->]].
    + change (inject_Z 8000) with 8000%Q. lra.
    + rewrite inject_Z_mult, inject_Z_plus.
      change (inject_Z 5) with 5%Q. change (inject_Z 100) with 100%Q. lra.
Qed.

Lemma recorded_frequency_in_range_witness :
  let e := Sample.event 50 in
  let m' := ChatterMemory.recordEvent (ChatterMemory.initial Sample.blank_flash) e in
  let r := ChatterMemory.getPredictedChatterRange m' (of_Z 12000) in
  5 <= Qfloor (Qc_of_Z 1500 / inject_Z 100)%Q < 80
  /\ r = (of_Z (Z.max 500 ((Qfloor (Qc_of_Z 1500 / inject_Z 100)%Q - 5) * 100)),
          of_Z (Z.min 8000 ((Qfloor (Qc_of_Z 1500 / inject_Z 100)%Q + 5) * 100)))
  /\ (ChatterEvent.frequency e >=. fst r) = true
  /\ (ChatterEvent.frequency e <=. snd r) = true.
Proof.
  intros e.
  apply (recorded_frequency_in_range (ChatterMemory.initial Sample.blank_flash) e
           (Qc_of_Z 1500) (of_Z 12000)).
  - reflexivity.
  - by vm_compute.
  - by vm_compute.
  - intros i Hi.
    apply (forallb_range
             (fun i => bool_decide
                (ChatterMemory.chatterFreqHistogram
                   (ChatterMemory.initial (F := XQ.xq) Sample.blank_flash) !! Z.to_nat i
                 = Some 0)) 5 80) in Hi.
    + by apply bool_decide_eq_true_1 in Hi.
    + by vm_compute.
Defined.

(** X18.  The result of [AdvancedDSP.analyze] is in its documented ranges.
    Over exact arithmetic, for every state of the engine, every spectrum
    (NaN and infinite magnitudes included), every vibration and microphone
    level and every C library: the chatter score is a finite number between
    0 and 100; the confidence is between 57 and 100; and the harmonic
    strength, the spectral narrowness, the frequency stability, the
    stability-lobe match and the stall-guard score are between 0 and 1. *)
Theorem advanced_result_ranges (lm : Libm XQ.xq) (s : AdvancedDSP.t XQ.xq)
    (fftMagnitudes : list XQ.xq) (fftSize : Z) (vibMagnitude micRMS : XQ.xq) (millis : Z) :
  let r := snd (AdvancedDSP.analyze s fftMagnitudes fftSize vibMagnitude micRMS millis) in
  let between lo hi (x : XQ.xq) := (of_Z lo <=. x) = true /\ (x <=. of_Z hi) = true in
  between 0 100 (AdvancedDSP.chatterScore r)
  /\ between 57 100 (AdvancedDSP.confidence r)
  /\ between 0 1 (AdvancedDSP.harmonicStrength r)
  /\ between 0 1 (AdvancedDSP.spectralNarrowness r)
  /\ between 0 1 (AdvancedDSP.freqStability r)
  /\ between 0 1 (AdvancedDSP.stabilityLobeMatch r)
  /\ between 0 1 (AdvancedDSP.stallGuardScore r).
Proof.
  cbv zeta.
  pose proof (analyze_result_ranges s fftMagnitudes fftSize vibMagnitude micRMS millis)
    as (H1 & H2 & H3 & H4 & H5 & H6).
  pose proof (confidence_range s fftMagnitudes fftSize vibMagnitude micRMS millis) as Hc.
  cbv zeta in * . rewrite <- !within_bool. done.
Qed.

(** X19.  The names of the states.  The state name that the sketch builds
    for the display and for the serial status is, for every state, the name
    that [getStateString] gives; and the three-valued state that
    [fuseSensors] keeps for the display is CHATTER exactly when the detector
    is in CHATTER, WARNING exactly when it is in WARNING, and OK while it is
    calibrating, monitoring or recovering. *)
Theorem state_names_agree {F : Type} {ops : FloatOps F} {lm : Libm F}
    (g : Sketch.t F) (vReal : list F) (vibrationMagnitude : F)
    (clk : AdaptiveChatterDetector.Clock) :
  (forall d : AdaptiveChatterDetector.t F,
      Sketch.stateStr (AdaptiveChatterDetector.getStatus d)
      = AdaptiveChatterDetector.getStateString d)
  /\ let g' := Sketch.fuseSensors g vReal vibrationMagnitude clk in
     let state := AdaptiveChatterDetector.currentState (Sketch.chatterDetector g') in
     (Sketch.currentState g' = Sketch.STATE_CHATTER
      <-> state = AdaptiveChatterDetector.CHATTER)
     /\ (Sketch.currentState g' = Sketch.STATE_WARNING
         <-> state = AdaptiveChatterDetector.WARNING)
     /\ (Sketch.currentState g' = Sketch.STATE_OK
         <-> state = AdaptiveChatterDetector.CALIBRATING
             \/ state = AdaptiveChatterDetector.MONITORING
             \/ state = AdaptiveChatterDetector.RECOVERING).
Proof.
  split.
  - intros d. unfold Sketch.stateStr, AdaptiveChatterDetector.getStateString.
    cbn [AdaptiveChatterDetector.getStatus AdaptiveChatterDetector.st_state].
    by destruct (AdaptiveChatterDetector.currentState d).
  - cbv zeta. unfold Sketch.fuseSensors.
    cbn [Sketch.currentState Sketch.chatterDetector AdaptiveChatterDetector.getStatus
         AdaptiveChatterDetector.st_state].
    destruct (AdaptiveChatterDetector.currentState _); cbn;
      repeat split; try done; try (intros [H|[H|H]]; done); auto.
Qed.

Section LearningLoop.
Context {lm : Libm XQ.xq}.
Import AdaptiveChatterDetector.

Lemma run_chatter_fields (ys : list (Step XQ.xq)) (d : AdaptiveChatterDetector.t XQ.xq) :
  currentState d = CHATTER ->
  (forall y, y ∈ ys -> (s_score y <. of_Z 40) = false) ->
  lastChatterTime (run d ys) = lastChatterTime d
  /\ spindleRPM (run d ys) = spindleRPM d
  /\ suggestedFeed (run d ys) = suggestedFeed d.
Proof.
  revert d. induction ys as [|y ys IH]; intros d Hs Hys; [done|].
  destruct (step_chatter_stays d y Hs) as [Hs1 _]; [apply Hys; by left|].
  destruct (IH (step d y) Hs1) as (H1 & H2 & H3); [intros z Hz; apply Hys; by right|].
  destruct (updateState_chatter d (s_score y) (s_dominantFreq y) (s_now y) (s_stamp y) Hs)
    as (_ & _ & _ & H4 & H5 & _ & H6).
  cbv zeta in H4, H5, H6. fold (step d y) in H4, H5, H6.
  unfold run in * . cbn [fold_left]. by rewrite H1, H2, H3, H4, H5, H6.
Qed.

Lemma predict_nothing_learned (m : ChatterMemory.t XQ.xq) (f0 r0 : XQ.xq) :
  Prediction.resolved_events m = [] ->
  ChatterMemory.predictFeedReduction m f0 r0 = of_Z 20.
Proof.
  intros Hnone. rewrite predictFeedReduction_unfold.
  unfold Prediction.total_weight. by rewrite Hnone.
Qed.

Lemma predict_single_resolved (m : ChatterMemory.t XQ.xq) (e : ChatterEvent.t XQ.xq)
    (f r : Qc) :
  fexp (of_Z 0 : XQ.xq) = of_Z 1 ->
  Prediction.resolved_events m = [e] ->
  ChatterEvent.frequency e = XQ.XFin f ->
  ChatterEvent.spindleRPM e = XQ.XFin r ->
  ChatterMemory.predictFeedReduction m (XQ.XFin f) (XQ.XFin r)
  = ChatterEvent.feedReduction e.
Proof.
  intros Hexp Hres Hf Hr. rewrite predictFeedReduction_unfold.
  unfold Prediction.weighted_average, Prediction.total_weight,
    Prediction.weighted_reduction.
  rewrite Hres. cbn [fold_left].
  assert (Prediction.weight (XQ.XFin f) (XQ.XFin r) e = of_Z 1) as ->.
  { unfold Prediction.weight. rewrite Hf, Hr.
    rewrite !xq_self_distance by done. rewrite xq_add_zero_l.
    assert (fneg (of_Z 0 : XQ.xq) = of_Z 0) as -> by (by apply xq_fin_eq).
    exact Hexp. }
  rewrite xq_mul_one_l, !xq_add_zero_l, xq_div_one_r. done.
Qed.

Lemma filter_drop_nil {A} (P : A -> Prop) `{!forall x, Decision (P x)} (l : list A) k :
  filter P l = [] -> filter P (drop k l) = [].
Proof.
  revert k. induction l as [|a l IH]; intros k Hnil; [by destruct k|].
  rewrite filter_cons in Hnil. destruct (decide (P a)) as [Ha|Ha]; [done|].
  destruct k as [|k]; [|by apply IH].
  cbn [drop]. rewrite filter_cons, decide_False by done. done.
Qed.

Lemma resolved_events_recordEvent (m : ChatterMemory.t XQ.xq) (e : ChatterEvent.t XQ.xq) :
  Prediction.resolved_events m = [] ->
  ChatterEvent.resolved e = false ->
  Prediction.resolved_events (ChatterMemory.recordEvent m e) = [].
Proof.
  intros Hm He. unfold Prediction.resolved_events in * .
  assert (filter (fun e0 => ChatterEvent.resolved e0 = true) (ChatterMemory.events m ++ [e])
          = []) as Hall.
  { rewrite filter_app, Hm, filter_cons, decide_False by congruence. done. }
  rewrite recordEvent_events.
  destruct (ChatterMemory.MAX_EVENTS <? _); [|done].
  rewrite <- (drop_0 (ChatterMemory.events m ++ [e])) in Hall.
  change (tail ?l) with (drop 1 l).
  rewrite drop_0 in Hall. by apply filter_drop_nil.
Qed.

End LearningLoop.

(** X20.  The learning loop closes.  Over exact arithmetic, with a C library
    that returns [exp(0) = 1]: a detector that has learned nothing (no
    resolved event in its memory) and detects chatter (score above 70) at
    the frequency [fq] and the spindle speed [r] suggests the default, 20.
    If the chatter lasts (no score below 40), the feed rate is set to a
    value [f] below 95, a score below 40 follows, and then a score below 25
    more than 5 seconds after the detection, the detector is back in
    MONITORING with the suggestion reset to 100.  When it then detects
    chatter again at the same frequency and spindle speed, the suggestion
    is the reduction that resolved the first episode, [100 - f]. *)
Theorem learned_reduction_is_suggested (lm : Libm XQ.xq)
    (d0 : AdaptiveChatterDetector.t XQ.xq)
    (x : AdaptiveChatterDetector.Step XQ.xq) (ys : list (AdaptiveChatterDetector.Step XQ.xq))
    (f : XQ.xq) (z w x2 : AdaptiveChatterDetector.Step XQ.xq) (fq r : Qc) :
  fexp (of_Z 0 : XQ.xq) = of_Z 1 ->
  calm (AdaptiveChatterDetector.currentState d0) ->
  Prediction.resolved_events (AdaptiveChatterDetector.memory d0) = [] ->
  AdaptiveChatterDetector.spindleRPM d0 = XQ.XFin r ->
  AdaptiveChatterDetector.s_dominantFreq x = XQ.XFin fq ->
  (AdaptiveChatterDetector.s_score x >. of_Z 70) = true ->
  (forall y, y ∈ ys -> (AdaptiveChatterDetector.s_score y <. of_Z 40) = false) ->
  (f <. of_Z 95) = true ->
  (AdaptiveChatterDetector.s_score z <. of_Z 40) = true ->
  (AdaptiveChatterDetector.s_score w <. of_Z 25) = true ->
  5000 < (AdaptiveChatterDetector.s_now w - AdaptiveChatterDetector.s_now x) mod 2 ^ 32 ->
  AdaptiveChatterDetector.s_dominantFreq x2 = XQ.XFin fq ->
  (AdaptiveChatterDetector.s_score x2 >. of_Z 70) = true ->
  let d1 := AdaptiveChatterDetector.step d0 x in
  let d2 := AdaptiveChatterDetector.setFeedRate (AdaptiveChatterDetector.run d1 ys) f in
  let d3 := AdaptiveChatterDetector.step d2 z in
  let d4 := AdaptiveChatterDetector.step d3 w in
  let d5 := AdaptiveChatterDetector.step d4 x2 in
  AdaptiveChatterDetector.suggestedFeed d1 = of_Z 20
  /\ AdaptiveChatterDetector.currentState d4 = AdaptiveChatterDetector.MONITORING
  /\ AdaptiveChatterDetector.suggestedFeed d4 = of_Z 100
  /\ AdaptiveChatterDetector.currentState d5 = AdaptiveChatterDetector.CHATTER
  /\ AdaptiveChatterDetector.suggestedFeed d5 = of_Z 100 -. f.
Proof.
  intros Hexp Hcalm Hnone Hr Hfx Hx Hys Hf Hz Hw Hlate Hfx2 Hx2 d1 d2 d3 d4 d5.
  set (e := AdaptiveChatterDetector.chatterEventOf d0
              (AdaptiveChatterDetector.s_dominantFreq x)
              (AdaptiveChatterDetector.s_score x) (AdaptiveChatterDetector.s_stamp x)).
  (* the first detection *)
  destruct (updateState_enter_chatter d0 (AdaptiveChatterDetector.s_score x)
              (AdaptiveChatterDetector.s_dominantFreq x) (AdaptiveChatterDetector.s_now x)
              (AdaptiveChatterDetector.s_stamp x) Hcalm Hx) as (Hs1 & Ht1 & Hm1 & Hsf1).
  fold (AdaptiveChatterDetector.step d0 x) in Hs1, Ht1, Hm1, Hsf1.
  fold d1 e in Hs1, Ht1, Hm1, Hsf1.
  assert (Prediction.resolved_events (AdaptiveChatterDetector.memory d1) = []) as Hnone1.
  { rewrite Hm1. by apply resolved_events_recordEvent. }
  assert (AdaptiveChatterDetector.spindleRPM d1 = XQ.XFin r) as Hr1.
  { subst d1. unfold AdaptiveChatterDetector.step, AdaptiveChatterDetector.updateState.
    destruct Hcalm as [-> | ->]; rewrite Hx; exact Hr. }
  (* the chatter lasts, then ends *)
  destruct (run_chatter_stays ys d1 Hs1 Hys) as [Hs2 Hm2].
  destruct (run_chatter_fields ys d1 Hs1 Hys) as (Ht2 & Hr2 & _).
  assert (AdaptiveChatterDetector.currentState d2 = AdaptiveChatterDetector.CHATTER) as Hs2'
    by exact Hs2.
  destruct (updateState_chatter d2 (AdaptiveChatterDetector.s_score z)
              (AdaptiveChatterDetector.s_dominantFreq z) (AdaptiveChatterDetector.s_now z)
              (AdaptiveChatterDetector.s_stamp z) Hs2') as (_ & Hs3 & Hm3 & Ht3 & _ & _ & Hr3).
  fold (AdaptiveChatterDetector.step d2 z) in Hs3, Hm3, Ht3, Hr3.
  fold d3 in Hs3, Hm3, Ht3, Hr3.
  rewrite Hz in Hs3, Hm3.
  change (AdaptiveChatterDetector.feedRate d2) with f in Hm3. rewrite Hf in Hm3.
  cbn [andb] in Hm3.
  change (AdaptiveChatterDetector.memory d2)
    with (AdaptiveChatterDetector.memory (AdaptiveChatterDetector.run d1 ys)) in Hm3.
  change (AdaptiveChatterDetector.lastChatterTime d2)
    with (AdaptiveChatterDetector.lastChatterTime (AdaptiveChatterDetector.run d1 ys)) in Ht3.
  change (AdaptiveChatterDetector.spindleRPM d2)
    with (AdaptiveChatterDetector.spindleRPM (AdaptiveChatterDetector.run d1 ys)) in Hr3.
  rewrite Hm2 in Hm3. rewrite Ht2, Ht1 in Ht3. rewrite Hr2, Hr1 in Hr3.
  assert (last (ChatterMemory.events (AdaptiveChatterDetector.memory d1)) = Some e) as Hlast.
  { rewrite Hm1. apply recordEvent_last. }
  destruct (ChatterMemory.events (AdaptiveChatterDetector.memory d1)) as [|e0 l0 _] eqn:Hev
    using rev_ind; [discriminate|].
  rewrite last_snoc in Hlast. injection Hlast as ->.
  destruct (markResolved_snoc_facts (AdaptiveChatterDetector.memory d1) (of_Z 100 -. f)
              l0 e Hev) as (He3 & _).
  cbv zeta in He3. rewrite <- Hm3 in He3.
  assert (filter (fun e0 => ChatterEvent.resolved e0 = true) l0 = []) as Hl0.
  { unfold Prediction.resolved_events in Hnone1. rewrite Hev, filter_app in Hnone1.
    by apply app_eq_nil in Hnone1 as [? _]. }
  (* the recovery *)
  assert (d4 = AdaptiveChatterDetector.set_suggestedFeed
                 (AdaptiveChatterDetector.set_state d3 AdaptiveChatterDetector.MONITORING)
                 (of_Z 100)) as Hd4.
  { subst d4. unfold AdaptiveChatterDetector.step.
    rewrite updateState_recovering by exact Hs3.
    rewrite (below_25_not_above_60 _ Hw), Hw, Ht3.
    by rewrite (proj2 (Z.ltb_lt _ _) Hlate). }
  assert (AdaptiveChatterDetector.currentState d4 = AdaptiveChatterDetector.MONITORING) as Hs4
    by (by rewrite Hd4).
  assert (AdaptiveChatterDetector.memory d4 = AdaptiveChatterDetector.memory d3) as Hm4
    by (by rewrite Hd4).
  assert (AdaptiveChatterDetector.spindleRPM d4 = XQ.XFin r) as Hr4
    by (by rewrite Hd4).
  (* the second detection *)
  destruct (updateState_enter_chatter d4 (AdaptiveChatterDetector.s_score x2)
              (AdaptiveChatterDetector.s_dominantFreq x2) (AdaptiveChatterDetector.s_now x2)
              (AdaptiveChatterDetector.s_stamp x2) (or_introl Hs4) Hx2)
    as (Hs5 & _ & Hm5 & Hsf5).
  fold (AdaptiveChatterDetector.step d4 x2) in Hs5, Hm5, Hsf5. fold d5 in Hs5, Hm5, Hsf5.
  split; [by rewrite Hsf1; apply predict_nothing_learned|].
  split; [done|]. split; [by rewrite Hd4|]. split; [done|].
  rewrite Hsf5, Hfx2, Hr4.
  rewrite (predict_single_resolved _ (resolved_with e (of_Z 100 -. f)) fq r); try done.
  unfold Prediction.resolved_events. rewrite Hm5, recordEvent_events, Hm4, He3.
  assert (forall l : list (ChatterEvent.t XQ.xq),
            filter (fun e0 => ChatterEvent.resolved e0 = true) l = [] ->
            filter (fun e0 => ChatterEvent.resolved e0 = true)
              ((l ++ [resolved_with e (of_Z 100 -. f)])
               ++ [AdaptiveChatterDetector.chatterEventOf d4
                     (AdaptiveChatterDetector.s_dominantFreq x2)
                     (AdaptiveChatterDetector.s_score x2)
                     (AdaptiveChatterDetector.s_stamp x2)])
            = [resolved_with e (of_Z 100 -. f)]) as Hfilter.
  { intros l Hl. rewrite !filter_app, Hl.
    rewrite (filter_cons _ (resolved_with _ _)), decide_True by done.
    rewrite filter_cons, decide_False by done. done. }
  destruct (ChatterMemory.MAX_EVENTS <? _) eqn:Hfull; [|by apply Hfilter].
  destruct l0 as [|a l0].
  - apply Z.ltb_lt in Hfull. cbn in Hfull. unfold ChatterMemory.MAX_EVENTS in Hfull. lia.
  - cbn [app tail]. apply Hfilter.
    rewrite filter_cons in Hl0. by destruct (decide (ChatterEvent.resolved a = true)).
Qed.

Lemma learned_reduction_is_suggested_witness :
  let d1 := AdaptiveChatterDetector.step (lm := Sample.libm) Sample.monitoring
              (Sample.at_score 80 1000) in
  let d2 := AdaptiveChatterDetector.setFeedRate
              (AdaptiveChatterDetector.run (lm := Sample.libm) d1 [Sample.at_score 75 1500])
              (of_Z 70) in
  let d3 := AdaptiveChatterDetector.step (lm := Sample.libm) d2 (Sample.at_score 30 2000) in
  let d4 := AdaptiveChatterDetector.step (lm := Sample.libm) d3 (Sample.at_score 10 7000) in
  let d5 := AdaptiveChatterDetector.step (lm := Sample.libm) d4 (Sample.at_score 80 8000) in
  AdaptiveChatterDetector.suggestedFeed d1 = of_Z 20
  /\ AdaptiveChatterDetector.suggestedFeed d5 = of_Z 100 -. of_Z 70.
Proof.
  cbv zeta.
  assert (forall y, y ∈ [Sample.at_score 75 1500] ->
            (AdaptiveChatterDetector.s_score y <. of_Z 40) = false) as Hys.
  { intros y Hy. apply list_elem_of_singleton in Hy. subst y. by vm_compute. }
  assert (fexp (Libm := Sample.libm) (of_Z 0 : XQ.xq) = of_Z 1) as Hexp.
  { apply xq_fin_eq. by vm_compute. }
  assert (5000 < (AdaptiveChatterDetector.s_now (Sample.at_score 10 7000)
                  - AdaptiveChatterDetector.s_now (Sample.at_score 80 1000)) mod 2 ^ 32)
    as Hlate by (by vm_compute).
  pose proof (learned_reduction_is_suggested Sample.libm Sample.monitoring
                (Sample.at_score 80 1000) [Sample.at_score 75 1500] (of_Z 70)
                (Sample.at_score 30 2000) (Sample.at_score 10 7000)
                (Sample.at_score 80 8000) (Qc_of_Z 1500) (Qc_of_Z 0)
                Hexp (or_introl eq_refl) eq_refl eq_refl eq_refl eq_refl Hys
                eq_refl eq_refl eq_refl Hlate eq_refl eq_refl) as H.
  cbv zeta in H. destruct H as (H1 & _ & _ & _ & H5). split; [exact H1|exact H5].
Defined.

(** ** FrequencyBandAnalyzer *)

Section BandFacts.
Context {F : Type} {ops : FloatOps F} {lm : Libm F}.
Import FrequencyBandAnalyzer.

Lemma fold_left_ext_in {A B} (f g : A -> B -> A) (l : list B) (a : A) :
  (forall a b, b ∈ l -> f a b = g a b) -> fold_left f l a = fold_left g l a.
Proof.
  revert a. induction l as [|b l IH]; intros a H; [done|].
  cbn [fold_left]. rewrite (H a b) by (by left).
  apply IH. intros a' b' Hb'. apply H. by right.
Qed.

Lemma analyzeBand_ext (s : t F) (m1 m2 : list F) (size : Z) (b : Band F) :
  (forall i, 1 <= i < Z.quot size 2 -> m1 @@ i = m2 @@ i) ->
  analyzeBand s m1 size b = analyzeBand s m2 size b.
Proof.
  intros H. unfold analyzeBand.
  set (lowBin := Z.max 1 _). set (highBin := Z.min _ _).
  rewrite (fold_left_ext_in
             (fun energy0 i => energy0 +. m1 @@ i *. m1 @@ i)
             (fun energy0 i => energy0 +. m2 @@ i *. m2 @@ i)); [done|].
  intros a i Hi. unfold range in Hi. apply elem_of_seqZ in Hi.
  rewrite H by lia. done.
Qed.

Context {ord : FloatOrder F}.

Lemma dominant_loop (bs : list (Band F)) (acc : F * F) :
  let r := fold_left (fun '(maxZ, freq) b =>
             if zScore b >. maxZ then (zScore b, centerFreq b) else (maxZ, freq))
             bs acc in
  (forall b, b ∈ bs -> (zScore b >. fst r) = false)
  /\ (r = acc
      \/ exists b, b ∈ bs /\ r = (zScore b, centerFreq b) /\ (zScore b >. fst acc) = true)
  /\ (forall x : F, (x >. fst acc) = false -> (x >. fst r) = false).
Proof.
  revert acc. induction bs as [|b bs IH]; intros [m fr]; cbv zeta.
  - cbn. split; [intros b Hb; by apply elem_of_nil in Hb|]. split; [by left|done].
  - cbn [fold_left].
    set (acc' := if zScore b >. m then (zScore b, centerFreq b) else (m, fr)).
    destruct (IH acc') as (H1 & H2 & H3). cbv zeta in H1, H2, H3.
    set (r := fold_left _ bs acc') in * .
    assert (forall x : F, (x >. m) = false -> (x >. fst acc') = false) as Hstep.
    { intros x Hx. subst acc'. destruct (zScore b >. m) eqn:E; [|done].
      cbn [fst]. destruct (x >. zScore b) eqn:E'; [|done].
      pose proof (flt_trans _ _ _ E E'). congruence. }
    split; [|split].
    + intros b' Hb'. apply elem_of_cons in Hb' as [->|Hb']; [|by apply H1].
      apply H3. subst acc'. destruct (zScore b >. m) eqn:E; cbn [fst]; [|done].
      apply flt_irrefl.
    + cbn [fst]. destruct H2 as [H2|(b' & Hin & Hr & Hgt)].
      * rewrite H2. subst acc'. destruct (zScore b >. m) eqn:E; [|by left].
        right. exists b. split; [by left|done].
      * right. exists b'. split; [by right|]. split; [done|].
        subst acc'. destruct (zScore b >. m) eqn:E; cbn [fst] in Hgt; [|done].
        by eapply flt_trans.
    + intros x Hx. apply H3. cbn [fst] in Hx. by apply Hstep.
Qed.

End BandFacts.

(** X21.  The band analyzer reads the lower half of the spectrum only, and
    never the DC bin: two spectra that agree on the bins from 1 to
    [size/2 - 1] give the same band energies, z-scores and anomaly flags.
    For every arithmetic and every C library. *)
Theorem band_analyzer_reads_half_spectrum {F : Type} {ops : FloatOps F} {lm : Libm F}
    (s : FrequencyBandAnalyzer.t F) (magnitudes1 magnitudes2 : list F) (size : Z) :
  (forall i, 1 <= i < Z.quot size 2 -> magnitudes1 @@ i = magnitudes2 @@ i) ->
  FrequencyBandAnalyzer.analyze s magnitudes1 size
  = FrequencyBandAnalyzer.analyze s magnitudes2 size.
Proof.
  intros H. unfold FrequencyBandAnalyzer.analyze. f_equal.
  apply map_ext. intros b. by apply analyzeBand_ext.
Qed.

Lemma band_analyzer_reads_half_spectrum_witness :
  FrequencyBandAnalyzer.analyze (lm := Sample.libm)
    (FrequencyBandAnalyzer.init (lm := Sample.libm) (of_Z 16000) 1024) [] 1024
  = FrequencyBandAnalyzer.analyze (lm := Sample.libm)
      (FrequencyBandAnalyzer.init (lm := Sample.libm) (of_Z 16000) 1024) [of_Z 5] 1024.
Proof.
  apply (band_analyzer_reads_half_spectrum (lm := Sample.libm)).
  intros i Hi. unfold aget.
  destruct (Z.ltb_spec i 0) as [?|_]; [lia|].
  destruct (Z.to_nat i) as [|n] eqn:E; [lia|]. reflexivity.
Defined.

(** X22.  The dominant anomaly frequency is the centre of a strongest band.
    [getDominantAnomalyFreq] returns 0 when no band has a z-score above 0;
    otherwise it returns the centre frequency of a band whose z-score is
    above 0 and is not exceeded by the z-score of any band.  For every
    arithmetic whose [<] is a strict order. *)
Theorem dominant_anomaly_is_strongest_band {F : Type} {ops : FloatOps F}
    {ord : FloatOrder F} (s : FrequencyBandAnalyzer.t F) :
  (FrequencyBandAnalyzer.getDominantAnomalyFreq s = of_Z 0
   /\ forall b, b ∈ FrequencyBandAnalyzer.bands s ->
        (FrequencyBandAnalyzer.zScore b >. of_Z 0) = false)
  \/ (exists b, b ∈ FrequencyBandAnalyzer.bands s
        /\ FrequencyBandAnalyzer.getDominantAnomalyFreq s = FrequencyBandAnalyzer.centerFreq b
        /\ (FrequencyBandAnalyzer.zScore b >. of_Z 0) = true
        /\ forall b', b' ∈ FrequencyBandAnalyzer.bands s ->
             (FrequencyBandAnalyzer.zScore b' >. FrequencyBandAnalyzer.zScore b) = false).
Proof.
  unfold FrequencyBandAnalyzer.getDominantAnomalyFreq.
  destruct (dominant_loop (FrequencyBandAnalyzer.bands s) (of_Z 0, of_Z 0))
    as (H1 & H2 & _).
  cbv zeta in H1, H2. destruct H2 as [H2|(b & Hin & Hr & Hgt)].
  - left. rewrite H2 in H1 |- * . done.
  - right. exists b. rewrite Hr in H1 |- * . done.
Qed.

Lemma dominant_anomaly_is_strongest_band_witness :
  FrequencyBandAnalyzer.getDominantAnomalyFreq
    (FrequencyBandAnalyzer.init (lm := Sample.libm) (of_Z 16000) 1024) = of_Z 0.
Proof.
  destruct (dominant_anomaly_is_strongest_band
              (FrequencyBandAnalyzer.init (lm := Sample.libm) (of_Z 16000) 1024))
    as [[H _]|(b & Hin & _ & Hgt & _)]; [exact H|].
  exfalso. unfold FrequencyBandAnalyzer.init in Hin.
  cbn [FrequencyBandAnalyzer.bands] in Hin.
  apply list_elem_of_fmap in Hin as (i & -> & _).
  cbn [FrequencyBandAnalyzer.zScore] in Hgt. by vm_compute in Hgt.
Defined.

(** ** FrequencyTracker: the ring buffer *)

Section RingFacts.
Context {F : Type} {ops : FloatOps F}.
Import FrequencyTracker.



End RingFacts.

Section RingSums.
Context {F : Type} {ops : FloatOps F}.
Import FrequencyTracker.




End RingSums.


(** ** StallGuardAnalyzer: the ring buffers of the axes *)

Section StallGuardFacts.
Import StallGuardAnalyzer.

Lemma zget_aset_eq (l : list Z) (a v : Z) :
  0 <= a < Z.of_nat (length l) -> zget (aset l a v) a = v.
Proof.
  intros Ha. unfold zget, aset. destruct (Z.ltb_spec a 0) as [?|_]; [lia|].
  rewrite list_lookup_insert_eq by lia. done.
Qed.

Lemma zget_aset_ne (l : list Z) (a b v : Z) :
  0 <= a -> 0 <= b -> a <> b -> zget (aset l a v) b = zget l b.
Proof.
  intros Ha Hb Hab. unfold zget, aset.
  destruct (Z.ltb_spec a 0) as [?|_]; [lia|]. destruct (Z.ltb_spec b 0) as [?|_]; [lia|].
  rewrite list_lookup_insert_ne by lia. done.
Qed.

Lemma row_aset_eq (l : list (list Z)) (a : Z) (v : list Z) :
  0 <= a < Z.of_nat (length l) -> row (aset l a v) a = v.
Proof.
  intros Ha. unfold row, aset. destruct (Z.ltb_spec a 0) as [?|_]; [lia|].
  rewrite list_lookup_insert_eq by lia. done.
Qed.

Lemma row_aset_ne (l : list (list Z)) (a b : Z) (v : list Z) :
  0 <= a -> 0 <= b -> a <> b -> row (aset l a v) b = row l b.
Proof.
  intros Ha Hb Hab. unfold row, aset.
  destruct (Z.ltb_spec a 0) as [?|_]; [lia|]. destruct (Z.ltb_spec b 0) as [?|_]; [lia|].
  rewrite list_lookup_insert_ne by lia. done.
Qed.

Lemma length_aset {A} (l : list A) (a : Z) (v : A) : length (aset l a v) = length l.
Proof. unfold aset. destruct (a <? 0); [done|]. by rewrite length_insert. Qed.

Lemma sg_after_snoc (ps : list (Z * Z)) (p : Z * Z) :
  sg_after (ps ++ [p]) = pushSG (sg_after ps) (fst p) (snd p).
Proof. unfold sg_after. by rewrite fold_left_app. Qed.

Lemma axis_readings_snoc (ps : list (Z * Z)) (p : Z * Z) (a : Z) :
  axis_readings (ps ++ [p]) a
  = axis_readings ps a ++ (if decide (fst p = a) then [snd p] else []).
Proof.
  unfold axis_readings. rewrite filter_app, fmap_app, filter_cons.
  by destruct (decide (fst p = a)).
Qed.

(** On each axis the [i]-th reading is at position [i mod 32] of the row of
    the axis, as long as it is one of the last 32. *)
Lemma sg_invariant (ps : list (Z * Z)) :
  let s := sg_after ps in
  length (sgBuffer s) = 3%nat /\ length (sgIdx s) = 3%nat /\ length (sgCount s) = 3%nat
  /\ forall a, 0 <= a < 3 ->
       let vals := axis_readings ps a in
       let n := Z.of_nat (length vals) in
       length (row (sgBuffer s) a) = 32%nat
       /\ zget (sgIdx s) a = n mod 32
       /\ zget (sgCount s) a = Z.min n 32
       /\ forall i, 0 <= i -> n - 32 <= i < n ->
            row (sgBuffer s) a !! Z.to_nat (i mod 32) = vals !! Z.to_nat i.
Proof.
  induction ps as [|[ax v] ps IH] using rev_ind; cbv zeta.
  - split; [done|]. split; [done|]. split; [done|].
    intros a Ha. assert (a = 0 \/ a = 1 \/ a = 2) as [->|[->| ->]] by lia;
      (split; [done|]; split; [done|]; split; [done|]; cbn; intros; lia).
  - rewrite sg_after_snoc. cbv zeta in IH. destruct IH as (Hb & Hi & Hc & Hax).
    set (s := sg_after ps) in * . cbn [fst snd]. unfold pushSG.
    destruct ((0 <=? ax) && (ax <? 3)) eqn:Hvalid.
    + apply andb_true_iff in Hvalid as [H0 H3].
      apply Z.leb_le in H0. apply Z.ltb_lt in H3.
      cbn [sgBuffer sgIdx sgCount]. rewrite !length_aset.
      split; [done|]. split; [done|]. split; [done|].
      intros a Ha. rewrite axis_readings_snoc. cbn [fst snd].
      destruct (Hax a Ha) as (Hrl & Hidx & Hcnt & Hget).
      destruct (decide (ax = a)) as [->|Hne].
      * rewrite length_app. cbn [length].
        set (vals := axis_readings ps a) in * .
        set (n := Z.of_nat (length vals)) in * .
        replace (Z.of_nat (length vals + 1)) with (n + 1) by lia.
        assert (0 <= n) as Hn by lia.
        pose proof (Z.mod_pos_bound n 32 ltac:(lia)) as Hk.
        rewrite row_aset_eq, !zget_aset_eq by lia.
        rewrite Hidx, Hcnt. unfold SG_BUFFER_SIZE, aset.
        destruct (Z.ltb_spec (n mod 32) 0) as [?|_]; [lia|].
        rewrite length_insert.
        split; [done|]. split.
        { rewrite Z.rem_mod_nonneg by lia. by rewrite Zplus_mod_idemp_l. }
        split.
        { destruct (Z.ltb_spec (Z.min n 32) 32); lia. }
        intros i Hi0 Hir.
        destruct (decide (i = n)) as [->|Hin].
        -- rewrite list_lookup_insert_eq by lia.
           rewrite lookup_app_r by lia.
           replace (Z.to_nat n - length vals)%nat with 0%nat by lia. done.
        -- assert (i mod 32 <> n mod 32) as Hmod.
           { intros Heq.
             pose proof (Z.div_mod i 32 ltac:(lia)). pose proof (Z.div_mod n 32 ltac:(lia)).
             pose proof (Z.mod_pos_bound i 32 ltac:(lia)). lia. }
           pose proof (Z.mod_pos_bound i 32 ltac:(lia)) as Hbd.
           rewrite list_lookup_insert_ne by lia.
           rewrite lookup_app_l by lia. apply Hget; lia.
      * rewrite app_nil_r.
        rewrite row_aset_ne, !zget_aset_ne by lia. done.
    + split; [done|]. split; [done|]. split; [done|].
      intros a Ha. rewrite axis_readings_snoc. cbn [fst snd].
      rewrite decide_False; [rewrite app_nil_r; by apply Hax|].
      intros ->. apply andb_false_iff in Hvalid as [H|H];
        [apply Z.leb_gt in H|apply Z.ltb_ge in H]; lia.
Qed.

Lemma fold_left_via {A B C} (f : B -> C) (g : A -> C -> A) (l : list B) (a : A) :
  fold_left (fun acc i => g acc (f i)) l a = fold_left g (f <$> l) a.
Proof. revert a. induction l as [|b l IH]; intros a; [done|]. cbn. apply IH. Qed.

End StallGuardFacts.

Section StallGuardLoop.
Import StallGuardAnalyzer.

Lemma sg_loop_diffs (f : Z -> Z) (l : list Z) (acc : Z * Z) :
  fold_left (fun '(crossings, lastSign) i =>
      let diff := f i in
      let sign := if 5 <? diff then 1 else if diff <? -5 then -1 else 0 in
      (if negb (sign =? 0) && negb (sign =? lastSign) && negb (lastSign =? 0)
       then crossings + 1 else crossings,
       if negb (sign =? 0) then sign else lastSign)) l acc
  = fold_left (fun '(crossings, lastSign) diff =>
      let sign := if 5 <? diff then 1 else if diff <? -5 then -1 else 0 in
      (if negb (sign =? 0) && negb (sign =? lastSign) && negb (lastSign =? 0)
       then crossings + 1 else crossings,
       if negb (sign =? 0) then sign else lastSign)) (f <$> l) acc.
Proof.
  revert acc. induction l as [|i l IH]; intros [c ls]; [done|].
  cbn [fold_left fmap list_fmap]. apply IH.
Qed.

Lemma zget_lookup (l : list Z) (i x : Z) :
  0 <= i -> l !! Z.to_nat i = Some x -> zget l i = x.
Proof.
  intros Hi Hx. unfold zget. destruct (Z.ltb_spec i 0) as [?|_]; [lia|]. by rewrite Hx.
Qed.

(** The differences the loop computes are those of consecutive readings
    among the last [c]. *)
Lemma sg_loop_reads (buf vals : list Z) (k n c : Z) :
  n = Z.of_nat (length vals) -> c = Z.min n 32 -> k = n mod 32 ->
  (forall i, 0 <= i -> n - 32 <= i < n ->
     buf !! Z.to_nat (i mod 32) = vals !! Z.to_nat i) ->
  (fun i =>
     zget buf (Z.rem (k - c + i + 32) 32)
     - zget buf (Z.rem (Z.rem (k - c + i + 32) 32 - 1 + 32) 32))
    <$> range 1 c
  = sg_diffs (last_n 32 vals).
Proof.
  intros Hn Hc Hk Hget. unfold sg_diffs, last_n, range.
  assert (0 <= n) as Hn0 by lia.
  pose proof (Z.mod_pos_bound n 32 ltac:(lia)) as Hkb.
  pose proof (Z.div_mod n 32 ltac:(lia)) as Hdiv.
  replace (length vals - 32)%nat with (Z.to_nat (n - c)) by lia.
  apply list_eq. intros j. rewrite list_lookup_fmap, lookup_zip_with.
  rewrite !lookup_drop.
  destruct (decide (Z.of_nat j < c - 1)) as [Hj|Hj].
  - rewrite lookup_seqZ_lt by lia. cbn [fmap option_fmap option_map].
    set (i := 1 + Z.of_nat j).
    assert (Z.rem (k - c + i + 32) 32 = (n - c + i) mod 32) as Hidx.
    { rewrite Z.rem_mod_nonneg by lia.
      rewrite <- (Z.mod_add (n - c + i) (1 - n / 32) 32) by lia. f_equal. lia. }
    assert (Z.rem (Z.rem (k - c + i + 32) 32 - 1 + 32) 32 = (n - c + i - 1) mod 32) as Hprev.
    { rewrite Hidx.
      pose proof (Z.mod_pos_bound (n - c + i) 32 ltac:(lia)).
      rewrite Z.rem_mod_nonneg by lia.
      pose proof (Z.div_mod (n - c + i) 32 ltac:(lia)).
      rewrite <- (Z.mod_add (n - c + i - 1) (1 - (n - c + i) / 32) 32) by lia.
      f_equal. lia. }
    rewrite Hprev, Hidx.
    pose proof (Hget (n - c + i) ltac:(lia) ltac:(lia)) as H1.
    pose proof (Hget (n - c + i - 1) ltac:(lia) ltac:(lia)) as H2.
    replace (Z.to_nat (n - c) + (1 + j))%nat with (Z.to_nat (n - c + i)) by lia.
    replace (Z.to_nat (n - c) + j)%nat with (Z.to_nat (n - c + i - 1)) by lia.
    destruct (vals !! Z.to_nat (n - c + i)) as [x|] eqn:Hx;
      [|apply lookup_ge_None in Hx; lia].
    destruct (vals !! Z.to_nat (n - c + i - 1)) as [y|] eqn:Hy;
      [|apply lookup_ge_None in Hy; lia].
    cbn. f_equal.
    rewrite (zget_lookup buf _ x), (zget_lookup buf _ y); try done;
      apply Z.mod_pos_bound; lia.
  - rewrite lookup_seqZ_ge by lia. cbn.
    replace (vals !! (Z.to_nat (n - c) + (1 + j))%nat) with (@None Z); [done|].
    symmetry. apply lookup_ge_None. lia.
Qed.

End StallGuardLoop.

(** X24.  The stall-guard analyzer scores the last 32 readings of an axis.
    After any sequence of [pushSG] calls on a new analyzer (calls with an
    axis other than 0, 1, 2 are ignored), for an axis 0, 1 or 2: the score
    counts the readings of that axis only, the last 32 of them, in the
    order of the calls; it is 0 with fewer than 10 of them, and otherwise
    it grades the rate, that is, the number of turns among their
    consecutive differences divided by their number: 1 when the rate
    exceeds 0.3, else 0.7 when it exceeds 0.2, else 0.4 when it exceeds
    0.1, else 0.1, where the rate is a [float] and 0.3, 0.2, 0.1 are
    [double] literals (so that the [float] rates 3/10, 2/10 and 1/10
    exceed them); and [hasData] holds exactly when some axis has received
    more than 10 readings.  For every arithmetic. *)
Theorem stallguard_scores_last_32 {F : Type} {ops : FloatOps F}
    (ps : list (Z * Z)) (axis : Z) :
  0 <= axis < 3 ->
  let s := sg_after ps in
  let readings := last_n 32 (axis_readings ps axis) in
  let n := Z.of_nat (length readings) in
  n = Z.min (Z.of_nat (length (axis_readings ps axis))) 32
  /\ StallGuardAnalyzer.getOscillationScore s axis
     = (if n <? 10 then of_Z 0
        else
          let rate := of_Z (sg_turns (sg_diffs readings)) /. of_Z n in
          if rate >. dlit 3 10 then of_Z 1
          else if rate >. dlit 2 10 then lit 7 10
          else if rate >. dlit 1 10 then lit 4 10
          else lit 1 10)
  /\ StallGuardAnalyzer.hasData s
     = existsb (fun a => 10 <? Z.of_nat (length (axis_readings ps a))) [0; 1; 2].
Proof.
  intros Hax. cbv zeta.
  destruct (sg_invariant ps) as (_ & _ & _ & Hinv). cbv zeta in Hinv.
  assert (length (last_n 32 (axis_readings ps axis))
          = Z.to_nat (Z.min (Z.of_nat (length (axis_readings ps axis))) 32)) as Hlen.
  { unfold last_n. rewrite length_drop. lia. }
  rewrite Hlen, Z2Nat.id by lia.
  split; [done|]. split.
  - destruct (Hinv axis Hax) as (_ & Hidx & Hcnt & Hget).
    unfold StallGuardAnalyzer.getOscillationScore.
    destruct (Z.ltb_spec axis 0) as [?|_]; [lia|].
    rewrite Z.geb_leb. destruct (Z.leb_spec 3 axis) as [?|_]; [lia|].
    cbn [orb]. rewrite Hcnt, Hidx.
    set (n := Z.of_nat (length (axis_readings ps axis))) in * .
    destruct (Z.min n 32 <? 10); [done|]. cbv zeta.
    unfold StallGuardAnalyzer.SG_BUFFER_SIZE.
    rewrite (sg_loop_diffs
               (fun i =>
                  StallGuardAnalyzer.zget
                    (StallGuardAnalyzer.row (StallGuardAnalyzer.sgBuffer (sg_after ps)) axis)
                    (Z.rem (n mod 32 - Z.min n 32 + i + 32) 32)
                  - StallGuardAnalyzer.zget
                      (StallGuardAnalyzer.row (StallGuardAnalyzer.sgBuffer (sg_after ps)) axis)
                      (Z.rem (Z.rem (n mod 32 - Z.min n 32 + i + 32) 32 - 1 + 32) 32))).
    rewrite (sg_loop_reads _ (axis_readings ps axis) (n mod 32) n (Z.min n 32)); try done.
    unfold sg_turns.
    by destruct (fold_left _ (sg_diffs (last_n 32 (axis_readings ps axis))) (0, 0)).
  - unfold StallGuardAnalyzer.hasData. cbn [existsb].
    destruct (Hinv 0 ltac:(lia)) as (_ & _ & -> & _).
    destruct (Hinv 1 ltac:(lia)) as (_ & _ & -> & _).
    destruct (Hinv 2 ltac:(lia)) as (_ & _ & -> & _).
    rewrite orb_false_r, orb_assoc.
    f_equal; [f_equal|];
      match goal with
      | |- (10 <? Z.min ?a 32) = _ =>
          destruct (Z.ltb_spec 10 (Z.min a 32)); destruct (Z.ltb_spec 10 a); lia || done
      end.
Qed.

Lemma stallguard_scores_last_32_witness :
  let ps := (fun v => (0, v)) <$> [100; 120; 100; 120; 100; 100; 100; 100; 100; 100] in
  sg_turns (sg_diffs (last_n 32 (axis_readings ps 0))) = 3
  /\ StallGuardAnalyzer.getOscillationScore (F := spec_float) (sg_after ps) 0 = of_Z 1
  /\ StallGuardAnalyzer.getOscillationScore (F := XQ.xq) (sg_after ps) 0 = of_Z 1
  /\ StallGuardAnalyzer.hasData (sg_after ((7, 3) :: ps)) = false.
Proof.
  intros ps. split; [by vm_compute|]. split; [|split].
  - destruct (stallguard_scores_last_32 (F := spec_float) ps 0) as (_ & H & _); [lia|].
    rewrite H. by vm_compute.
  - destruct (stallguard_scores_last_32 (F := XQ.xq) ps 0) as (_ & H & _); [lia|].
    rewrite H. cbv zeta.
    assert ((Z.of_nat (length (last_n 32 (axis_readings ps 0))) <? 10) = false) as ->
      by (by vm_compute).
    assert (((of_Z (sg_turns (sg_diffs (last_n 32 (axis_readings ps 0))))
              /. of_Z (Z.of_nat (length (last_n 32 (axis_readings ps 0)))) : XQ.xq)
             >. dlit 3 10) = true) as -> by (by vm_compute).
    done.
  - destruct (stallguard_scores_last_32 (F := XQ.xq) ((7, 3) :: ps) 0) as (_ & _ & H); [lia|].
    rewrite H. by vm_compute.
Defined.
